(** * sc4x: stock ledger, adjustments, point-of-sale sales and refunds

    A shallow embedding of the four mutating request handlers of the
    server,

      - [POST /adjust]       (routes/dashboard.js, "Adjust stock"),
      - [POST /bulk-adjust]  (routes/dashboard.js, "Bulk stock adjustment"),
      - [POST /]             (routes/sales.js, "Create new sale (POS)"),
      - [POST /:id/refund]   (routes/sales.js, "Refund sale"),

    together with the acknowledgement of an alert
    ([POST /alerts/:id/acknowledge]), the token and role middleware
    (middleware/auth.js), the deletion of a user and of a product
    ([DELETE /:id] of routes/users.js and routes/products.js) and the
    writing handlers of the categories router with [getDescendants],

    over the tables of database/schema.sql, followed by the properties
    of the stock ledger, of the low-stock alerts and of the refund
    status that the handlers do, or do not, maintain.

    Conventions of the embedding.
      - SQLite INTEGER columns and the integers of a request body are
        [Z]; the quantities of a body are JSON numbers (a string of
        digits, which [isInt] lets through as well, is not modelled).
      - In the handlers these integers are JavaScript numbers, IEEE
        doubles: what is read from a column or from the body is taken
        to be a double already, and every sum and difference that a
        handler computes is rounded to the nearest double ([fl],
        [js_add], [js_sub]).
      - A nullable column is an [option]; JavaScript's [x || null] and
        [x || d] are written out ([or_null], [or_null_s], [or_default]).
      - [stock] carries UNIQUE(product_id, variant_id) and [sales] has
        an INTEGER PRIMARY KEY: both are finite maps on their key.
        [stock_movements], [low_stock_alerts] and [sale_items] are
        lists in insertion order.
      - Timestamps and the monetary columns (price, totals, tax,
        discount: IEEE doubles in the handlers) are left out; no
        statement below reads them.
      - [sales] and [sale_items] are AUTOINCREMENT tables: a new row
        takes the id after the largest of sqlite_sequence's counter and
        the ids in the table.
      - A handler is a function from the database and the request to
        the response and the database it leaves behind.  Its [body] is
        req.body as the handler reads it, that is, after the sanitizers
        of the route's validation chain ([adjust_chain], [bulk_chain],
        [sale_chain], [refund_chain]) have trimmed its texts. *)

From stdpp Require Import gmap strings list fin_maps pretty.

Open Scope Z_scope.

(** ** Tables (database/schema.sql) *)

(** [adjustment_type] of a request: [isIn(['in', 'out', 'adjustment'])]. *)
Inductive adjustment_type := adj_in | adj_out | adj_adjustment.

(** CHECK (movement_type IN ('in','out','adjustment','sale','return','damaged')). *)
Inductive movement_type :=
  mt_in | mt_out | mt_adjustment | mt_sale | mt_return | mt_damaged.

(** CHECK (alert_status IN ('active', 'acknowledged', 'resolved')). *)
Inductive alert_status := active | acknowledged | resolved.

(** CHECK (status IN ('pending', 'completed', 'cancelled', 'refunded')). *)
Inductive sale_status := pending | completed | cancelled | refunded.

#[global] Instance adjustment_type_eq_dec : EqDecision adjustment_type.
Proof. solve_decision. Defined.
#[global] Instance movement_type_eq_dec : EqDecision movement_type.
Proof. solve_decision. Defined.
#[global] Instance alert_status_eq_dec : EqDecision alert_status.
Proof. solve_decision. Defined.
#[global] Instance sale_status_eq_dec : EqDecision sale_status.
Proof. solve_decision. Defined.

(** The movement type written for an adjustment is the request's
    [adjustment_type] itself. *)
Definition movement_of_adjustment (t : adjustment_type) : movement_type :=
  match t with
  | adj_in => mt_in
  | adj_out => mt_out
  | adj_adjustment => mt_adjustment
  end.

(** (product_id, variant_id), with [None] for a NULL variant. *)
Abbreviation stock_key := (Z * option Z)%type.

Record product := {
  name : string;
  min_stock_level : Z;
  is_active : bool
}.

Record stock_row := {
  quantity : Z;
  reserved_quantity : Z;
  updated_by : option Z
}.

Record stock_movement := {
  sm_product_id : Z;
  sm_variant_id : option Z;
  sm_movement_type : movement_type;
  quantity_change : Z;
  quantity_before : Z;
  quantity_after : Z;
  reference_id : option Z;
  reference_type : option string;
  sm_notes : option string;
  created_by : Z
}.

Record low_stock_alert := {
  lsa_product_id : Z;
  lsa_variant_id : option Z;
  current_stock : Z;
  lsa_min_stock_level : Z;
  alert_status_of : alert_status;
  acknowledged_by : option Z
}.

Record sale := {
  sale_number : string;
  payment_method : string;
  status : sale_status;
  cashier_id : Z;
  customer_name : option string;
  notes : option string
}.

Record sale_item := {
  si_id : Z;
  si_sale_id : Z;
  si_product_id : Z;
  si_variant_id : option Z;
  si_quantity : Z
}.

(** The database: one field per table, and the two AUTOINCREMENT
    counters of sqlite_sequence that the handlers draw ids from. *)
Record DB := {
  products : gmap Z product;
  stock : gmap stock_key stock_row;
  stock_movements : list stock_movement;
  low_stock_alerts : list low_stock_alert;
  sales : gmap Z sale;
  sale_items : list sale_item;
  seq_sales : Z;
  seq_sale_items : Z
}.

Definition with_stock (db : DB) (s : gmap stock_key stock_row) : DB :=
  {| products := products db; stock := s;
     stock_movements := stock_movements db;
     low_stock_alerts := low_stock_alerts db;
     sales := sales db; sale_items := sale_items db;
     seq_sales := seq_sales db; seq_sale_items := seq_sale_items db |}.

Definition with_stock_movements (db : DB) (ms : list stock_movement) : DB :=
  {| products := products db; stock := stock db;
     stock_movements := ms;
     low_stock_alerts := low_stock_alerts db;
     sales := sales db; sale_items := sale_items db;
     seq_sales := seq_sales db; seq_sale_items := seq_sale_items db |}.

Definition with_low_stock_alerts (db : DB) (als : list low_stock_alert) : DB :=
  {| products := products db; stock := stock db;
     stock_movements := stock_movements db;
     low_stock_alerts := als;
     sales := sales db; sale_items := sale_items db;
     seq_sales := seq_sales db; seq_sale_items := seq_sale_items db |}.

Definition with_sales (db : DB) (ss : gmap Z sale) (seq : Z) : DB :=
  {| products := products db; stock := stock db;
     stock_movements := stock_movements db;
     low_stock_alerts := low_stock_alerts db;
     sales := ss; sale_items := sale_items db;
     seq_sales := seq; seq_sale_items := seq_sale_items db |}.

Definition with_sale_items (db : DB) (its : list sale_item) (seq : Z) : DB :=
  {| products := products db; stock := stock db;
     stock_movements := stock_movements db;
     low_stock_alerts := low_stock_alerts db;
     sales := sales db; sale_items := its;
     seq_sales := seq_sales db; seq_sale_items := seq |}.

(** ** JavaScript's falsy defaults *)

(** [variant_id || null]: an absent variant and the variant 0 are NULL. *)
Definition or_null (variant_id : option Z) : option Z :=
  match variant_id with
  | Some 0 => None
  | v => v
  end.

(** [notes || null]: an absent and an empty text are NULL. *)
Definition or_null_s (s : option string) : option string :=
  match s with
  | Some EmptyString => None
  | v => v
  end.

(** [s || d] on an optional text. *)
Definition or_default (s : option string) (d : string) : string :=
  match or_null_s s with
  | Some v => v
  | None => d
  end.

(** ** JavaScript numbers *)

(** The quantities of the handlers are JavaScript numbers, IEEE 754
    doubles.  Every integer up to 2^53 in absolute value is a double;
    beyond, the doubles are the multiples of a power of two (the unit
    in the last place of a 53-bit significand), and the result of [+]
    and [-] is the double nearest to the exact result, the one with the
    even significand in a tie.  [fl z] is that double for the integer
    [z]; the quantities stay far below 2^1024, where doubles end. *)
Definition fl (z : Z) : Z :=
  let a := Z.abs z in
  if a <=? 9007199254740992 (* 2^53 *) then z
  else
    let ulp := 2 ^ (Z.log2 a - 52) in
    let q := a / ulp in
    let r := a mod ulp in
    let m := if 2 * r <? ulp then q
             else if ulp <? 2 * r then q + 1
             else if Z.even q then q else q + 1 in
    Z.sgn z * (m * ulp).

(** [a + b] and [a - b] on numbers that hold integers. *)
Definition js_add (a b : Z) : Z := fl (a + b).
Definition js_sub (a b : Z) : Z := fl (a - b).

(** Number.MAX_SAFE_INTEGER and Number.isSafeInteger. *)
Definition MAX_SAFE_INTEGER : Z := 9007199254740991 (* 2^53 - 1 *).

Definition safe (n : Z) : Prop :=
  - MAX_SAFE_INTEGER ≤ n ≤ MAX_SAFE_INTEGER.

(** Quantities of at most 2^52 in absolute value: the sum and the
    difference of two of them are doubles. *)
Definition small (n : Z) : Prop :=
  - 4503599627370496 ≤ n ≤ 4503599627370496.

(** ** The SQL statements of the handlers *)

(** Modelled from the spec: the module config/database ([get], [run],
    [query], [beginTransaction], [commit], [rollback]) is not among the
    sources.  Following section 1 of the specification ("atomic
    multi-row commit is available") and its design notes ("guaranteed
    to roll back on any error exit path"), a transaction is a snapshot
    of the database taken at [beginTransaction]. *)
Definition beginTransaction (db : DB) : DB := db.

(** Modelled from the spec: [rollback] of config/database, not among
    the sources; it returns to the snapshot of [beginTransaction]. *)
Definition rollback (snapshot current : DB) : DB := snapshot.

(** Modelled from the spec: [commit] of config/database, not among the
    sources; it keeps the current state. *)
Definition commit (current : DB) : DB := current.

(** SELECT * FROM products WHERE id = ? AND is_active = 1 *)
Definition get_active_product (db : DB) (product_id : Z) : option product :=
  match products db !! product_id with
  | Some p => if is_active p then Some p else None
  | None => None
  end.

(** SELECT * FROM stock WHERE product_id = ? AND variant_id IS ? *)
Definition get_stock (db : DB) (product_id : Z) (variant_id : option Z)
  : option stock_row :=
  stock db !! (product_id, variant_id).

(** UPDATE stock SET quantity = ?, updated_by = ?
    WHERE product_id = ? AND variant_id IS ? *)
Definition update_stock (db : DB) (newQuantity user_id product_id : Z)
    (variant_id : option Z) : DB :=
  with_stock db
    (alter (λ r, {| quantity := newQuantity;
                    reserved_quantity := reserved_quantity r;
                    updated_by := Some user_id |})
           (product_id, variant_id) (stock db)).

(** INSERT INTO stock_movements (...) VALUES (...) *)
Definition insert_stock_movement (db : DB) (m : stock_movement) : DB :=
  with_stock_movements db (stock_movements db ++ [m]).

Definition alert_matches_active (product_id : Z) (variant_id : option Z)
    (a : low_stock_alert) : bool :=
  bool_decide (lsa_product_id a = product_id)
  && bool_decide (lsa_variant_id a = variant_id)
  && bool_decide (alert_status_of a = active).

(** SELECT id FROM low_stock_alerts
    WHERE product_id = ? AND variant_id IS ? AND alert_status = "active" *)
Definition existingAlert (db : DB) (product_id : Z) (variant_id : option Z)
  : bool :=
  existsb (alert_matches_active product_id variant_id) (low_stock_alerts db).

(** INSERT INTO low_stock_alerts
    (product_id, variant_id, current_stock, min_stock_level);
    alert_status defaults to 'active', acknowledged_by to NULL. *)
Definition insert_low_stock_alert (db : DB) (product_id : Z)
    (variant_id : option Z) (newQuantity min_level : Z) : DB :=
  with_low_stock_alerts db
    (low_stock_alerts db ++
       [{| lsa_product_id := product_id; lsa_variant_id := variant_id;
           current_stock := newQuantity; lsa_min_stock_level := min_level;
           alert_status_of := active; acknowledged_by := None |}]).

Definition set_resolved (a : low_stock_alert) : low_stock_alert :=
  {| lsa_product_id := lsa_product_id a; lsa_variant_id := lsa_variant_id a;
     current_stock := current_stock a;
     lsa_min_stock_level := lsa_min_stock_level a;
     alert_status_of := resolved; acknowledged_by := acknowledged_by a |}.

(** UPDATE low_stock_alerts SET alert_status = "resolved"
    WHERE product_id = ? AND variant_id IS ? AND alert_status = "active" *)
Definition resolve_active_alerts (db : DB) (product_id : Z)
    (variant_id : option Z) : DB :=
  with_low_stock_alerts db
    (map (λ a, if alert_matches_active product_id variant_id a
               then set_resolved a else a)
         (low_stock_alerts db)).

(** The alert block of [/adjust] and of [/bulk-adjust] ("Check for low
    stock and create alert if needed" with its else branch "Resolve
    existing low stock alert if quantity is now above minimum"). *)
Definition check_low_stock (db : DB) (product_id : Z) (variant_id : option Z)
    (newQuantity min_level : Z) : DB :=
  if newQuantity <=? min_level then
    if existingAlert db product_id variant_id then db
    else insert_low_stock_alert db product_id variant_id newQuantity min_level
  else resolve_active_alerts db product_id variant_id.

(** The alert block of the sale handler: the same test, without an
    else branch. *)
Definition check_low_stock_sale (db : DB) (product_id : Z)
    (variant_id : option Z) (newQuantity min_level : Z) : DB :=
  if newQuantity <=? min_level then
    if existingAlert db product_id variant_id then db
    else insert_low_stock_alert db product_id variant_id newQuantity min_level
  else db.

(** ** POST /adjust *)

Record adjust_body := {
  ab_product_id : Z;
  ab_adjustment_type : adjustment_type;
  ab_quantity : Z;
  ab_notes : option string;
  ab_variant_id : option Z
}.

(** The [adjustment] object of the success response. *)
Record adjustment_info := {
  adj_type : adjustment_type;
  adj_quantity_change : Z;
  adj_previous_quantity : Z;
  adj_new_quantity : Z
}.

Inductive adjust_response :=
| adjust_400                       (* 'Validation failed' *)
| adjust_404 (message : string)
| adjust_200 (adjustment : adjustment_info).

(** "Calculate new quantity based on adjustment type": the [switch]
    shared by the two adjustment handlers. *)
Definition newQuantity_for (t : adjustment_type) (currentQuantity quantity : Z)
  : Z :=
  match t with
  | adj_in => js_add currentQuantity quantity
  | adj_out => Z.max 0 (js_sub currentQuantity quantity)
  | adj_adjustment => quantity
  end.

(** The handler.  [body] is req.body as the handler reads it, after the
    sanitizer of the chain ([adjust_chain]). *)
Definition adjust (db : DB) (user_id : Z) (body : adjust_body)
  : adjust_response * DB :=
  let product_id := ab_product_id body in
  let adjustment_type := ab_adjustment_type body in
  let quantity_ := ab_quantity body in
  let variant_id := ab_variant_id body in
  (* body('quantity').isInt({ min: 1 }) *)
  if negb (1 <=? quantity_) then (adjust_400, db) else
  match get_active_product db product_id with
  | None => (adjust_404 "Product not found", db)
  | Some product =>
    match get_stock db product_id (or_null variant_id) with
    | None => (adjust_404 "Stock record not found", db)
    | Some currentStock =>
      let currentQuantity := quantity currentStock in
      let newQuantity := newQuantity_for adjustment_type currentQuantity quantity_ in
      let quantityChange := js_sub newQuantity currentQuantity in
      let tx := beginTransaction db in
      let tx := update_stock tx newQuantity user_id product_id (or_null variant_id) in
      let tx := insert_stock_movement tx
        {| sm_product_id := product_id;
           sm_variant_id := or_null variant_id;
           sm_movement_type := movement_of_adjustment adjustment_type;
           quantity_change := quantityChange;
           quantity_before := currentQuantity;
           quantity_after := newQuantity;
           reference_id := None;
           reference_type := None;
           sm_notes := or_null_s (ab_notes body);
           created_by := user_id |} in
      let tx := check_low_stock tx product_id (or_null variant_id)
                  newQuantity (min_stock_level product) in
      (adjust_200 {| adj_type := adjustment_type;
                     adj_quantity_change := quantityChange;
                     adj_previous_quantity := currentQuantity;
                     adj_new_quantity := newQuantity |},
       commit tx)
    end
  end.

(** ** POST /bulk-adjust *)

Record bulk_adjustment := {
  ba_product_id : Z;
  ba_adjustment_type : adjustment_type;
  ba_quantity : Z;
  ba_variant_id : option Z
}.

Record bulk_body := {
  adjustments : list bulk_adjustment;
  bb_notes : option string
}.

(** An entry of [results]. *)
Record bulk_result := {
  br_product_id : Z;
  br_product_name : string;
  br_adjustment_type : adjustment_type;
  br_quantity_change : Z;
  br_previous_quantity : Z;
  br_new_quantity : Z;
  br_success : bool
}.

(** An entry of [failed]. *)
Record bulk_failure := {
  bf_product_id : Z;
  bf_error : string
}.

(** The state carried around the [for] loop: the open transaction and
    the two arrays [results] and [failed]. *)
Record bulk_state := {
  bs_db : DB;
  results : list bulk_result;
  failed : list bulk_failure
}.

(** One iteration of [for (const adjustment of adjustments)].  The
    inner [catch] is reached only when a statement itself fails, which
    the statements modelled here do not. *)
Definition bulk_step (user_id : Z) (notes_ : option string) (st : bulk_state)
    (adjustment : bulk_adjustment) : bulk_state :=
  let product_id := ba_product_id adjustment in
  let adjustment_type := ba_adjustment_type adjustment in
  let quantity_ := ba_quantity adjustment in
  let variant_id := ba_variant_id adjustment in
  let db := bs_db st in
  match get_active_product db product_id with
  | None =>
    {| bs_db := db; results := results st;
       failed := failed st ++ [{| bf_product_id := product_id;
                                  bf_error := "Product not found" |}] |}
  | Some product =>
    match get_stock db product_id (or_null variant_id) with
    | None =>
      {| bs_db := db; results := results st;
         failed := failed st ++ [{| bf_product_id := product_id;
                                    bf_error := "Stock record not found" |}] |}
    | Some currentStock =>
      let currentQuantity := quantity currentStock in
      let newQuantity := newQuantity_for adjustment_type currentQuantity quantity_ in
      let quantityChange := js_sub newQuantity currentQuantity in
      let db := update_stock db newQuantity user_id product_id (or_null variant_id) in
      let db := insert_stock_movement db
        {| sm_product_id := product_id;
           sm_variant_id := or_null variant_id;
           sm_movement_type := movement_of_adjustment adjustment_type;
           quantity_change := quantityChange;
           quantity_before := currentQuantity;
           quantity_after := newQuantity;
           reference_id := None;
           reference_type := None;
           sm_notes := Some (or_default notes_ "Bulk adjustment");
           created_by := user_id |} in
      let db := check_low_stock db product_id (or_null variant_id)
                  newQuantity (min_stock_level product) in
      {| bs_db := db;
         results := results st ++
           [{| br_product_id := product_id;
               br_product_name := name product;
               br_adjustment_type := adjustment_type;
               br_quantity_change := quantityChange;
               br_previous_quantity := currentQuantity;
               br_new_quantity := newQuantity;
               br_success := true |}];
         failed := failed st |}
    end
  end.

Record bulk_summary := {
  total : Z;
  successful_count : Z;
  failed_count : Z
}.

Inductive bulk_response :=
| bulk_400                         (* 'Validation failed' *)
| bulk_200 (successful : list bulk_result) (failed_ : list bulk_failure)
           (summary : bulk_summary).

(** The handler.  [body] is req.body as the handler reads it, after the
    sanitizer of the chain ([bulk_chain]). *)
Definition bulkAdjust (db : DB) (user_id : Z) (body : bulk_body)
  : bulk_response * DB :=
  (* body('adjustments').isArray({ min: 1 }),
     body('adjustments.*.quantity').isInt({ min: 0 }) *)
  if negb (bool_decide (adjustments body ≠ [])
           && forallb (λ a, 0 <=? ba_quantity a) (adjustments body))
  then (bulk_400, db) else
  let tx := beginTransaction db in
  let st := fold_left (bulk_step user_id (bb_notes body)) (adjustments body)
              {| bs_db := tx; results := []; failed := [] |} in
  (bulk_200 (results st) (failed st)
     {| total := Z.of_nat (length (adjustments body));
        successful_count := Z.of_nat (length (results st));
        failed_count := Z.of_nat (length (failed st)) |},
   commit (bs_db st)).

(** ** POST / (create sale) *)

(** A line of [items]; [unit_price] is not modelled. *)
Record sale_line := {
  sl_product_id : Z;
  sl_variant_id : option Z;
  sl_quantity : Z
}.

Record sale_body := {
  items : list sale_line;
  sb_payment_method : option string;
  sb_customer_name : option string;
  sb_notes : option string
}.

(** An entry of [validatedItems]. *)
Record validated_item := {
  vi_product_id : Z;
  vi_variant_id : option Z;
  vi_quantity : Z;
  vi_product : product;
  vi_current_stock : Z
}.

(** The body of the first loop, "Validate all items and check stock
    availability": [inl] is the message of the thrown [Error]. *)
Definition validate_item (db : DB) (item : sale_line)
  : string + validated_item :=
  let product_id := sl_product_id item in
  let variant_id := sl_variant_id item in
  let quantity_ := sl_quantity item in
  match get_active_product db product_id with
  | None => inl ("Product with ID " +:+ pretty product_id +:+ " not found")
  | Some product =>
    let stock_ := get_stock db product_id (or_null variant_id) in
    let available := match stock_ with Some s => quantity s | None => 0 end in
    let insufficient :=
      inl ("Insufficient stock for " +:+ name product
           +:+ ". Available: " +:+ pretty available
           +:+ ", Required: " +:+ pretty quantity_) in
    match stock_ with
    | None => insufficient
    | Some s =>
      if quantity s <? quantity_ then insufficient
      else inr {| vi_product_id := product_id;
                  vi_variant_id := or_null variant_id;
                  vi_quantity := quantity_;
                  vi_product := product;
                  vi_current_stock := quantity s |}
    end
  end.

(** The first loop: every read is against the database as it is when
    the transaction begins, and the first failing line throws. *)
Fixpoint validate_items (db : DB) (its : list sale_line)
  : string + list validated_item :=
  match its with
  | [] => inr []
  | item :: rest =>
    match validate_item db item with
    | inl e => inl e
    | inr v =>
      match validate_items db rest with
      | inl e => inl e
      | inr vs => inr (v :: vs)
      end
    end
  end.

(** The largest rowid of [sales] and of [sale_items]. *)
Definition max_rowid {A} (m : gmap Z A) : Z :=
  map_fold (λ k _ acc, Z.max k acc) 0 m.

Definition max_item_id (its : list sale_item) : Z :=
  fold_right (λ si acc, Z.max (si_id si) acc) 0 its.

(** INTEGER PRIMARY KEY AUTOINCREMENT: a new row takes one more than
    the largest rowid the table has held, that is, than the larger of
    the table's entry in sqlite_sequence and of its largest rowid. *)
Definition new_sale_id (db : DB) : Z :=
  Z.max (seq_sales db) (max_rowid (sales db)) + 1.

Definition new_sale_item_id (db : DB) : Z :=
  Z.max (seq_sale_items db) (max_item_id (sale_items db)) + 1.

(** INSERT INTO sales (...); [sale_number] is UNIQUE, so a number
    already present makes the statement fail.  [status] defaults to
    'completed'. *)
Definition insert_sale (db : DB) (s : sale) : string + (Z * DB) :=
  if bool_decide (map_Exists (λ _ s', sale_number s' = sale_number s) (sales db))
  then inl "SQLITE_CONSTRAINT: UNIQUE constraint failed: sales.sale_number"
  else let id := new_sale_id db in
       inr (id, with_sales db (<[id := s]> (sales db)) id).

(** INSERT INTO sale_items (...) *)
Definition insert_sale_item (db : DB) (saleId : Z) (item : validated_item)
  : DB :=
  let id := new_sale_item_id db in
  with_sale_items db
    (sale_items db ++
       [{| si_id := id; si_sale_id := saleId;
           si_product_id := vi_product_id item;
           si_variant_id := vi_variant_id item;
           si_quantity := vi_quantity item |}])
    id.

(** The body of the second loop, "Create sale items and update stock". *)
Definition sale_step (user_id saleId : Z) (saleNumber : string) (db : DB)
    (item : validated_item) : DB :=
  let db := insert_sale_item db saleId item in
  let newQuantity := js_sub (vi_current_stock item) (vi_quantity item) in
  let db := update_stock db newQuantity user_id
              (vi_product_id item) (vi_variant_id item) in
  let db := insert_stock_movement db
    {| sm_product_id := vi_product_id item;
       sm_variant_id := vi_variant_id item;
       sm_movement_type := mt_sale;
       quantity_change := - vi_quantity item;
       quantity_before := vi_current_stock item;
       quantity_after := newQuantity;
       reference_id := Some saleId;
       reference_type := Some "sale";
       sm_notes := Some ("Sale " +:+ saleNumber);
       created_by := user_id |} in
  check_low_stock_sale db (vi_product_id item) (vi_variant_id item)
    newQuantity (min_stock_level (vi_product item)).

(** The inner [try] block, run inside the transaction: [inl] carries
    the thrown message together with the database as it is at the
    [throw], before any rollback. *)
Definition createSale_tx (db : DB) (user_id : Z) (saleNumber : string)
    (body : sale_body) : (string + Z) * DB :=
  match validate_items db (items body) with
  | inl e => (inl e, db)
  | inr validatedItems =>
    match insert_sale db
            {| sale_number := saleNumber;
               payment_method := default "cash" (sb_payment_method body);
               status := completed;
               cashier_id := user_id;
               customer_name := or_null_s (sb_customer_name body);
               notes := or_null_s (sb_notes body) |} with
    | inl e => (inl e, db)
    | inr (saleId, db) =>
      (inr saleId,
       fold_left (sale_step user_id saleId saleNumber) validatedItems db)
    end
  end.

Inductive sale_response :=
| sale_400_validation              (* 'Validation failed' *)
| sale_400 (message : string)      (* error.message *)
| sale_201 (saleId : Z) (saleItems : list sale_item).

(** The handler.  [body] is req.body as the handler reads it, after the
    sanitizers of the chain ([sale_chain]).  [saleNumber] is
    'SALE-' + Date.now() + '-' + a random suffix: it is an input of the
    model. *)
Definition createSale (db : DB) (user_id : Z) (saleNumber : string)
    (body : sale_body) : sale_response * DB :=
  (* body('items').isArray({ min: 1 }),
     body('items.*.quantity').isInt({ min: 1 }) *)
  if negb (bool_decide (items body ≠ [])
           && forallb (λ i, 1 <=? sl_quantity i) (items body))
  then (sale_400_validation, db) else
  let snapshot := beginTransaction db in
  match createSale_tx snapshot user_id saleNumber body with
  | (inl e, tx) => (sale_400 e, rollback snapshot tx)
  | (inr saleId, tx) =>
    let db := commit tx in
    (sale_201 saleId
       (List.filter (λ si, bool_decide (si_sale_id si = saleId)) (sale_items db)),
     db)
  end.

(** ** POST /:id/refund *)

(** The route declares [body('partial_items').optional().isArray()]
    and never asks for the [validationResult]: whatever JSON value the
    body holds under [partial_items] reaches the handler.  The handler
    reads of it whether it is falsy, its [length], its method [some]
    and, of each element, the property [sale_item_id]. *)

(** An element of the array, as [partialItem.sale_item_id === item.id]
    reads it. *)
Inductive partial_elem :=
| pe_null                      (* null: reading its property throws *)
| pe_id (sale_item_id : Z)     (* an object with this number as its
                                  sale_item_id *)
| pe_other.                    (* any other element: no sale_item_id, or
                                  one that is not an integer number *)

(** The value of [partial_items]. *)
Inductive partial_items_value :=
| pi_absent                    (* undefined, or a falsy value: null,
                                  false, 0, the empty string *)
| pi_array (elems : list partial_elem)
| pi_other (with_length : bool).
                               (* any other value; [with_length]: its
                                  [length] is above 0 (a non-empty
                                  string, an object with such a
                                  property), and it has no method
                                  [some] *)

#[global] Instance partial_elem_eq_dec : EqDecision partial_elem.
Proof. solve_decision. Defined.

(** [reason] is a JSON string, when present. *)
Record refund_body := {
  reason : option string;
  partial_items : partial_items_value
}.

(** SELECT * FROM sales WHERE id = ? AND status = "completed" *)
Definition get_completed_sale (db : DB) (id : Z) : option sale :=
  match sales db !! id with
  | Some s => if bool_decide (status s = completed) then Some s else None
  | None => None
  end.

(** SELECT * FROM sale_items WHERE sale_id = ? *)
Definition get_sale_items (db : DB) (id : Z) : list sale_item :=
  List.filter (λ si, bool_decide (si_sale_id si = id)) (sale_items db).

(** [partialItem.sale_item_id === item.id]; [None] is the TypeError
    thrown on reading a property of null. *)
Definition names_item (partialItem : partial_elem) (item : sale_item)
  : option bool :=
  match partialItem with
  | pe_null => None
  | pe_id sale_item_id => Some (bool_decide (sale_item_id = si_id item))
  | pe_other => Some false
  end.

(** [partial_items.some(partialItem => ...)]: the elements are read in
    order, up to the first that names the item. *)
Fixpoint some_names (elems : list partial_elem) (item : sale_item)
  : option bool :=
  match elems with
  | [] => Some false
  | partialItem :: rest =>
    match names_item partialItem item with
    | None => None
    | Some true => Some true
    | Some false => some_names rest item
    end
  end.

(** [saleItems.filter(item => partial_items.some(...))]. *)
Fixpoint filter_items (elems : list partial_elem) (saleItems : list sale_item)
  : option (list sale_item) :=
  match saleItems with
  | [] => Some []
  | item :: rest =>
    match some_names elems item with
    | None => None
    | Some keep =>
      match filter_items elems rest with
      | None => None
      | Some kept => Some (if keep then item :: kept else kept)
      end
    end
  end.

(** "If partial refund, filter items":
    [if (partial_items && partial_items.length > 0)].  [None] is a
    TypeError: from an element that is null, or from a value with a
    length and without the method [some], as soon as the filter calls
    its callback. *)
Definition itemsToRefund_of (partial_items_ : partial_items_value)
    (saleItems : list sale_item) : option (list sale_item) :=
  match partial_items_ with
  | pi_array (partialItem :: rest) =>
      filter_items (partialItem :: rest) saleItems
  | pi_other true =>
      match saleItems with
      | [] => Some []
      | _ :: _ => None
      end
  | _ => Some saleItems
  end.

Definition refund_note (sale_number_ : string) (reason_ : option string)
  : string :=
  "Refund for sale " +:+ sale_number_ +:+
  match or_null_s reason_ with
  | Some r => ": " +:+ r
  | None => EmptyString
  end.

(** The body of the loop "Restore stock for refunded items". *)
Definition refund_step (user_id id : Z) (sale_ : sale)
    (reason_ : option string) (db : DB) (item : sale_item) : DB :=
  match get_stock db (si_product_id item) (si_variant_id item) with
  | Some currentStock =>
    let newQuantity := js_add (quantity currentStock) (si_quantity item) in
    let db := update_stock db newQuantity user_id
                (si_product_id item) (si_variant_id item) in
    insert_stock_movement db
      {| sm_product_id := si_product_id item;
         sm_variant_id := si_variant_id item;
         sm_movement_type := mt_return;
         quantity_change := si_quantity item;
         quantity_before := quantity currentStock;
         quantity_after := newQuantity;
         reference_id := Some id;
         reference_type := Some "refund";
         sm_notes := Some (refund_note (sale_number sale_) reason_);
         created_by := user_id |}
  | None => db
  end.

Definition newline : string := String (Ascii.ascii_of_nat 10) EmptyString.

(** UPDATE sales SET status = ?, notes = ? WHERE id = ? *)
Definition update_sale (db : DB) (id : Z) (st : sale_status) (nt : string)
  : DB :=
  with_sales db
    (alter (λ s, {| sale_number := sale_number s;
                    payment_method := payment_method s;
                    status := st;
                    cashier_id := cashier_id s;
                    customer_name := customer_name s;
                    notes := Some nt |})
           id (sales db))
    (seq_sales db).

Inductive refund_type := full | partial.

Inductive refund_response :=
| refund_404                       (* 'Sale not found or already refunded' *)
| refund_500                       (* 'Server error' *)
| refund_200 (type : refund_type) (refunded_items total_items : Z).

(** The handler.  [body] is req.body as the handler reads it, after the
    sanitizer of the chain ([refund_chain]).  An error thrown inside
    the transaction is caught, the transaction rolled back and the
    error thrown again to the outer [catch], which answers 500. *)
Definition refund (db : DB) (user_id id : Z) (body : refund_body)
  : refund_response * DB :=
  match get_completed_sale db id with
  | None => (refund_404, db)
  | Some sale_ =>
    let saleItems := get_sale_items db id in
    let snapshot := beginTransaction db in
    match itemsToRefund_of (partial_items body) saleItems with
    | None => (refund_500, rollback snapshot snapshot)
    | Some itemsToRefund =>
      let tx := fold_left (refund_step user_id id sale_ (reason body))
                  itemsToRefund snapshot in
      let isFullRefund :=
        bool_decide (length itemsToRefund = length saleItems) in
      let tx := update_sale tx id
                  (if isFullRefund then refunded else completed)
                  (or_default (notes sale_) EmptyString +:+ newline
                   +:+ "Refund: "
                   +:+ or_default (reason body) "No reason provided") in
      (refund_200 (if isFullRefund then full else partial)
                  (Z.of_nat (length itemsToRefund))
                  (Z.of_nat (length saleItems)),
       commit tx)
    end
  end.

#[global] Instance sale_item_eq_dec : EqDecision sale_item.
Proof. solve_decision. Defined.

(** ** The sanitizers of the validation chains *)

(** Each route runs its validation chain before its handler, and the
    sanitizers of the chain rewrite req.body: [.optional().trim()] on
    [notes] (adjust, bulk-adjust), on [payment_method], [customer_name]
    and [notes] (create sale) and on [reason] (refund).  The handlers
    above take the body as they read it, that is, as these functions
    leave it.  [trim] is validator.js's, which removes the white space
    at both ends; the texts are JSON strings. *)
Definition adjust_chain (trim : string → string) (body : adjust_body)
  : adjust_body :=
  {| ab_product_id := ab_product_id body;
     ab_adjustment_type := ab_adjustment_type body;
     ab_quantity := ab_quantity body;
     ab_notes := trim <$> ab_notes body;
     ab_variant_id := ab_variant_id body |}.

Definition bulk_chain (trim : string → string) (body : bulk_body)
  : bulk_body :=
  {| adjustments := adjustments body;
     bb_notes := trim <$> bb_notes body |}.

Definition sale_chain (trim : string → string) (body : sale_body)
  : sale_body :=
  {| items := items body;
     sb_payment_method := trim <$> sb_payment_method body;
     sb_customer_name := trim <$> sb_customer_name body;
     sb_notes := trim <$> sb_notes body |}.


(** ** Sequences of requests *)

Inductive request :=
| req_adjust (user_id : Z) (body : adjust_body)
| req_bulkAdjust (user_id : Z) (body : bulk_body)
| req_createSale (user_id : Z) (saleNumber : string) (body : sale_body)
| req_refund (user_id id : Z) (body : refund_body).

(** The database a request leaves behind. *)
Definition handle (db : DB) (r : request) : DB :=
  match r with
  | req_adjust u b => (adjust db u b).2
  | req_bulkAdjust u b => (bulkAdjust db u b).2
  | req_createSale u n b => (createSale db u n b).2
  | req_refund u i b => (refund db u i b).2
  end.

Definition handle_all (db : DB) (rs : list request) : DB :=
  fold_left handle rs db.

(** ** The properties under study *)

Definition movement_key (m : stock_movement) : stock_key :=
  (sm_product_id m, sm_variant_id m).

Definition item_key (item : sale_item) : stock_key :=
  (si_product_id item, si_variant_id item).

(** The ledger of one stock line, in creation order. *)
Definition movements_of (k : stock_key) (ms : list stock_movement)
  : list stock_movement :=
  List.filter (λ m, bool_decide (movement_key m = k)) ms.

(** Replaying a ledger from quantity 0 with each entry's
    [quantity_change]. *)
Definition replay (ms : list stock_movement) : Z :=
  fold_left (λ q m, q + quantity_change m) ms 0.

(** Ledger replay: every stock line holds what its ledger replays to. *)
Definition ledger_replays (db : DB) : Prop :=
  ∀ k r, stock db !! k = Some r →
         replay (movements_of k (stock_movements db)) = quantity r.

Definition balanced (m : stock_movement) : Prop :=
  quantity_after m = quantity_before m + quantity_change m.

(** The stock line a sale line debits. *)
Definition line_key (item : sale_line) : stock_key :=
  (sl_product_id item, or_null (sl_variant_id item)).

(** No order of the request names a stock line twice. *)
Definition distinct_lines (r : request) : Prop :=
  match r with
  | req_createSale _ _ b => NoDup (map line_key (items b))
  | _ => True
  end.

(** Non-negativity of every stock line. *)
Definition stock_nonneg (db : DB) : Prop :=
  map_Forall (λ _ r, 0 ≤ quantity r) (stock db).

(** The requests of kind 'out' and 'sale'. *)
Definition out_or_sale (r : request) : Prop :=
  match r with
  | req_adjust _ b => ab_adjustment_type b = adj_out
  | req_bulkAdjust _ b =>
      Forall (λ a, ba_adjustment_type a = adj_out) (adjustments b)
  | req_createSale _ _ _ => True
  | req_refund _ _ _ => False
  end.

(** The active alerts of a key. *)
Definition active_alerts (db : DB) (product_id : Z) (variant_id : option Z)
  : list low_stock_alert :=
  List.filter (alert_matches_active product_id variant_id)
              (low_stock_alerts db).

(** Single active alert: at most one per (product, variant). *)
Definition single_active (db : DB) : Prop :=
  ∀ product_id variant_id,
    (length (active_alerts db product_id variant_id) ≤ 1)%nat.

(** A sale line passes the validation of the sale handler. *)
Definition line_valid (db : DB) (item : sale_line) : Prop :=
  (∃ p, products db !! sl_product_id item = Some p ∧ is_active p = true) ∧
  (∃ s, stock db !! (sl_product_id item, or_null (sl_variant_id item)) = Some s
        ∧ sl_quantity item ≤ quantity s).

Definition is_sale_failure (r : sale_response) : Prop :=
  match r with
  | sale_201 _ _ => False
  | _ => True
  end.

(** The stock line of a sale item exists. *)
Definition has_stock (db : DB) (item : sale_item) : bool :=
  bool_decide (is_Some (stock db !! item_key item)).

(** What a refund of sale [id] writes for [item]. *)
Definition returned_by (id : Z) (item : sale_item) (m : stock_movement)
  : Prop :=
  movement_key m = item_key item ∧
  sm_movement_type m = mt_return ∧
  quantity_change m = si_quantity item ∧
  quantity_after m = js_add (quantity_before m) (si_quantity item) ∧
  reference_id m = Some id ∧
  reference_type m = Some "refund".

(** The quantity the items of [its] on key [k] add up to. *)
Definition credited (k : stock_key) (its : list sale_item) : Z :=
  fold_right (λ item acc, (if bool_decide (item_key item = k)
                           then si_quantity item else 0) + acc) 0 its.

(** The request reads as naming [item]: an element of the array
    carries the item's id, and no null element comes before it. *)
Definition reads_name (elems : list partial_elem) (item : sale_item) : Prop :=
  ∃ pre post, elems = pre ++ pe_id (si_id item) :: post ∧ pe_null ∉ pre.

(** Reading the request for [item] stops at a null element: none of
    the elements before it carries the item's id. *)
Definition stops_at_null (elems : list partial_elem) (item : sale_item)
  : Prop :=
  ∃ pre post, elems = pre ++ pe_null :: post ∧ pe_id (si_id item) ∉ pre.

(** An item of a sale is targeted by a refund request: the request
    names no items at all (a refund of the whole sale), or it reads as
    naming this one. *)
Definition targeted (body : refund_body) (saleItems : list sale_item)
    (item : sale_item) : Prop :=
  item ∈ saleItems ∧
  match partial_items body with
  | pi_array (e :: es) => reads_name (e :: es) item
  | pi_other true => False
  | _ => True
  end.

(** The filter keeps [item]. *)
Definition picked (elems : list partial_elem) (item : sale_item) : bool :=
  match some_names elems item with
  | Some true => true
  | _ => false
  end.

(** The request cannot be read against the items of the sale: for some
    item the reading stops at a null element, or [partial_items] has a
    length and is no array. *)
Definition unreadable (body : refund_body) (saleItems : list sale_item)
  : Prop :=
  match partial_items body with
  | pi_array (e :: es) => ∃ item, item ∈ saleItems ∧ stops_at_null (e :: es) item
  | pi_other true => saleItems ≠ []
  | _ => False
  end.

(** A bulk item fails its two lookups (decided on the database the
    batch starts from). *)
Definition bulk_item_fails (db : DB) (a : bulk_adjustment) : bool :=
  match get_active_product db (ba_product_id a) with
  | None => true
  | Some _ =>
    match get_stock db (ba_product_id a) (or_null (ba_variant_id a)) with
    | None => true
    | Some _ => false
    end
  end.

Definition bulk_failure_of (db : DB) (a : bulk_adjustment) : bulk_failure :=
  {| bf_product_id := ba_product_id a;
     bf_error := match get_active_product db (ba_product_id a) with
                 | None => "Product not found"
                 | Some _ => "Stock record not found"
                 end |}.

(** A [results] entry and the ledger entry written with it. *)
Definition result_matches (r : bulk_result) (m : stock_movement) : Prop :=
  br_success r = true ∧
  sm_product_id m = br_product_id r ∧
  sm_movement_type m = movement_of_adjustment (br_adjustment_type r) ∧
  quantity_change m = br_quantity_change r ∧
  quantity_before m = br_previous_quantity r ∧
  quantity_after m = br_new_quantity r.

(** Everything but the stock lines and the ledger is as before. *)
Definition same_rest (db db' : DB) : Prop :=
  products db' = products db ∧
  low_stock_alerts db' = low_stock_alerts db ∧
  sales db' = sales db ∧ sale_items db' = sale_items db ∧
  seq_sales db' = seq_sales db ∧ seq_sale_items db' = seq_sale_items db.

(** The two lookups of a bulk item read the products and the presence
    of a stock line, and the loop changes neither. *)
Definition same_lookups (db db' : DB) : Prop :=
  products db' = products db ∧
  ∀ k, is_Some (stock db' !! k) ↔ is_Some (stock db !! k).

(** The validated items record the stock as it is when the loop
    starts, line by line. *)
Definition snapshot_current (db : DB) (v : validated_item) : Prop :=
  ∃ r, stock db !! (vi_product_id v, vi_variant_id v) = Some r
       ∧ quantity r = vi_current_stock v.

(** ** Scenarios *)

(** The sanitizer [trim] on the texts of the scenarios, whose only
    white space is the space character. *)
Fixpoint drop_spaces (s : string) : string :=
  match s with
  | String a s' => if Ascii.eqb a Ascii.Space then drop_spaces s' else s
  | EmptyString => EmptyString
  end.

Definition trim_spaces (s : string) : string :=
  String.rev (drop_spaces (String.rev (drop_spaces s))).

Definition row (q : Z) : stock_row :=
  {| quantity := q; reserved_quantity := 0; updated_by := None |}.

Definition product_A : product :=
  {| name := "A"; min_stock_level := 10; is_active := true |}.

(** One product, one stock line of [q] units explained by one 'in'
    ledger entry, no alerts and no sales. *)
Definition shop (q : Z) : DB :=
  {| products := {[ 1 := product_A ]};
     stock := {[ (1, None) := row q ]};
     stock_movements :=
       [{| sm_product_id := 1; sm_variant_id := None;
           sm_movement_type := mt_in;
           quantity_change := q; quantity_before := 0; quantity_after := q;
           reference_id := None; reference_type := None;
           sm_notes := None; created_by := 7 |}];
     low_stock_alerts := [];
     sales := ∅; sale_items := [];
     seq_sales := 0; seq_sale_items := 0 |}.

Definition line_A (q : Z) : sale_line :=
  {| sl_product_id := 1; sl_variant_id := None; sl_quantity := q |}.

Definition order (ls : list sale_line) : sale_body :=
  {| items := ls; sb_payment_method := None;
     sb_customer_name := None; sb_notes := None |}.

Definition out_A (d : Z) : adjust_body :=
  {| ab_product_id := 1; ab_adjustment_type := adj_out; ab_quantity := d;
     ab_notes := None; ab_variant_id := None |}.

Definition bulk_out_A (d : Z) : bulk_body :=
  {| adjustments := [{| ba_product_id := 1; ba_adjustment_type := adj_out;
                        ba_quantity := d; ba_variant_id := None |}];
     bb_notes := None |}.

(** A day at the till: an 'out' adjustment, a sale, a bulk 'out' that
    asks for more than is left. *)
Definition day : list request :=
  [req_adjust 7 (out_A 2);
   req_createSale 7 "SALE-1" (order [line_A 2]);
   req_bulkAdjust 7 (bulk_out_A 9)].

Definition product_B : product :=
  {| name := "B"; min_stock_level := 0; is_active := true |}.

Definition line_B (q : Z) : sale_line :=
  {| sl_product_id := 2; sl_variant_id := None; sl_quantity := q |}.

(** Two products with ten units each, and the same shop after sale 1
    of two units of A (sale item 1) and three of B (sale item 2). *)
Definition shop2 : DB :=
  {| products := {[ 1 := product_A; 2 := product_B ]};
     stock := {[ (1, None) := row 10; (2, None) := row 10 ]};
     stock_movements := [];
     low_stock_alerts := [];
     sales := ∅; sale_items := [];
     seq_sales := 0; seq_sale_items := 0 |}.

Definition sold : DB :=
  (createSale shop2 7 "SALE-1" (order [line_A 2; line_B 3])).2.

Definition sale_1 : sale :=
  {| sale_number := "SALE-1"; payment_method := "cash"; status := completed;
     cashier_id := 7; customer_name := None; notes := None |}.

Definition refund_all : refund_body :=
  {| reason := None; partial_items := pi_absent |}.

Definition refund_item_1 : refund_body :=
  {| reason := Some "damaged box";
     partial_items := pi_array [pe_id 1] |}.

(** A refund request whose [partial_items] is [[null]]. *)
Definition refund_null : refund_body :=
  {| reason := None; partial_items := pi_array [pe_null] |}.


(** A batch of a valid item on A and an item on the unknown product
    9999. *)
Definition batch : bulk_body :=
  {| adjustments :=
       [{| ba_product_id := 1; ba_adjustment_type := adj_in;
           ba_quantity := 4; ba_variant_id := None |};
        {| ba_product_id := 9999; ba_adjustment_type := adj_in;
           ba_quantity := 1; ba_variant_id := None |}];
     bb_notes := None |}.

Definition in_A (d : Z) : adjust_body :=
  {| ab_product_id := 1; ab_adjustment_type := adj_in; ab_quantity := d;
     ab_notes := None; ab_variant_id := None |}.

(** The alert raised for A when its stock fell to 5 (minimum 10). *)
Definition alert_A : low_stock_alert :=
  {| lsa_product_id := 1; lsa_variant_id := None; current_stock := 5;
     lsa_min_stock_level := 10; alert_status_of := active;
     acknowledged_by := None |}.

(** ** PUT /alerts/:id/acknowledge (routes/dashboard.js) *)

(** Rows of low_stock_alerts get their id from AUTOINCREMENT and no
    statement of the server deletes one: the id of a row is its rank,
    from 1, in insertion order. *)
Definition alert_index (id : Z) : option nat :=
  if 1 <=? id then Some (Z.to_nat (id - 1)) else None.

(** SELECT * FROM low_stock_alerts WHERE id = ? AND alert_status = "active" *)
Definition get_active_alert (db : DB) (id : Z) : option low_stock_alert :=
  match alert_index id with
  | Some i =>
    match low_stock_alerts db !! i with
    | Some a => if bool_decide (alert_status_of a = active)
                then Some a else None
    | None => None
    end
  | None => None
  end.

Definition set_acknowledged (user_id : Z) (a : low_stock_alert)
  : low_stock_alert :=
  {| lsa_product_id := lsa_product_id a; lsa_variant_id := lsa_variant_id a;
     current_stock := current_stock a;
     lsa_min_stock_level := lsa_min_stock_level a;
     alert_status_of := acknowledged; acknowledged_by := Some user_id |}.

(** UPDATE low_stock_alerts SET alert_status = "acknowledged",
    acknowledged_by = ?, acknowledged_at = CURRENT_TIMESTAMP WHERE id = ? *)
Definition acknowledge_alert (db : DB) (user_id id : Z) : DB :=
  match alert_index id with
  | Some i =>
    with_low_stock_alerts db
      (alter (set_acknowledged user_id) i (low_stock_alerts db))
  | None => db
  end.

Inductive acknowledge_response :=
| acknowledge_404      (* 'Alert not found or already acknowledged' *)
| acknowledge_200.     (* 'Alert acknowledged successfully' *)

Definition acknowledge (db : DB) (user_id id : Z)
  : acknowledge_response * DB :=
  match get_active_alert db id with
  | None => (acknowledge_404, db)
  | Some _ => (acknowledge_200, acknowledge_alert db user_id id)
  end.

(** The requests of [request] and the acknowledgement of an alert. *)
Inductive action :=
| act_request (r : request)
| act_acknowledge (user_id id : Z).

Definition perform (db : DB) (a : action) : DB :=
  match a with
  | act_request r => handle db r
  | act_acknowledge u i => (acknowledge db u i).2
  end.

Definition perform_all (db : DB) (acts : list action) : DB :=
  fold_left perform acts db.

(** ** Authentication and roles (middleware/auth.js) *)

(** CHECK (role IN ('admin', 'cashier')). *)
Inductive role := role_admin | role_cashier.

#[global] Instance role_eq_dec : EqDecision role.
Proof. solve_decision. Defined.

(** A row of [users]; [password_hash] is left out. *)
Record user := {
  username : string;
  email : string;
  user_role : role;
  first_name : string;
  last_name : string;
  user_is_active : bool
}.

(** [req.user] as [requireRole] rebuilds it from the database. *)
Record req_user := {
  ru_id : Z;
  ru_username : string;
  ru_email : string;
  ru_role : role;
  ru_first_name : string;
  ru_last_name : string
}.

Inductive auth_error :=
| no_token                  (* 401 'Access denied. No token provided.' *)
| invalid_token             (* 400 'Invalid token.' *)
| user_not_found            (* 401 'User not found or inactive.' *)
| insufficient_permissions. (* 403 'Access denied. Insufficient permissions.' *)

(** [s.replace(pat, '')] with a string pattern: the first occurrence
    of [pat] in [s], if any, is removed. *)
Fixpoint remove_first (pat s : string) : string :=
  if String.prefix pat s
  then String.substring (String.length pat)
         (String.length s - String.length pat) s
  else match s with
       | EmptyString => EmptyString
       | String c s' => String c (remove_first pat s')
       end.

(** [verifyToken].  [jwt_verify token] stands for
    [jwt.verify(token, process.env.JWT_SECRET)] of the jsonwebtoken
    package: the [id] of the decoded payload, or [None] when it
    throws. *)
Definition verifyToken (jwt_verify : string → option Z)
    (authorization : option string) : auth_error + Z :=
  match authorization with
  | None => inl no_token
  | Some header =>
    match remove_first "Bearer " header with
    | EmptyString => inl no_token
    | token =>
      match jwt_verify token with
      | Some id => inr id
      | None => inl invalid_token
      end
    end
  end.

(** [requireRole(roles)]: SELECT * FROM users WHERE id = ? AND
    is_active = 1, then [roles.includes(user.role)]. *)
Definition requireRole (roles : list role) (users : gmap Z user) (id : Z)
  : auth_error + req_user :=
  match users !! id with
  | Some u =>
    if user_is_active u then
      if bool_decide (user_role u ∈ roles) then
        inr {| ru_id := id; ru_username := username u;
               ru_email := email u; ru_role := user_role u;
               ru_first_name := first_name u;
               ru_last_name := last_name u |}
      else inl insufficient_permissions
    else inl user_not_found
  | None => inl user_not_found
  end.

Definition requireAdmin := requireRole [role_admin].
Definition requireStaff := requireRole [role_admin; role_cashier].

(** A route [verifyToken, requireRole(roles), ..., handler] over a
    state [S]: the handler runs with [req.user.id] once both
    middlewares have called [next()]. *)
Definition guarded {S A : Type} (jwt_verify : string → option Z)
    (roles : list role) (users : gmap Z user)
    (authorization : option string) (handler : Z → A * S) (st : S)
  : (auth_error + A) * S :=
  match verifyToken jwt_verify authorization with
  | inl e => (inl e, st)
  | inr id =>
    match requireRole roles users id with
    | inl e => (inl e, st)
    | inr u => let '(r, st') := handler (ru_id u) in (inr r, st')
    end
  end.

(** The routes of the four handlers and of the acknowledgement, each
    with the role its route declares. *)
Inductive route :=
| POST_adjust (body : adjust_body)
| POST_bulk_adjust (body : bulk_body)
| POST_sale (saleNumber : string) (body : sale_body)
| POST_refund (id : Z) (body : refund_body)
| PUT_acknowledge (id : Z).

Definition route_roles (r : route) : list role :=
  match r with
  | POST_adjust _ | POST_bulk_adjust _ | POST_refund _ _ => [role_admin]
  | POST_sale _ _ | PUT_acknowledge _ => [role_admin; role_cashier]
  end.

Definition route_action (r : route) (user_id : Z) : action :=
  match r with
  | POST_adjust b => act_request (req_adjust user_id b)
  | POST_bulk_adjust b => act_request (req_bulkAdjust user_id b)
  | POST_sale n b => act_request (req_createSale user_id n b)
  | POST_refund i b => act_request (req_refund user_id i b)
  | PUT_acknowledge i => act_acknowledge user_id i
  end.

(** The database a routed request leaves behind, and whether it was
    let through. *)
Definition serve (jwt_verify : string → option Z) (users : gmap Z user)
    (authorization : option string) (r : route) (db : DB)
  : (auth_error + unit) * DB :=
  guarded jwt_verify (route_roles r) users authorization
    (λ user_id, (tt, perform db (route_action r user_id))) db.

(** ** DELETE /users/:id (routes/users.js) *)






(** ** Categories (routes/categories.js) *)

Record category := {
  cat_name : string;
  cat_description : option string;
  parent_id : option Z;
  cat_is_active : bool
}.

(** The [categories] table and its AUTOINCREMENT counter. *)
Record category_table := {
  categories : gmap Z category;
  seq_categories : Z
}.

(** The body of a create or update request: [name] and [description]
    as sent, [parent_id] a JSON number when present. *)
Record category_body := {
  cb_name : string;
  cb_description : option string;
  cb_parent_id : option Z
}.

Inductive category_response :=
| cat_400_validation               (* 'Validation failed' *)
| cat_400 (message : string)
| cat_404                          (* 'Category not found' *)
| cat_201 (id : Z)
| cat_200.

(** SELECT ... FROM categories WHERE id = ? AND is_active = 1 *)
Definition get_active_category (t : category_table) (id : Z)
  : option category :=
  match categories t !! id with
  | Some c => if cat_is_active c then Some c else None
  | None => None
  end.

(** [x] is an active category whose parent is [p]. *)
Definition is_child (t : category_table) (p x : Z) : Prop :=
  ∃ c, categories t !! x = Some c ∧ cat_is_active c = true
       ∧ parent_id c = Some p.

(** SELECT id FROM categories WHERE parent_id = ? AND is_active = 1,
    in the order of the table scan. *)
Definition children_of (t : category_table) (p : Z) : list Z :=
  (map_to_list
     (filter (λ kv, cat_is_active kv.2 = true ∧ parent_id kv.2 = Some p)
             (categories t))).*1.

(** The [while] loop of [getDescendants]: [queue.shift()], the query
    for the children, and the two [push] of each child.  [fuel] bounds
    the number of iterations; [None] is a loop that has not ended
    within it. *)
Fixpoint getDescendants_loop (fuel : nat) (t : category_table)
    (queue descendants : list Z) : option (list Z) :=
  match queue with
  | [] => Some descendants
  | currentId :: queue' =>
    match fuel with
    | O => None
    | S fuel' =>
      let children := children_of t currentId in
      getDescendants_loop fuel' t (queue' ++ children)
        (descendants ++ children)
    end
  end.

Definition getDescendants (fuel : nat) (t : category_table) (categoryId : Z)
  : option (list Z) :=
  getDescendants_loop fuel t [categoryId] [].

(** The duplicate check, "Check for duplicate name at same level":
    SELECT id FROM categories WHERE name = ? AND parent_id = ? (or
    parent_id IS NULL) AND is_active = 1, with AND id != ? in the
    update handler. *)
Definition existing_sibling (t : category_table) (name_ : string)
    (parent : option Z) (except : option Z) : bool :=
  bool_decide
    (map_Exists (λ k c, cat_is_active c = true ∧ cat_name c = name_ ∧
                        parent_id c = parent ∧ except ≠ Some k)
                (categories t)).

(** POST /.  [trim] is the sanitizer of express-validator. *)
Definition create_category (trim : string → string) (t : category_table)
    (body : category_body) : category_response * category_table :=
  (* body('name').notEmpty().trim() *)
  if bool_decide (cb_name body = EmptyString) then (cat_400_validation, t)
  else
  let name_ := trim (cb_name body) in
  let description := or_null_s (trim <$> cb_description body) in
  let parent := or_null (cb_parent_id body) in
  if match parent with
     | Some p => bool_decide (get_active_category t p = None)
     | None => false
     end
  then (cat_400 "Parent category not found", t)
  else if existing_sibling t name_ parent None
  then (cat_400 "Category with this name already exists at this level", t)
  else
    let id := seq_categories t + 1 in
    (cat_201 id,
     {| categories :=
          <[id := {| cat_name := name_; cat_description := description;
                     parent_id := parent; cat_is_active := true |}]>
            (categories t);
        seq_categories := id |}).

(** PUT /:id.  The result is [None] when [getDescendants] does not end
    within [fuel]. *)
Definition update_category (fuel : nat) (trim : string → string)
    (t : category_table) (id : Z) (body : category_body)
  : option (category_response * category_table) :=
  if bool_decide (cb_name body = EmptyString)
  then Some (cat_400_validation, t)
  else
  let name_ := trim (cb_name body) in
  let description := or_null_s (trim <$> cb_description body) in
  let parent := or_null (cb_parent_id body) in
  match get_active_category t id with
  | None => Some (cat_404, t)
  | Some category_ =>
    let finish :=
      if existing_sibling t name_ parent (Some id)
      then Some (cat_400 "Category with this name already exists at this level",
                 t)
      else
        Some (cat_200,
              {| categories :=
                   alter (λ c, {| cat_name := name_;
                                  cat_description := description;
                                  parent_id := parent;
                                  cat_is_active := cat_is_active c |})
                         id (categories t);
                 seq_categories := seq_categories t |}) in
    match parent with
    | None => finish
    | Some p =>
      if bool_decide (p = id)
      then Some (cat_400 "Category cannot be its own parent", t)
      else if bool_decide (get_active_category t p = None)
      then Some (cat_400 "Parent category not found", t)
      else
        match getDescendants fuel t id with
        | None => None
        | Some descendants =>
          if bool_decide (p ∈ descendants)
          then Some (cat_400 "Cannot create circular reference", t)
          else finish
        end
    end
  end.

(** SELECT COUNT( * ) FROM products WHERE category_id = ? AND
    is_active = 1.  The column [category_id] of [products], which the
    record [product] leaves out, is given as [category_of]. *)
Definition productCount_of (db : DB) (category_of : gmap Z Z) (id : Z) : nat :=
  size (filter (λ kv, is_active kv.2 = true ∧ category_of !! kv.1 = Some id)
               (products db)).

(** DELETE /:id *)
Definition delete_category (db : DB) (category_of : gmap Z Z)
    (t : category_table) (id : Z) : category_response * category_table :=
  match get_active_category t id with
  | None => (cat_404, t)
  | Some _ =>
    let productCount := productCount_of db category_of id in
    if bool_decide (0 < productCount)%nat
    then (cat_400 ("Cannot delete category. It has " +:+ pretty productCount
                   +:+ " products assigned to it."), t)
    else
      let subcategoryCount := length (children_of t id) in
      if bool_decide (0 < subcategoryCount)%nat
      then (cat_400 ("Cannot delete category. It has "
                     +:+ pretty subcategoryCount +:+ " subcategories."), t)
      else
        (cat_200,
         {| categories :=
              alter (λ c, {| cat_name := cat_name c;
                             cat_description := cat_description c;
                             parent_id := parent_id c;
                             cat_is_active := false |})
                    id (categories t);
            seq_categories := seq_categories t |})
  end.

(** The category requests. *)
Inductive category_request :=
| cat_create (body : category_body)
| cat_update (id : Z) (body : category_body)
| cat_delete (id : Z).

(** [x] is below [a]: an active child of [a], or below one. *)
Inductive descends (t : category_table) (a : Z) : Z → Prop :=
| descends_child x : is_child t a x → descends t a x
| descends_step c x : is_child t a c → descends t c x → descends t a x.

(** The parent pointers of the table, of active and inactive rows. *)
Definition parent_of (t : category_table) (x : Z) : option Z :=
  match categories t !! x with
  | Some c => parent_id c
  | None => None
  end.

(** The categories form a forest: a rank decreases along every parent
    pointer (so no category is its own ancestor), every parent pointer
    leads to a row, the parent of an active category is active, ids
    are within the sequence, and active categories under the same
    parent have different names. *)
Record forest (t : category_table) : Prop := {
  forest_rank : ∃ rank : Z → nat,
      ∀ x p, parent_of t x = Some p → (rank p < rank x)%nat;
  forest_parent : ∀ x p, parent_of t x = Some p →
      is_Some (categories t !! p);
  forest_active : ∀ x c p, categories t !! x = Some c →
      cat_is_active c = true → parent_id c = Some p →
      is_Some (get_active_category t p);
  forest_ids : ∀ x, is_Some (categories t !! x) → x ≤ seq_categories t;
  forest_names : ∀ x y c d, categories t !! x = Some c →
      categories t !! y = Some d →
      cat_is_active c = true → cat_is_active d = true →
      cat_name c = cat_name d → parent_id c = parent_id d → x = y
}.

(** [a] is an ancestor of [x]: the parent of [x], or an ancestor of
    that parent. *)
Inductive ancestor (t : category_table) (x : Z) : Z → Prop :=
| ancestor_parent p : parent_of t x = Some p → ancestor t x p
| ancestor_step p a : parent_of t x = Some p → ancestor t p a →
                      ancestor t x a.

(** Following at most [n] parent pointers from [x] reaches [a]. *)
Fixpoint climbs (t : category_table) (a : Z) (n : nat) (x : Z) : bool :=
  bool_decide (x = a) ||
  match n with
  | O => false
  | S n' => match parent_of t x with
            | Some p => climbs t a n' p
            | None => false
            end
  end.

(** The three writing handlers of the categories router. *)
Definition category_handle (fuel : nat) (trim : string → string) (db : DB)
    (category_of : gmap Z Z) (t : category_table) (req : category_request)
  : option (category_response * category_table) :=
  match req with
  | cat_create body => Some (create_category trim t body)
  | cat_update id body => update_category fuel trim t id body
  | cat_delete id => Some (delete_category db category_of t id)
  end.

(** A catalogue of two categories, Hammers under Tools, and a body
    that asks to put Tools under Hammers. *)
Definition tools : category :=
  {| cat_name := "Tools"; cat_description := None; parent_id := None;
     cat_is_active := true |}.

Definition hammers : category :=
  {| cat_name := "Hammers"; cat_description := None; parent_id := Some 1;
     cat_is_active := true |}.

Definition catalogue : category_table :=
  {| categories := {[ 1 := tools; 2 := hammers ]}; seq_categories := 2 |}.

Definition tools_under_hammers : category_body :=
  {| cb_name := "Tools"; cb_description := None; cb_parent_id := Some 2 |}.

(** ** DELETE /:id of the products router (routes/products.js) *)

Inductive product_response :=
| product_404                      (* 'Product not found' *)
| product_400 (message : string)
| product_200.

Definition with_products (db : DB) (ps : gmap Z product) : DB :=
  {| products := ps; stock := stock db;
     stock_movements := stock_movements db;
     low_stock_alerts := low_stock_alerts db;
     sales := sales db; sale_items := sale_items db;
     seq_sales := seq_sales db; seq_sale_items := seq_sale_items db |}.

(** SELECT COUNT( * ) as count FROM sale_items WHERE product_id = ? *)
Definition saleItems_count (db : DB) (id : Z) : nat :=
  length (List.filter (λ si, bool_decide (si_product_id si = id))
                      (sale_items db)).

(** "Soft delete product".  The table [product_variants], whose rows
    of the product are deactivated in the same transaction, and the
    image file are left out: no handler of this development reads
    them. *)
Definition delete_product (db : DB) (id : Z) : product_response * DB :=
  match get_active_product db id with
  | None => (product_404, db)
  | Some product =>
    (* "Check if product has been sold (has sale items)" *)
    if bool_decide (0 < saleItems_count db id)%nat
    then (product_400 "Cannot delete product that has been sold. You can only deactivate it.",
          db)
    else
      let tx := beginTransaction db in
      let tx :=
        with_products tx
          (alter (λ p, {| name := name p;
                          min_stock_level := min_stock_level p;
                          is_active := false |})
                 id (products tx)) in
      (product_200, commit tx)
  end.

(** The requests of [action] and the deletion of a product. *)
Inductive operation :=
| op_action (a : action)
| op_delete_product (id : Z).

Definition run (db : DB) (op : operation) : DB :=
  match op with
  | op_action a => perform db a
  | op_delete_product id => (delete_product db id).2
  end.

Definition run_all (db : DB) (ops : list operation) : DB :=
  fold_left run ops db.

(** ** Relations between a database and a later one *)

(** The stock lines are the same lines: none added, none removed, and
    each with its [reserved_quantity]. *)
Definition same_lines (db db' : DB) : Prop :=
  ∀ k, match stock db !! k, stock db' !! k with
       | Some r, Some r' => reserved_quantity r' = reserved_quantity r
       | None, None => True
       | _, _ => False
       end.

(** What may happen to an alert row: nothing, or, for an active alert,
    its automatic resolution or its acknowledgement by a user. *)
Definition alert_step (a a' : low_stock_alert) : Prop :=
  a' = a ∨
  (alert_status_of a = active ∧
   (a' = set_resolved a ∨ ∃ u, a' = set_acknowledged u a)).

(** The alert table grows at its end, and the rows it had are where
    they were, each one as it was or resolved. *)
Definition alerts_evolve (l l' : list low_stock_alert) : Prop :=
  ∃ l1 new, l' = l1 ++ new ∧ Forall2 alert_step l l1.

(** The single adjustment that a bulk item stands for. *)
Definition adjust_body_of (nt : option string) (a : bulk_adjustment)
  : adjust_body :=
  {| ab_product_id := ba_product_id a;
     ab_adjustment_type := ba_adjustment_type a;
     ab_quantity := ba_quantity a;
     ab_notes := nt;
     ab_variant_id := ba_variant_id a |}.

Definition is_adjust_200 (r : adjust_response) : Prop :=
  match r with adjust_200 _ => True | _ => False end.

(** The request body of a single adjustment on (product, variant). *)
Definition adjustment_of (t : adjustment_type) (product_id : Z)
    (variant_id : option Z) (d : Z) (nt : option string) : adjust_body :=
  {| ab_product_id := product_id; ab_adjustment_type := t;
     ab_quantity := d; ab_notes := nt; ab_variant_id := variant_id |}.

(** ** What a sale writes *)

(** The quantity the lines of an order on key [k] add up to. *)
Definition ordered (k : stock_key) (ls : list sale_line) : Z :=
  fold_right (λ l acc, (if bool_decide (line_key l = k)
                        then sl_quantity l else 0) + acc) 0 ls.

(** The sale row of an accepted order. *)
Definition sale_of (user_id : Z) (saleNumber : string) (body : sale_body)
  : sale :=
  {| sale_number := saleNumber;
     payment_method := default "cash" (sb_payment_method body);
     status := completed;
     cashier_id := user_id;
     customer_name := or_null_s (sb_customer_name body);
     notes := or_null_s (sb_notes body) |}.

(** [si] is the sale item of sale [sid] for the order line [l]. *)
Definition item_of_line (sid : Z) (l : sale_line) (si : sale_item) : Prop :=
  si_sale_id si = sid ∧
  si_product_id si = sl_product_id l ∧
  si_variant_id si = or_null (sl_variant_id l) ∧
  si_quantity si = sl_quantity l.

(** [m] is the ledger entry of sale [sid], by [user_id], for the order
    line [l]. *)
Definition sold_by (user_id sid : Z) (l : sale_line) (m : stock_movement)
  : Prop :=
  movement_key m = line_key l ∧
  sm_movement_type m = mt_sale ∧
  quantity_change m = - sl_quantity l ∧
  quantity_after m = js_sub (quantity_before m) (sl_quantity l) ∧
  reference_id m = Some sid ∧
  reference_type m = Some "sale" ∧
  created_by m = user_id.

(** The validated item of an order line. *)
Definition validated_from (db : DB) (l : sale_line) (v : validated_item)
  : Prop :=
  vi_product_id v = sl_product_id l ∧
  vi_variant_id v = or_null (sl_variant_id l) ∧
  vi_quantity v = sl_quantity l ∧
  snapshot_current db v.

(** Stock of A is low (10, at the minimum level) and alert 1 is active. *)
Definition low_shop : DB := (adjust (shop 12) 7 (out_A 2)).2.

(** Everything [db'] has beyond [db] in the ledger, and every stock
    row that differs, is attributed to the user [id]. *)
Definition written_by (id : Z) (db db' : DB) : Prop :=
  (∃ new, stock_movements db' = stock_movements db ++ new ∧
          Forall (λ m, created_by m = id) new) ∧
  (∀ k, stock db' !! k = stock db !! k ∨
        updated_by <$> stock db' !! k = Some (Some id)).

(** Users of the scenarios: an admin (7), a cashier (8), and tokens
    "t7" and "t8" that verify to them. *)
Definition staff : gmap Z user :=
  {[ 7 := {| username := "ann"; email := "ann@shop"; user_role := role_admin;
             first_name := "Ann"; last_name := "A"; user_is_active := true |};
     8 := {| username := "bob"; email := "bob@shop"; user_role := role_cashier;
             first_name := "Bob"; last_name := "B"; user_is_active := true |} ]}.

Definition tokens (t : string) : option Z :=
  if bool_decide (t = "t7") then Some 7
  else if bool_decide (t = "t8") then Some 8 else None.

(** The string has no space character. *)
Fixpoint spaceless (s : string) : bool :=
  match s with
  | EmptyString => true
  | String c s' => negb (bool_decide (c = Ascii.Space)) && spaceless s'
  end.

(** Goals of the form [field (statement db ...) = field db]. *)
Ltac frame :=
  intros;
  unfold check_low_stock, check_low_stock_sale, insert_low_stock_alert,
    resolve_active_alerts, insert_stock_movement, update_stock,
    insert_sale_item, update_sale;
  repeat case_match; reflexivity.

(** * Properties *)

(** ** Sums and differences of JavaScript numbers *)

Lemma fl_exact z :
  - 9007199254740992 ≤ z ≤ 9007199254740992 → fl z = z.
Proof.
  intros Hz. unfold fl.
  replace (Z.abs z <=? 9007199254740992) with true; [done|].
  symmetry. apply Z.leb_le. lia.
Qed.

Lemma fl_nonneg z : 0 ≤ z → 0 ≤ fl z.
Proof.
  intros Hz. unfold fl. cbv zeta.
  destruct (Z.abs z <=? 9007199254740992); [done|].
  set (ulp := 2 ^ (Z.log2 (Z.abs z) - 52)).
  assert (0 ≤ ulp) by (subst ulp; apply Z.pow_nonneg; lia).
  assert (0 ≤ Z.abs z / ulp) by (apply Z_div_nonneg_nonneg; lia).
  assert (0 ≤ Z.sgn z) by lia.
  repeat case_match; nia.
Qed.

Lemma fl_nonpos z : z ≤ 0 → fl z ≤ 0.
Proof.
  intros Hz. unfold fl. cbv zeta.
  destruct (Z.abs z <=? 9007199254740992); [done|].
  set (ulp := 2 ^ (Z.log2 (Z.abs z) - 52)).
  assert (0 ≤ ulp) by (subst ulp; apply Z.pow_nonneg; lia).
  assert (0 ≤ Z.abs z / ulp) by (apply Z_div_nonneg_nonneg; lia).
  assert (Z.sgn z ≤ 0) by lia.
  repeat case_match; nia.
Qed.

Lemma js_add_exact a b :
  - 9007199254740992 ≤ a + b ≤ 9007199254740992 → js_add a b = a + b.
Proof. apply fl_exact. Qed.

Lemma js_sub_exact a b :
  - 9007199254740992 ≤ a - b ≤ 9007199254740992 → js_sub a b = a - b.
Proof. apply fl_exact. Qed.

Lemma js_sub_diag a : js_sub a a = 0.
Proof. unfold js_sub. by rewrite Z.sub_diag. Qed.

(** A withdrawal from a quantity of at most 2^53 is exact: the clamp
    hides the one difference that may be rounded, a negative one. *)
Lemma newQuantity_for_out q d :
  0 ≤ newQuantity_for adj_out q d ∧
  (q ≤ 9007199254740992 → 0 ≤ d →
   newQuantity_for adj_out q d = Z.max 0 (q - d)).
Proof.
  cbn [newQuantity_for]. split; [lia|]. intros Hq Hd.
  destruct (decide (0 ≤ q - d)) as [Hpos|Hneg].
  - rewrite js_sub_exact by lia. done.
  - pose proof (fl_nonpos (q - d) ltac:(lia)). unfold js_sub. lia.
Qed.

(** The applied delta of a withdrawal is exact too. *)
Lemma applied_delta_out q d :
  - 9007199254740992 ≤ q ≤ 9007199254740992 → 0 ≤ d →
  js_sub (newQuantity_for adj_out q d) q = Z.max 0 (q - d) - q.
Proof.
  intros Hq Hd. destruct (newQuantity_for_out q d) as [_ H].
  rewrite H by lia. apply js_sub_exact. lia.
Qed.

(** On small quantities the new quantity and the applied delta of
    every adjustment type are exact. *)
Lemma applied_delta_small t q d :
  small q → small d →
  js_sub (newQuantity_for t q d) q = newQuantity_for t q d - q.
Proof.
  unfold small. intros Hq Hd. destruct t; cbn [newQuantity_for].
  - rewrite js_add_exact by lia. apply js_sub_exact. lia.
  - rewrite (js_sub_exact q d) by lia. apply js_sub_exact. lia.
  - apply js_sub_exact. lia.
Qed.

(** ** What the statements leave untouched *)

Lemma stock_check_low_stock db p v q m :
  stock (check_low_stock db p v q m) = stock db.
Proof. frame. Qed.

Lemma movements_check_low_stock db p v q m :
  stock_movements (check_low_stock db p v q m) = stock_movements db.
Proof. frame. Qed.

Lemma stock_check_low_stock_sale db p v q m :
  stock (check_low_stock_sale db p v q m) = stock db.
Proof. frame. Qed.

Lemma movements_check_low_stock_sale db p v q m :
  stock_movements (check_low_stock_sale db p v q m) = stock_movements db.
Proof. frame. Qed.

Lemma lookup_update_stock db q u p v k :
  stock (update_stock db q u p v) !! k =
  if decide ((p, v) = k)
  then (λ r, {| quantity := q; reserved_quantity := reserved_quantity r;
                updated_by := Some u |}) <$> stock db !! (p, v)
  else stock db !! k.
Proof. apply lookup_alter. Qed.

Lemma lookup_update_stock_eq db q u p v r :
  stock db !! (p, v) = Some r →
  quantity <$> stock (update_stock db q u p v) !! (p, v) = Some q.
Proof.
  intros Hr. rewrite lookup_update_stock, decide_True by done.
  by rewrite Hr.
Qed.

(** ** Adjustments of type 'out' *)

(** C3 (as stated) fails beyond 2^53.  The stock line holds
    9007199254740996 units (2^53 + 4, a double) and one unit is
    withdrawn: the difference 2^53 + 3 is no double and is rounded back
    to 2^53 + 4, so the line keeps its quantity and the ledger entry
    records a change of 0, where [max 0 (q - d)] is 2^53 + 3. *)
Lemma C3_out_beyond_the_safe_integers :
  let q := 9007199254740996 in
  (adjust (shop q) 7 (out_A 1)).1
  = adjust_200 {| adj_type := adj_out; adj_quantity_change := 0;
                  adj_previous_quantity := q; adj_new_quantity := q |} ∧
  quantity <$> get_stock (adjust (shop q) 7 (out_A 1)).2 1 None = Some q ∧
  Z.max 0 (q - 1) = 9007199254740995 ∧
  ¬ safe q.
Proof.
  cbv zeta. split; [vm_compute; reflexivity|].
  split; [vm_compute; reflexivity|]. split; [reflexivity|].
  unfold safe, MAX_SAFE_INTEGER. lia.
Qed.

(** C3 (amended).  An adjustment of type 'out' of [d] units on a stock
    line whose quantity [q] is a safe integer, through the single
    handler (which asks for [d] of at least 1) and as one item of a
    bulk request (which asks for [d] of at least 0) alike, leaves the
    line at [max 0 (q - d)], which is not negative, and writes one
    ledger entry whose [quantity_change] is the applied delta
    [max 0 (q - d) - q], from [q] to the new quantity.  The
    quantities are JSON numbers. *)
Theorem C3_out_clamps_and_records_applied_delta
    (db : DB) (user_id product_id d : Z) (variant_id : option Z)
    (nt : option string) (p : product) (s : stock_row) :
  get_active_product db product_id = Some p →
  get_stock db product_id (or_null variant_id) = Some s →
  safe (quantity s) →
  let q := quantity s in
  let after := Z.max 0 (q - d) in
  let written (db' : DB) :=
    0 ≤ after ∧
    quantity <$> get_stock db' product_id (or_null variant_id) = Some after ∧
    ∃ m, stock_movements db' = stock_movements db ++ [m] ∧
         movement_key m = (product_id, or_null variant_id) ∧
         sm_movement_type m = mt_out ∧
         quantity_before m = q ∧ quantity_after m = after ∧
         quantity_change m = after - q in
  (1 ≤ d →
   ∃ db', adjust db user_id
            {| ab_product_id := product_id; ab_adjustment_type := adj_out;
               ab_quantity := d; ab_notes := nt;
               ab_variant_id := variant_id |}
          = (adjust_200 {| adj_type := adj_out;
                           adj_quantity_change := after - q;
                           adj_previous_quantity := q;
                           adj_new_quantity := after |}, db')
          ∧ written db') ∧
  (0 ≤ d →
   ∀ rs fs,
     let st := bulk_step user_id nt
                 {| bs_db := db; results := rs; failed := fs |}
                 {| ba_product_id := product_id;
                    ba_adjustment_type := adj_out;
                    ba_quantity := d; ba_variant_id := variant_id |} in
     written (bs_db st) ∧ failed st = fs ∧
     ∃ r, results st = rs ++ [r] ∧ br_new_quantity r = after ∧
          br_quantity_change r = after - q).
Proof.
  intros Hp Hs Hsafe q after written.
  unfold safe, MAX_SAFE_INTEGER in Hsafe.
  assert (Hn : 0 ≤ d → newQuantity_for adj_out (quantity s) d = after).
  { intros Hd. destruct (newQuantity_for_out (quantity s) d) as [_ H].
    apply H; lia. }
  assert (Hc : 0 ≤ d →
               js_sub (newQuantity_for adj_out (quantity s) d) (quantity s)
               = after - q).
  { intros Hd. apply applied_delta_out; lia. }
  assert (Hw : ∀ db0 m,
    stock db0 = stock (update_stock db after user_id
                         product_id (or_null variant_id)) →
    stock_movements db0 = stock_movements db ++ [m] →
    movement_key m = (product_id, or_null variant_id) →
    sm_movement_type m = mt_out → quantity_before m = q →
    quantity_after m = after → quantity_change m = after - q →
    written db0).
  { intros db0 m Hst Hms ? ? ? ? ?. unfold written. split; [lia|]. split.
    - unfold get_stock. rewrite Hst.
      by apply lookup_update_stock_eq with (r := s).
    - exists m. by rewrite Hms. }
  split.
  - intros Hd. unfold adjust.
    cbn [ab_product_id ab_adjustment_type ab_quantity ab_notes ab_variant_id].
    replace (1 <=? d) with true by (symmetry; by apply Z.leb_le).
    cbn [negb]. rewrite Hp, Hs. cbv zeta.
    rewrite Hc, Hn by lia. eexists. split; [reflexivity|].
    eapply Hw; unfold commit, beginTransaction;
      rewrite ?stock_check_low_stock, ?movements_check_low_stock;
      reflexivity.
  - intros Hd rs fs st. subst st. unfold bulk_step.
    cbn [ba_product_id ba_adjustment_type ba_quantity ba_variant_id bs_db
         results failed].
    rewrite Hp, Hs. cbv zeta. rewrite Hc, Hn by lia.
    cbn [bs_db results failed]. split; [|split].
    + eapply Hw; rewrite ?stock_check_low_stock, ?movements_check_low_stock;
        reflexivity.
    + reflexivity.
    + eexists. split; [reflexivity|]. by split.
Qed.

Lemma C3_witness :
  ∃ db', adjust (shop 3) 7
           {| ab_product_id := 1; ab_adjustment_type := adj_out;
              ab_quantity := 10; ab_notes := None; ab_variant_id := None |}
         = (adjust_200 {| adj_type := adj_out; adj_quantity_change := -3;
                          adj_previous_quantity := 3;
                          adj_new_quantity := 0 |}, db')
         ∧ quantity <$> get_stock db' 1 None = Some 0.
Proof.
  destruct (C3_out_clamps_and_records_applied_delta
              (shop 3) 7 1 10 None None product_A (row 3))
    as [H _]; [reflexivity | reflexivity | |].
  { unfold safe, MAX_SAFE_INTEGER. simpl. lia. }
  destruct H as (db' & He & _ & Hq & _); [lia|].
  exists db'. split; [exact He | exact Hq].
Defined.

(** ** Non-negativity *)

Lemma stock_nonneg_ext db db' :
  stock db' = stock db → stock_nonneg db → stock_nonneg db'.
Proof. unfold stock_nonneg. by intros ->. Qed.

Lemma stock_nonneg_update_stock db q u p v :
  0 ≤ q → stock_nonneg db → stock_nonneg (update_stock db q u p v).
Proof.
  intros Hq Hdb k r. rewrite lookup_update_stock.
  case_decide.
  - destruct (stock db !! (p, v)); simpl; [|done]. by intros [= <-].
  - apply Hdb.
Qed.

Lemma stock_nonneg_adjust_out db u b :
  ab_adjustment_type b = adj_out →
  stock_nonneg db → stock_nonneg (adjust db u b).2.
Proof.
  intros Ht Hdb. unfold adjust. rewrite Ht.
  repeat case_match; simpl; try done.
  unfold commit, beginTransaction.
  eapply stock_nonneg_ext; [apply stock_check_low_stock|].
  eapply stock_nonneg_ext; [reflexivity|].
  apply stock_nonneg_update_stock; [lia | done].
Qed.

Lemma stock_nonneg_bulk_step u nt st a :
  ba_adjustment_type a = adj_out →
  stock_nonneg (bs_db st) → stock_nonneg (bs_db (bulk_step u nt st a)).
Proof.
  intros Ht Hdb. unfold bulk_step. rewrite Ht.
  repeat case_match; simpl; try done.
  eapply stock_nonneg_ext; [apply stock_check_low_stock|].
  eapply stock_nonneg_ext; [reflexivity|].
  apply stock_nonneg_update_stock; [lia | done].
Qed.

Lemma stock_nonneg_bulk_loop u nt adjs st :
  Forall (λ a, ba_adjustment_type a = adj_out) adjs →
  stock_nonneg (bs_db st) →
  stock_nonneg (bs_db (fold_left (bulk_step u nt) adjs st)).
Proof.
  intros Hall. revert st.
  induction Hall as [|a adjs Ha _ IH]; intros st Hst; simpl; [done|].
  apply IH. by apply stock_nonneg_bulk_step.
Qed.

Lemma validate_item_covered db item v :
  validate_item db item = inr v → vi_quantity v ≤ vi_current_stock v.
Proof.
  unfold validate_item. intros H.
  repeat case_match; simplify_eq; simpl.
  match goal with E : (_ <? _) = false |- _ => apply Z.ltb_ge in E end.
  done.
Qed.

Lemma validate_items_covered db its vs :
  validate_items db its = inr vs →
  Forall (λ v, vi_quantity v ≤ vi_current_stock v) vs.
Proof.
  revert vs. induction its as [|item its IH]; intros vs H; simpl in H.
  - by simplify_eq.
  - destruct (validate_item db item) as [|v] eqn:Hv; [done|].
    destruct (validate_items db its) as [|vs']; [done|]. simplify_eq.
    constructor; [by eapply validate_item_covered | by apply IH].
Qed.

Lemma stock_nonneg_sale_step u sid n db v :
  vi_quantity v ≤ vi_current_stock v →
  stock_nonneg db → stock_nonneg (sale_step u sid n db v).
Proof.
  intros Hv Hdb. unfold sale_step.
  eapply stock_nonneg_ext; [apply stock_check_low_stock_sale|].
  eapply stock_nonneg_ext; [reflexivity|].
  apply stock_nonneg_update_stock; [apply fl_nonneg; lia|].
  by eapply stock_nonneg_ext; [|exact Hdb].
Qed.

Lemma stock_nonneg_sale_loop u sid n vs db :
  Forall (λ v, vi_quantity v ≤ vi_current_stock v) vs →
  stock_nonneg db → stock_nonneg (fold_left (sale_step u sid n) vs db).
Proof.
  intros Hall. revert db.
  induction Hall as [|v vs Hv _ IH]; intros db Hdb; simpl; [done|].
  apply IH. by apply stock_nonneg_sale_step.
Qed.

Lemma insert_sale_frame db s id db' :
  insert_sale db s = inr (id, db') →
  stock db' = stock db ∧ stock_movements db' = stock_movements db ∧
  low_stock_alerts db' = low_stock_alerts db ∧
  sale_items db' = sale_items db ∧ products db' = products db.
Proof. unfold insert_sale. case_match; [done|]. by intros [= <- <-]. Qed.

Lemma stock_nonneg_createSale db u n b :
  stock_nonneg db → stock_nonneg (createSale db u n b).2.
Proof.
  intros Hdb. unfold createSale. case_match; [done|].
  unfold createSale_tx, beginTransaction, rollback, commit.
  destruct (validate_items db (items b)) as [e|vs] eqn:Hvs; [done|].
  destruct (insert_sale db _) as [e|[sid db1]] eqn:Hins; [done|]. simpl.
  apply stock_nonneg_sale_loop; [by eapply validate_items_covered|].
  apply insert_sale_frame in Hins as (Hst & _).
  by eapply stock_nonneg_ext.
Qed.

Lemma stock_nonneg_handle db r :
  out_or_sale r → stock_nonneg db → stock_nonneg (handle db r).
Proof.
  destruct r as [u b|u b|u n b|u i b]; simpl; intros Hr Hdb.
  - by apply stock_nonneg_adjust_out.
  - unfold bulkAdjust. case_match; [done|]. simpl.
    unfold commit, beginTransaction.
    by apply stock_nonneg_bulk_loop.
  - by apply stock_nonneg_createSale.
  - done.
Qed.

(** C4.  From a database whose stock lines are all non-negative, after
    each request of any sequence of 'out' adjustments (single or bulk)
    and sales, whatever the quantities requested, every stock line is
    still non-negative. *)
Theorem C4_out_and_sale_keep_stock_nonneg (db : DB) (rs : list request) :
  stock_nonneg db →
  Forall out_or_sale rs →
  ∀ n : nat, stock_nonneg (handle_all db (take n rs)).
Proof.
  intros Hdb Hall. revert db Hdb.
  induction Hall as [|r rs Hr _ IH]; intros db Hdb n.
  - by rewrite take_nil.
  - destruct n as [|n]; [done|]. simpl.
    apply IH. by apply stock_nonneg_handle.
Qed.

Lemma shop_nonneg q : 0 ≤ q → stock_nonneg (shop q).
Proof. intros Hq. by apply map_Forall_singleton. Qed.

Lemma C4_witness :
  stock_nonneg (handle_all (shop 5) (take 3 day)) ∧
  quantity <$> stock (handle_all (shop 5) day) !! (1, None) = Some 0.
Proof.
  split; [|reflexivity].
  apply (C4_out_and_sale_keep_stock_nonneg (shop 5) day).
  - apply shop_nonneg. lia.
  - unfold day. repeat constructor.
Defined.

(** ** Alerts *)

Lemma single_active_ext db db' :
  low_stock_alerts db' = low_stock_alerts db →
  single_active db → single_active db'.
Proof. unfold single_active, active_alerts. by intros ->. Qed.

Lemma existsb_false_filter {A} (f : A → bool) (l : list A) :
  existsb f l = false → List.filter f l = [].
Proof.
  induction l as [|a l IH]; simpl; [done|].
  intros [Ha Hl]%orb_false_iff. rewrite Ha. by apply IH.
Qed.

Lemma alert_matches_active_inj p v p' v' a :
  alert_matches_active p v a = true →
  alert_matches_active p' v' a = true → p' = p ∧ v' = v.
Proof.
  unfold alert_matches_active.
  intros [[?%bool_decide_eq_true ?%bool_decide_eq_true]%andb_true_iff _]%andb_true_iff
         [[?%bool_decide_eq_true ?%bool_decide_eq_true]%andb_true_iff _]%andb_true_iff.
  split; congruence.
Qed.

Lemma alert_matches_active_resolved p v a :
  alert_matches_active p v (set_resolved a) = false.
Proof. unfold alert_matches_active. simpl. by rewrite andb_false_r. Qed.

Lemma single_active_insert db p v q m :
  existingAlert db p v = false →
  single_active db → single_active (insert_low_stock_alert db p v q m).
Proof.
  intros Hnone Hdb p' v'. unfold active_alerts. simpl.
  rewrite List.filter_app, length_app.
  destruct (decide (p' = p ∧ v' = v)) as [[-> ->]|Hne].
  - unfold existingAlert in Hnone. rewrite (existsb_false_filter _ _ Hnone).
    simpl. case_match; simpl; lia.
  - simpl. destruct (alert_matches_active p' v' _) eqn:Hm.
    + exfalso. apply Hne. unfold alert_matches_active in Hm. simpl in Hm.
      apply andb_true_iff in Hm as [Hm _].
      apply andb_true_iff in Hm as [?%bool_decide_eq_true ?%bool_decide_eq_true].
      done.
    + simpl. specialize (Hdb p' v'). unfold active_alerts in Hdb. lia.
Qed.

Lemma resolve_shrinks p v p' v' (l : list low_stock_alert) :
  (length (List.filter (alert_matches_active p' v')
             (map (λ a, if alert_matches_active p v a
                        then set_resolved a else a) l))
   ≤ length (List.filter (alert_matches_active p' v') l))%nat.
Proof.
  induction l as [|a l IH]; simpl; [done|].
  destruct (alert_matches_active p v a) eqn:Hk.
  - rewrite alert_matches_active_resolved. case_match; simpl; lia.
  - case_match; simpl; lia.
Qed.

Lemma single_active_resolve db p v :
  single_active db → single_active (resolve_active_alerts db p v).
Proof.
  intros Hdb p' v'. unfold active_alerts. simpl.
  etrans; [apply resolve_shrinks|]. apply Hdb.
Qed.

Lemma single_active_check_low_stock db p v q m :
  single_active db → single_active (check_low_stock db p v q m).
Proof.
  intros Hdb. unfold check_low_stock.
  destruct (q <=? m); [|by apply single_active_resolve].
  destruct (existingAlert db p v) eqn:He; [done|].
  by apply single_active_insert.
Qed.

Lemma single_active_check_low_stock_sale db p v q m :
  single_active db → single_active (check_low_stock_sale db p v q m).
Proof.
  intros Hdb. unfold check_low_stock_sale.
  destruct (q <=? m); [|done].
  destruct (existingAlert db p v) eqn:He; [done|].
  by apply single_active_insert.
Qed.

Lemma existingAlert_insert db p v q m :
  existingAlert (insert_low_stock_alert db p v q m) p v = true.
Proof.
  unfold existingAlert. simpl. rewrite existsb_app. simpl.
  unfold alert_matches_active at 2. simpl.
  rewrite !bool_decide_eq_true_2 by done. simpl. by rewrite orb_true_r.
Qed.

Lemma resolve_active_alerts_idem db p v :
  resolve_active_alerts (resolve_active_alerts db p v) p v
  = resolve_active_alerts db p v.
Proof.
  unfold resolve_active_alerts, with_low_stock_alerts. simpl. f_equal.
  rewrite map_map. apply map_ext. intros a.
  destruct (alert_matches_active p v a) eqn:Hk.
  - by rewrite alert_matches_active_resolved.
  - by rewrite Hk.
Qed.

Lemma check_low_stock_idem db p v q m :
  check_low_stock (check_low_stock db p v q m) p v q m
  = check_low_stock db p v q m.
Proof.
  unfold check_low_stock. destruct (q <=? m).
  - destruct (existingAlert db p v) eqn:He.
    + by rewrite He.
    + by rewrite existingAlert_insert.
  - apply resolve_active_alerts_idem.
Qed.

Lemma check_low_stock_sale_idem db p v q m :
  check_low_stock_sale (check_low_stock_sale db p v q m) p v q m
  = check_low_stock_sale db p v q m.
Proof.
  unfold check_low_stock_sale. destruct (q <=? m); [|done].
  destruct (existingAlert db p v) eqn:He.
  - by rewrite He.
  - by rewrite existingAlert_insert.
Qed.

Lemma single_active_adjust db u b :
  single_active db → single_active (adjust db u b).2.
Proof.
  intros Hdb. unfold adjust. repeat case_match; simpl; try done.
  unfold commit, beginTransaction.
  apply single_active_check_low_stock.
  by eapply single_active_ext; [|exact Hdb].
Qed.

Lemma single_active_bulk_step u nt st a :
  single_active (bs_db st) → single_active (bs_db (bulk_step u nt st a)).
Proof.
  intros Hdb. unfold bulk_step. repeat case_match; simpl; try done.
  apply single_active_check_low_stock.
  by eapply single_active_ext; [|exact Hdb].
Qed.

Lemma single_active_sale_step u sid n db v :
  single_active db → single_active (sale_step u sid n db v).
Proof.
  intros Hdb. unfold sale_step.
  apply single_active_check_low_stock_sale.
  by eapply single_active_ext; [|exact Hdb].
Qed.

Lemma alerts_refund_step u id s rsn db item :
  low_stock_alerts (refund_step u id s rsn db item) = low_stock_alerts db.
Proof. unfold refund_step. by case_match. Qed.

Lemma fold_left_preserves {A S} (f : S → A → S) (P : S → Prop) (l : list A) :
  (∀ s a, P s → P (f s a)) → ∀ s, P s → P (fold_left f l s).
Proof. intros Hf. induction l as [|a l IH]; simpl; auto. Qed.

Lemma single_active_handle db r :
  single_active db → single_active (handle db r).
Proof.
  destruct r as [u b|u b|u n b|u i b]; simpl; intros Hdb.
  - by apply single_active_adjust.
  - unfold bulkAdjust. case_match; [done|]. simpl.
    unfold commit, beginTransaction.
    apply (fold_left_preserves _ (λ st, single_active (bs_db st))); [|done].
    intros. by apply single_active_bulk_step.
  - unfold createSale. case_match; [done|].
    unfold createSale_tx, beginTransaction, rollback, commit.
    destruct (validate_items db (items b)) as [e|vs]; [done|].
    destruct (insert_sale db _) as [e|[sid db1]] eqn:Hins; [done|]. simpl.
    apply fold_left_preserves.
    + intros. by apply single_active_sale_step.
    + apply insert_sale_frame in Hins as (_ & _ & Hal & _).
      by eapply single_active_ext.
  - unfold refund. case_match; [|done]. cbv zeta. case_match; [|done].
    simpl. unfold commit, beginTransaction.
    eapply single_active_ext; [|exact Hdb]. simpl.
    apply (fold_left_preserves _
             (λ d, low_stock_alerts d = low_stock_alerts db)); [|done].
    intros d a <-. apply alerts_refund_step.
Qed.

(** C6.  From a database with at most one active alert per (product,
    variant), every prefix of every sequence of requests leaves at most
    one active alert per key; the alert evaluation of the adjustment
    handlers and that of the sale handler add no row when an active
    alert exists for the key, keep the invariant, and evaluated a
    second time with the same quantity and minimum level change
    nothing. *)
Theorem C6_single_active_alert (db : DB) (rs : list request) :
  single_active db →
  (∀ n : nat, single_active (handle_all db (take n rs))) ∧
  (∀ p v q m,
     let db1 := check_low_stock db p v q m in
     let db2 := check_low_stock_sale db p v q m in
     (existingAlert db p v = true →
      length (low_stock_alerts db1) = length (low_stock_alerts db) ∧
      low_stock_alerts db2 = low_stock_alerts db) ∧
     single_active db1 ∧ single_active db2 ∧
     check_low_stock db1 p v q m = db1 ∧
     check_low_stock_sale db2 p v q m = db2).
Proof.
  intros Hdb. split.
  - revert db Hdb. induction rs as [|r rs IH]; intros db Hdb n.
    + by rewrite take_nil.
    + destruct n as [|n]; [done|]. simpl.
      apply IH. by apply single_active_handle.
  - intros p v q m db1 db2. split; [|split; [|split; [|split]]].
    + intros He. subst db1 db2.
      unfold check_low_stock, check_low_stock_sale. rewrite He.
      destruct (q <=? m); simpl; [done|]. by rewrite length_map.
    + by apply single_active_check_low_stock.
    + by apply single_active_check_low_stock_sale.
    + apply check_low_stock_idem.
    + apply check_low_stock_sale_idem.
Qed.

Lemma shop_single_active q : single_active (shop q).
Proof. intros p v. simpl. lia. Qed.

Lemma C6_witness :
  single_active (handle_all (shop 12) (take 3 day)) ∧
  length (low_stock_alerts (handle_all (shop 12) day)) = 1%nat.
Proof.
  split; [|reflexivity].
  apply (C6_single_active_alert (shop 12) day (shop_single_active 12)).
Defined.

(** ** Validation of a sale *)

Lemma validate_item_valid db item :
  line_valid db item ↔ ∃ v, validate_item db item = inr v.
Proof.
  unfold line_valid, validate_item, get_active_product, get_stock. split.
  - intros [(p & Hp & Hact) (s & Hs & Hq)]. rewrite Hp, Hact, Hs.
    replace (quantity s <? sl_quantity item) with false
      by (symmetry; apply Z.ltb_ge; lia).
    by eexists.
  - intros [v Hv].
    destruct (products db !! sl_product_id item) as [p|] eqn:Hp; [|done].
    destruct (is_active p) eqn:Hact; [|done].
    destruct (stock db !! _) as [s|] eqn:Hs; [|done].
    destruct (quantity s <? sl_quantity item) eqn:Hq; [done|].
    apply Z.ltb_ge in Hq. split; eauto.
Qed.

Lemma validate_items_valid db its :
  Forall (line_valid db) its ↔ ∃ vs, validate_items db its = inr vs.
Proof.
  induction its as [|item its IH]; simpl.
  - split; [by eexists | constructor].
  - rewrite Forall_cons, IH, validate_item_valid. split.
    + intros [[v ->] [vs ->]]. by eexists.
    + intros [vs H].
      destruct (validate_item db item) as [|v]; [done|].
      destruct (validate_items db its) as [|vs']; [done|]. eauto.
Qed.

(** An order that passes the request validation, whose lines are all
    valid and whose sale number is fresh, is accepted. *)
Lemma createSale_accepts db u n body :
  items body ≠ [] →
  Forall (λ i, 1 ≤ sl_quantity i) (items body) →
  Forall (line_valid db) (items body) →
  ¬ map_Exists (λ _ s', sale_number s' = n) (sales db) →
  ∃ its db', createSale db u n body = (sale_201 (new_sale_id db) its, db').
Proof.
  intros Hne Hq Hvalid Hfresh. unfold createSale.
  rewrite bool_decide_eq_true_2 by done.
  replace (forallb _ _) with true.
  2:{ symmetry. apply forallb_forall. intros i Hi.
      apply Z.leb_le. rewrite Forall_forall in Hq. apply Hq.
      by apply list_elem_of_In. }
  cbn [andb negb]. unfold createSale_tx, beginTransaction, commit.
  apply validate_items_valid in Hvalid as [vs ->].
  unfold insert_sale. cbn [sale_number].
  rewrite bool_decide_eq_false_2 by done. by do 2 eexists.
Qed.

(** C2.  When some line of the order does not pass validation (no
    active product, no stock line, or a stock line holding less than
    the line asks for), the transaction body stops with an error before
    any statement has written, and the handler answers with a failure
    and leaves the database exactly as it found it: no sale, no sale
    item, no ledger entry, no stock line changed. *)
Theorem C2_createSale_validates_before_writing
    (db : DB) (user_id : Z) (saleNumber : string) (body : sale_body) :
  ¬ Forall (line_valid db) (items body) →
  (∃ e, createSale_tx db user_id saleNumber body = (inl e, db)) ∧
  (∃ resp, createSale db user_id saleNumber body = (resp, db)
           ∧ is_sale_failure resp).
Proof.
  intros Hbad.
  assert (∃ e, validate_items db (items body) = inl e) as [e He].
  { destruct (validate_items db (items body)) as [e|vs] eqn:Hv; [by eexists|].
    exfalso. apply Hbad. apply validate_items_valid. by eexists. }
  split.
  - exists e. unfold createSale_tx. by rewrite He.
  - unfold createSale. case_match; [by eexists|].
    unfold createSale_tx, beginTransaction, rollback. rewrite He.
    by eexists.
Qed.

Lemma C2_witness :
  createSale (shop 5) 7 "SALE-1" (order [line_A 3; line_A 100])
  = (sale_400 "Insufficient stock for A. Available: 5, Required: 100", shop 5).
Proof.
  destruct (C2_createSale_validates_before_writing
              (shop 5) 7 "SALE-1" (order [line_A 3; line_A 100]))
    as [_ (resp & He & _)].
  - intros [_ [_ (s & Hs & Hq)]%Forall_singleton]%Forall_cons.
    vm_compute in Hs. simplify_eq. simpl in Hq. lia.
  - rewrite He. f_equal.
    assert (H := f_equal fst He). vm_compute in H. by subst resp.
Defined.

(** ** The refund loop *)

Lemma same_rest_refl db : same_rest db db.
Proof. by repeat split. Qed.

Lemma same_rest_trans db1 db2 db3 :
  same_rest db1 db2 → same_rest db2 db3 → same_rest db1 db3.
Proof.
  unfold same_rest. intros (?&?&?&?&?&?) (?&?&?&?&?&?).
  repeat split; congruence.
Qed.

Lemma refund_step_skip u id s rsn db item :
  stock db !! item_key item = None →
  refund_step u id s rsn db item = db.
Proof. unfold refund_step, get_stock, item_key. by intros ->. Qed.

Lemma refund_step_credit u id s rsn db item cs :
  stock db !! item_key item = Some cs →
  let db' := refund_step u id s rsn db item in
  same_rest db db' ∧
  (∀ k, stock db' !! k =
        if decide (item_key item = k)
        then Some {| quantity := js_add (quantity cs) (si_quantity item);
                     reserved_quantity := reserved_quantity cs;
                     updated_by := Some u |}
        else stock db !! k) ∧
  ∃ m, stock_movements db' = stock_movements db ++ [m] ∧
       returned_by id item m ∧ quantity_before m = quantity cs.
Proof.
  intros Hcs db'. subst db'. unfold refund_step, get_stock.
  unfold item_key in Hcs. rewrite Hcs. split; [by repeat split|]. split.
  - intros k. simpl. rewrite lookup_alter. unfold item_key.
    case_decide; [by rewrite Hcs|done].
  - eexists. split; [reflexivity|]. by repeat split.
Qed.

Lemma has_stock_ext db db' :
  (∀ k, is_Some (stock db' !! k) ↔ is_Some (stock db !! k)) →
  ∀ its, List.filter (has_stock db') its = List.filter (has_stock db) its.
Proof.
  intros Hdom its. apply List.filter_ext. intros item. unfold has_stock.
  apply bool_decide_ext, Hdom.
Qed.

Lemma credited_cons k item its :
  credited k (item :: its) =
  (if decide (item_key item = k) then si_quantity item else 0)
  + credited k its.
Proof.
  unfold credited. cbn [fold_right].
  rewrite bool_decide_decide. by destruct (decide _).
Qed.

Lemma credited_nonneg k its :
  Forall (λ item, 0 ≤ si_quantity item) its → 0 ≤ credited k its.
Proof.
  induction 1 as [|item its Hq _ IH]; [done|].
  rewrite credited_cons. destruct (decide _); lia.
Qed.

Lemma credited_filter_le k (f : sale_item → bool) its :
  Forall (λ item, 0 ≤ si_quantity item) its →
  0 ≤ credited k (List.filter f its) ≤ credited k its.
Proof.
  induction 1 as [|item its Hq _ IH]; [done|]. cbn [List.filter].
  destruct (f item); rewrite !credited_cons; destruct (decide _); lia.
Qed.

(** What the loop leaves untouched and what it appends, whatever the
    quantities. *)
Lemma refund_loop_spec u id s rsn its db :
  let db' := fold_left (refund_step u id s rsn) its db in
  same_rest db db' ∧
  (∀ k, is_Some (stock db' !! k) ↔ is_Some (stock db !! k)) ∧
  (∀ k, k ∉ map item_key its → stock db' !! k = stock db !! k) ∧
  ∃ new, stock_movements db' = stock_movements db ++ new ∧
         Forall2 (returned_by id) (List.filter (has_stock db) its) new.
Proof.
  revert db. induction its as [|item its IH]; intros db.
  - simpl. split; [apply same_rest_refl|]. split; [done|]. split; [done|].
    exists []. by rewrite app_nil_r.
  - cbn [fold_left List.filter].
    destruct (stock db !! item_key item) as [cs|] eqn:Hcs.
    + destruct (refund_step_credit u id s rsn db item cs Hcs)
        as (Hrest & Hst & m & Hms & Hm & _).
      set (db1 := refund_step u id s rsn db item) in *.
      destruct (IH db1) as (Hrest' & Hdom' & Hout' & new & Hnew & Hall).
      assert (Hdom : ∀ k, is_Some (stock db1 !! k) ↔ is_Some (stock db !! k)).
      { intros k. rewrite Hst. case_decide; [subst k|done].
        rewrite Hcs. split; eauto. }
      split; [by eapply same_rest_trans|]. split; [|split].
      * intros k. by rewrite Hdom', Hdom.
      * intros k Hk. cbn [map] in Hk.
        apply not_elem_of_cons in Hk as [Hne Hk].
        rewrite Hout' by done. rewrite Hst. by rewrite decide_False.
      * exists (m :: new). split.
        -- rewrite Hnew, Hms. by rewrite <- app_assoc.
        -- unfold has_stock at 1. rewrite bool_decide_eq_true_2 by eauto.
           constructor; [done|]. by rewrite <- (has_stock_ext db db1 Hdom).
    + rewrite refund_step_skip by done.
      destruct (IH db) as (Hrest' & Hdom' & Hout' & new & Hnew & Hall).
      split; [done|]. split; [done|]. split.
      * intros k Hk. cbn [map] in Hk.
        apply not_elem_of_cons in Hk as [_ Hk]. by apply Hout'.
      * exists new. split; [done|].
        unfold has_stock at 1.
        rewrite bool_decide_eq_false_2; [done|].
        rewrite Hcs. by intros [? ?].
Qed.

(** The credits add up exactly as long as the sums stay within the
    safe integers. *)
Lemma refund_loop_credit u id s rsn its db :
  Forall (λ item, 0 ≤ si_quantity item) its →
  (∀ k r, stock db !! k = Some r → k ∈ map item_key its →
          0 ≤ quantity r ∧ quantity r + credited k its ≤ MAX_SAFE_INTEGER) →
  ∀ k r, stock db !! k = Some r →
         ∃ r', stock (fold_left (refund_step u id s rsn) its db) !! k = Some r'
               ∧ quantity r' = quantity r + credited k its.
Proof.
  revert db. induction its as [|item its IH]; intros db Hq Hsafe k r Hr.
  - simpl. exists r. split; [done|]. unfold credited. simpl. lia.
  - apply Forall_cons in Hq as [Hq0 Hq].
    cbn [fold_left]. rewrite credited_cons.
    destruct (stock db !! item_key item) as [cs|] eqn:Hcs.
    + destruct (refund_step_credit u id s rsn db item cs Hcs)
        as (_ & Hst & _).
      set (db1 := refund_step u id s rsn db item) in *.
      destruct (Hsafe (item_key item) cs Hcs) as [Hcs0 Hcs1];
        [cbn [map]; by left|].
      rewrite credited_cons, decide_True in Hcs1 by done.
      pose proof (credited_nonneg (item_key item) its Hq) as Hc0.
      assert (Hexact : js_add (quantity cs) (si_quantity item)
                       = quantity cs + si_quantity item).
      { apply js_add_exact. unfold MAX_SAFE_INTEGER in *. lia. }
      assert (Hsafe1 : ∀ k r, stock db1 !! k = Some r →
                k ∈ map item_key its →
                0 ≤ quantity r
                ∧ quantity r + credited k its ≤ MAX_SAFE_INTEGER).
      { intros k1 r1 Hr1 Hk1. rewrite Hst in Hr1.
        destruct (decide (item_key item = k1)) as [<-|Hne].
        - injection Hr1 as <-. simpl. rewrite Hexact. lia.
        - destruct (Hsafe k1 r1 Hr1) as [H0 H1]; [cbn [map]; by right|].
          rewrite credited_cons, decide_False in H1 by done. lia. }
      pose proof (Hst k) as Hk.
      destruct (decide (item_key item = k)) as [Heq|Hne].
      * destruct (IH db1 Hq Hsafe1 k _ Hk) as (r' & Hr' & Hq').
        exists r'. split; [done|]. simpl in Hq'. rewrite Hexact in Hq'.
        rewrite Heq, Hr in Hcs. simplify_eq. lia.
      * rewrite Hr in Hk.
        destruct (IH db1 Hq Hsafe1 k r Hk) as (r' & Hr' & Hq').
        exists r'. split; [done|lia].
    + rewrite refund_step_skip by done.
      assert (Hsafe1 : ∀ k r, stock db !! k = Some r →
                k ∈ map item_key its →
                0 ≤ quantity r
                ∧ quantity r + credited k its ≤ MAX_SAFE_INTEGER).
      { intros k1 r1 Hr1 Hk1.
        destruct (Hsafe k1 r1 Hr1) as [H0 H1]; [cbn [map]; by right|].
        rewrite credited_cons in H1.
        destruct (decide (item_key item = k1)) as [<-|Hne]; [congruence|].
        lia. }
      destruct (decide (item_key item = k)) as [Heq|Hne]; [congruence|].
      destruct (IH db Hq Hsafe1 k r Hr) as (r' & Hr' & Hq').
      exists r'. split; [done|lia].
Qed.

(** ** Reading [partial_items] *)

Lemma filter_length_all {A} (f : A → bool) (l : list A) :
  length (List.filter f l) = length l ↔ Forall (λ x, f x = true) l.
Proof.
  induction l as [|a l IH]; simpl.
  - split; [constructor|done].
  - pose proof (List.filter_length_le f l) as Hle.
    rewrite Forall_cons. destruct (f a); simpl.
    + rewrite <- IH. split; [intros [=]; done | intros [_ ->]; done].
    + split; [lia | intros [? _]; done].
Qed.

Lemma elem_of_filter_bool {A} (f : A → bool) (l : list A) (x : A) :
  x ∈ List.filter f l ↔ x ∈ l ∧ f x = true.
Proof. rewrite !list_elem_of_In. apply List.filter_In. Qed.

Lemma some_names_None elems item :
  some_names elems item = None ↔ stops_at_null elems item.
Proof.
  split.
  - induction elems as [|e es IH]; [done|]. destruct e as [|z|]; simpl.
    + intros _. exists [], es. split; [done|]. apply not_elem_of_nil.
    + case_bool_decide; [done|]. intros (pre & post & -> & Hn)%IH.
      exists (pe_id z :: pre), post. split; [done|].
      apply not_elem_of_cons. split; [congruence|done].
    + intros (pre & post & -> & Hn)%IH.
      exists (pe_other :: pre), post. split; [done|].
      apply not_elem_of_cons. by split.
  - intros (pre & post & -> & Hn).
    induction pre as [|e pre IH]; [done|].
    apply not_elem_of_cons in Hn as [Hne Hn].
    destruct e as [|z|]; simpl; [done| |by apply IH].
    rewrite bool_decide_eq_false_2 by congruence. by apply IH.
Qed.

Lemma some_names_true elems item :
  some_names elems item = Some true ↔ reads_name elems item.
Proof.
  split.
  - induction elems as [|e es IH]; [done|]. destruct e as [|z|]; simpl.
    + done.
    + case_bool_decide as Hz.
      * intros _. subst z. exists [], es. split; [done|].
        apply not_elem_of_nil.
      * intros (pre & post & -> & Hn)%IH.
        exists (pe_id z :: pre), post. split; [done|].
        apply not_elem_of_cons. by split.
    + intros (pre & post & -> & Hn)%IH.
      exists (pe_other :: pre), post. split; [done|].
      apply not_elem_of_cons. by split.
  - intros (pre & post & -> & Hn).
    induction pre as [|e pre IH]; simpl.
    + by rewrite bool_decide_eq_true_2.
    + apply not_elem_of_cons in Hn as [Hne Hn].
      destruct e as [|z|]; simpl; [done| |by apply IH].
      case_bool_decide; [done|]. by apply IH.
Qed.

Lemma picked_reads_name elems item :
  picked elems item = true ↔ reads_name elems item.
Proof.
  rewrite <- some_names_true. unfold picked.
  by destruct (some_names elems item) as [[|]|].
Qed.

Lemma filter_items_spec elems its :
  match filter_items elems its with
  | Some kept =>
      kept = List.filter (picked elems) its ∧
      ∀ item, item ∈ its → ¬ stops_at_null elems item
  | None => ∃ item, item ∈ its ∧ stops_at_null elems item
  end.
Proof.
  induction its as [|item its IH]; cbn [filter_items List.filter].
  - split; [done|]. by intros item ?%elem_of_nil.
  - unfold picked at 1.
    destruct (some_names elems item) as [keep|] eqn:Hs.
    + destruct (filter_items elems its) as [kept|].
      * destruct IH as [-> Hno]. split; [by destruct keep|].
        intros item' [->|Hin]%elem_of_cons; [|by apply Hno].
        intros Hstop%some_names_None. congruence.
      * destruct IH as (item' & Hin & Hstop). exists item'.
        split; [by right|done].
    + exists item. split; [by left|]. by apply some_names_None.
Qed.

(** The items the handler refunds are the items of the sale that the
    request targets, in the order of the sale; the handler throws
    exactly on the requests that cannot be read. *)
Lemma itemsToRefund_of_spec body its :
  match itemsToRefund_of (partial_items body) its with
  | Some targets =>
      ¬ unreadable body its ∧
      (∃ f, targets = List.filter f its) ∧
      (∀ item, item ∈ targets ↔ targeted body its item) ∧
      (length targets = length its ↔ Forall (targeted body its) its)
  | None => unreadable body its
  end.
Proof.
  assert (Hall : ∀ l : list sale_item,
            l = List.filter (λ _, true) l).
  { intros l. symmetry. apply forallb_filter_id, forallb_forall. done. }
  assert (Hwhole :
            (partial_items body = pi_absent ∨ partial_items body = pi_array []
             ∨ partial_items body = pi_other false) →
            ¬ unreadable body its ∧
            (∃ f, its = List.filter f its) ∧
            (∀ item, item ∈ its ↔ targeted body its item) ∧
            (length its = length its ↔ Forall (targeted body its) its)).
  { intros Hpi. unfold unreadable, targeted.
    destruct Hpi as [->| [->| ->]];
      (split; [tauto|]; split; [eexists; apply Hall|]; split;
       [intros item; tauto|]; split; [|done]; intros _;
       apply Forall_forall; tauto). }
  destruct (partial_items body) as [|[|e es]|[|]] eqn:Hpi;
    cbn [itemsToRefund_of]; try (apply Hwhole; tauto).
  - pose proof (filter_items_spec (e :: es) its) as Hspec.
    destruct (filter_items (e :: es) its) as [kept|].
    + destruct Hspec as [-> Hno]. unfold unreadable, targeted. rewrite Hpi.
      split; [by intros (item & Hin & Hstop); apply (Hno item)|].
      split; [by eexists|]. split.
      * intros item. rewrite elem_of_filter_bool, picked_reads_name. done.
      * rewrite filter_length_all, !Forall_forall. split.
        -- intros H item Hin. split; [done|].
           apply picked_reads_name, H, Hin.
        -- intros H item Hin. by apply picked_reads_name, H.
    + unfold unreadable. by rewrite Hpi.
  - unfold unreadable, targeted. rewrite Hpi. destruct its as [|item its].
    + split; [intros H; by apply H|]. split; [by exists (λ _, true)|]. split.
      * intros item. split; [by intros ?%elem_of_nil|by intros [? _]].
      * split; [constructor|done].
    + done.
Qed.

Lemma targeted_readable body its :
  Forall (targeted body its) its → ¬ unreadable body its.
Proof.
  unfold targeted, unreadable. intros Hall.
  destruct (partial_items body) as [|[|e es]|[|]]; try tauto.
  - intros (item & Hin & Hstop%some_names_None).
    rewrite Forall_forall in Hall.
    destruct (Hall item Hin) as [_ Hread%some_names_true]. congruence.
  - destruct its as [|item its]; [by intros H|].
    by apply Forall_cons in Hall as [[_ ?] _].
Qed.

(** ** The refund handler, case by case *)

Lemma get_completed_sale_Some db id s :
  get_completed_sale db id = Some s ↔
  sales db !! id = Some s ∧ status s = completed.
Proof.
  unfold get_completed_sale. split.
  - intros H. destruct (sales db !! id) as [s'|]; [|done].
    case_bool_decide; [|done]. by simplify_eq.
  - intros [-> Hs]. by rewrite bool_decide_eq_true_2.
Qed.

(** The refund of a completed sale, statement by statement. *)
Lemma refund_completed db u id body s targets :
  get_completed_sale db id = Some s →
  itemsToRefund_of (partial_items body) (get_sale_items db id) = Some targets →
  let saleItems := get_sale_items db id in
  let isFull := bool_decide (length targets = length saleItems) in
  refund db u id body =
  (refund_200 (if isFull then full else partial)
     (Z.of_nat (length targets)) (Z.of_nat (length saleItems)),
   update_sale (fold_left (refund_step u id s (reason body)) targets db) id
     (if isFull then refunded else completed)
     (or_default (notes s) EmptyString +:+ newline +:+ "Refund: "
      +:+ or_default (reason body) "No reason provided")).
Proof. intros Hs Ht. unfold refund. by rewrite Hs, Ht. Qed.

Lemma refund_thrown db u id body s :
  get_completed_sale db id = Some s →
  itemsToRefund_of (partial_items body) (get_sale_items db id) = None →
  refund db u id body = (refund_500, db).
Proof. intros Hs Ht. unfold refund. by rewrite Hs, Ht. Qed.

Lemma refund_200_inv db u id body t n m db' :
  refund db u id body = (refund_200 t n m, db') →
  ∃ s targets,
    get_completed_sale db id = Some s ∧
    itemsToRefund_of (partial_items body) (get_sale_items db id)
    = Some targets.
Proof.
  unfold refund.
  destruct (get_completed_sale db id) as [s|]; [|done]. cbv zeta.
  destruct (itemsToRefund_of _ _) as [targets|]; [|done].
  intros _. by exists s, targets.
Qed.

Lemma lookup_update_sale db id st nt k :
  sales (update_sale db id st nt) !! k =
  if decide (id = k)
  then (λ s, {| sale_number := sale_number s;
                payment_method := payment_method s;
                status := st; cashier_id := cashier_id s;
                customer_name := customer_name s;
                notes := Some nt |}) <$> sales db !! id
  else sales db !! k.
Proof. apply lookup_alter. Qed.



(** ** Full and partial refunds *)



(** ** Refunding twice *)

Lemma refund_succeeds_iff db u id body :
  (∃ t n m, (refund db u id body).1 = refund_200 t n m) ↔
  (∃ s, sales db !! id = Some s ∧ status s = completed) ∧
  ¬ unreadable body (get_sale_items db id).
Proof.
  pose proof (itemsToRefund_of_spec body (get_sale_items db id)) as Hspec.
  split.
  - intros (t & n & m & H).
    destruct (refund db u id body) as [resp db'] eqn:He. simpl in H. subst.
    destruct (refund_200_inv _ _ _ _ _ _ _ _ He) as (s & targets & Hs & Ht).
    rewrite Ht in Hspec. split; [|by destruct Hspec].
    exists s. by apply get_completed_sale_Some.
  - intros [(s & Hs) Hread]. apply get_completed_sale_Some in Hs.
    destruct (itemsToRefund_of (partial_items body) (get_sale_items db id))
      as [targets|] eqn:Ht; [|done].
    rewrite (refund_completed _ _ _ _ _ _ Hs Ht). by do 3 eexists.
Qed.

Lemma filter_keys (f : sale_item → bool) its k :
  k ∈ map item_key (List.filter f its) → k ∈ map item_key its.
Proof.
  intros (item & -> & [Hin _]%elem_of_filter_bool)%list_elem_of_fmap.
  apply list_elem_of_fmap. eauto.
Qed.

(** C10 (as stated) fails.  Sale 1 is completed and the request holds
    [[null]] as its [partial_items], which the route lets through: the
    filter throws on the null element, the transaction is rolled back
    and the refund is answered 500, with the database as it was. *)
Lemma C10_null_item_is_a_server_error :
  (∃ s, sales sold !! 1 = Some s ∧ status s = completed) ∧
  partial_items refund_null = pi_array [pe_null] ∧
  refund sold 7 1 refund_null = (refund_500, sold).
Proof.
  split; [exists sale_1; by split|]. split; [done|].
  vm_compute. reflexivity.
Qed.

(** C10 (amended).  A refund answers with success exactly when the sale
    exists with status 'completed' and the request can be read against
    the items of the sale; it answers 404 and writes nothing when
    there is no such sale, and 500, writing nothing, when there is one
    and the request cannot be read.  Nothing records which items were
    refunded: after a partial refund, one that leaves some item of the
    sale out, the sale is still 'completed' with the same items, and a
    second refund with the same request succeeds with the same answer;
    each of the two writes one 'return' ledger entry for every targeted
    item with a stock line, and, the quantities being non-negative
    with sums within the safe integers, every stock line has then been
    credited twice with the quantities of the targeted items on its
    key. *)
Theorem C10_refund_keeps_no_record_of_refunded_items
    (db : DB) (user_id id : Z) (body : refund_body) :
  let saleItems := get_sale_items db id in
  ((∃ t n m, (refund db user_id id body).1 = refund_200 t n m) ↔
   (∃ s, sales db !! id = Some s ∧ status s = completed) ∧
   ¬ unreadable body saleItems) ∧
  (get_completed_sale db id = None →
   refund db user_id id body = (refund_404, db)) ∧
  (is_Some (get_completed_sale db id) → unreadable body saleItems →
   refund db user_id id body = (refund_500, db)) ∧
  (is_Some (get_completed_sale db id) → ¬ unreadable body saleItems →
   ¬ Forall (targeted body saleItems) saleItems →
   let db1 := (refund db user_id id body).2 in
   let db2 := (refund db1 user_id id body).2 in
   (∃ s1, sales db1 !! id = Some s1 ∧ status s1 = completed) ∧
   get_sale_items db1 id = saleItems ∧
   (refund db1 user_id id body).1 = (refund db user_id id body).1 ∧
   ∃ targets,
     itemsToRefund_of (partial_items body) saleItems = Some targets ∧
     (∀ item, item ∈ targets ↔ targeted body saleItems item) ∧
     (refund db user_id id body).1
     = refund_200 partial (Z.of_nat (length targets))
                  (Z.of_nat (length saleItems)) ∧
     (∃ new1 new2,
        stock_movements db1 = stock_movements db ++ new1 ∧
        stock_movements db2 = stock_movements db1 ++ new2 ∧
        Forall2 (returned_by id) (List.filter (has_stock db) targets) new1 ∧
        Forall2 (returned_by id) (List.filter (has_stock db) targets) new2) ∧
     (Forall (λ item, 0 ≤ si_quantity item) saleItems →
      (∀ k r, stock db !! k = Some r → k ∈ map item_key saleItems →
              0 ≤ quantity r
              ∧ quantity r + 2 * credited k saleItems ≤ MAX_SAFE_INTEGER) →
      ∀ k r, stock db !! k = Some r →
             ∃ r2, stock db2 !! k = Some r2 ∧
                   quantity r2 = quantity r + 2 * credited k targets)).
Proof.
  intros saleItems. split; [apply refund_succeeds_iff|]. split.
  { intros Hnone. unfold refund. by rewrite Hnone. }
  pose proof (itemsToRefund_of_spec body saleItems) as Hspec.
  destruct (itemsToRefund_of (partial_items body) saleItems)
    as [targets|] eqn:Ht.
  2:{ split; [|done]. intros [s Hs] _. by apply (refund_thrown _ _ _ _ s). }
  destruct Hspec as (Hok & [f Hf] & Hmem & Hiff).
  split; [done|].
  intros [s Hs] Hread Hpart db1 db2.
  assert (Hlen : length targets ≠ length saleItems).
  { intros Hlen. by apply Hpart, Hiff. }
  pose proof (refund_completed db user_id id body s targets Hs Ht) as H1.
  cbv zeta in H1. fold saleItems in H1.
  rewrite bool_decide_eq_false_2 in H1 by done.
  destruct (refund_loop_spec user_id id s (reason body) targets db)
    as ((_ & _ & Hsales & Hitems & _) & Hdom1 & _ & new1 & Hnew1 & Hall1).
  set (nt := or_default (notes s) EmptyString +:+ newline +:+ "Refund: "
             +:+ or_default (reason body) "No reason provided") in *.
  set (s1 := {| sale_number := sale_number s;
                payment_method := payment_method s;
                status := completed; cashier_id := cashier_id s;
                customer_name := customer_name s; notes := Some nt |}).
  assert (Hdb1 : db1 = update_sale
            (fold_left (refund_step user_id id s (reason body)) targets db)
            id completed nt) by (subst db1; by rewrite H1).
  assert (Hs1 : get_completed_sale db1 id = Some s1).
  { apply get_completed_sale_Some. split; [|done].
    rewrite Hdb1, lookup_update_sale, decide_True, Hsales by done.
    apply get_completed_sale_Some in Hs as [-> _]. done. }
  assert (Hitems1 : get_sale_items db1 id = saleItems).
  { subst saleItems. unfold get_sale_items.
    by rewrite Hdb1; simpl; rewrite Hitems. }
  assert (Hst1 : stock db1 = stock (fold_left
            (refund_step user_id id s (reason body)) targets db))
    by (by rewrite Hdb1).
  assert (Hms1 : stock_movements db1 = stock_movements db ++ new1)
    by (by rewrite Hdb1).
  assert (Ht1 : itemsToRefund_of (partial_items body) (get_sale_items db1 id)
                = Some targets) by (by rewrite Hitems1).
  pose proof (refund_completed db1 user_id id body s1 targets Hs1 Ht1) as H2.
  cbv zeta in H2. rewrite Hitems1 in H2.
  rewrite bool_decide_eq_false_2 in H2 by done.
  destruct (refund_loop_spec user_id id s1 (reason body) targets db1)
    as (_ & Hdom2 & _ & new2 & Hnew2 & Hall2).
  assert (Hdom : ∀ k, is_Some (stock db1 !! k) ↔ is_Some (stock db !! k)).
  { intros k. by rewrite Hst1. }
  rewrite (has_stock_ext db db1 Hdom) in Hall2.
  split; [exists s1; by apply get_completed_sale_Some|].
  split; [done|]. split; [by rewrite H1, H2|].
  exists targets. split; [done|]. split; [done|]. split; [by rewrite H1|].
  split.
  - exists new1, new2. split; [done|]. split; [|done].
    subst db2. by rewrite H2.
  - intros Hq Hsafe k r Hr.
    assert (Hqt : Forall (λ item, 0 ≤ si_quantity item) targets).
    { rewrite Hf. apply Forall_forall.
      intros item [Hin _]%elem_of_filter_bool.
      rewrite Forall_forall in Hq. by apply Hq. }
    assert (Hle : ∀ k, 0 ≤ credited k targets ≤ credited k saleItems).
    { intros k'. rewrite Hf. by apply credited_filter_le. }
    assert (Hkeys : ∀ k, k ∈ map item_key targets →
                         k ∈ map item_key saleItems).
    { intros k'. rewrite Hf. apply filter_keys. }
    assert (Hsafe0 : ∀ k r, stock db !! k = Some r →
              k ∈ map item_key targets →
              0 ≤ quantity r
              ∧ quantity r + credited k targets ≤ MAX_SAFE_INTEGER).
    { intros k' r' Hr' Hk'.
      destruct (Hsafe k' r' Hr' (Hkeys k' Hk')) as [H0 Hmax].
      specialize (Hle k'). lia. }
    pose proof (refund_loop_credit user_id id s (reason body) targets db
                  Hqt Hsafe0) as Hc1.
    assert (Hsafe1 : ∀ k r1, stock db1 !! k = Some r1 →
              k ∈ map item_key targets →
              0 ≤ quantity r1
              ∧ quantity r1 + credited k targets ≤ MAX_SAFE_INTEGER).
    { intros k' r1 Hr1 Hk'.
      assert (is_Some (stock db !! k')) as [r0 Hr0] by (apply Hdom; eauto).
      destruct (Hc1 k' r0 Hr0) as (r1' & Hr1' & Hq1).
      rewrite <- Hst1 in Hr1'. simplify_eq.
      destruct (Hsafe k' r0 Hr0 (Hkeys k' Hk')) as [H0 Hmax].
      specialize (Hle k'). lia. }
    pose proof (refund_loop_credit user_id id s1 (reason body) targets db1
                  Hqt Hsafe1) as Hc2.
    destruct (Hc1 k r Hr) as (r1 & Hr1 & Hq1). rewrite <- Hst1 in Hr1.
    destruct (Hc2 k r1 Hr1) as (r2 & Hr2 & Hq2).
    exists r2. split; [|lia]. subst db2. by rewrite H2.
Qed.

Lemma C10_witness :
  (∃ s1, sales (refund sold 7 1 refund_item_1).2 !! 1 = Some s1
         ∧ status s1 = completed) ∧
  quantity <$> stock sold !! (1, None) = Some 8 ∧
  ∃ r2, stock (refund (refund sold 7 1 refund_item_1).2 7 1 refund_item_1).2
          !! (1, None) = Some r2 ∧
        quantity r2 = 12.
Proof.
  destruct (C10_refund_keeps_no_record_of_refunded_items sold 7 1 refund_item_1)
    as (_ & _ & _ & H).
  cbv zeta in H.
  assert (Ht : itemsToRefund_of (partial_items refund_item_1)
                 (get_sale_items sold 1)
               = Some [{| si_id := 1; si_sale_id := 1; si_product_id := 1;
                          si_variant_id := None; si_quantity := 2 |}])
    by (vm_compute; reflexivity).
  pose proof (itemsToRefund_of_spec refund_item_1 (get_sale_items sold 1))
    as Hspec.
  rewrite Ht in Hspec. destruct Hspec as (Hread & _ & _ & Hiff).
  assert (Hpart : ¬ Forall (targeted refund_item_1 (get_sale_items sold 1))
                           (get_sale_items sold 1)).
  { intros Hall. apply Hiff in Hall. vm_compute in Hall. discriminate. }
  assert (Hsome : is_Some (get_completed_sale sold 1))
    by (exists sale_1; vm_compute; reflexivity).
  destruct (H Hsome Hread Hpart)
    as (Hs1 & _ & _ & targets & Ht' & _ & _ & _ & Hq).
  rewrite Ht in Ht'. injection Ht' as <-.
  split; [exact Hs1|]. split; [reflexivity|].
  assert (Hnn : Forall (λ item, 0 ≤ si_quantity item) (get_sale_items sold 1)).
  { vm_compute get_sale_items.
    repeat (apply Forall_cons; split; [simpl; lia|]). apply Forall_nil_2. }
  assert (Hsafe : ∀ k r, stock sold !! k = Some r →
            k ∈ map item_key (get_sale_items sold 1) →
            0 ≤ quantity r
            ∧ quantity r + 2 * credited k (get_sale_items sold 1)
              ≤ MAX_SAFE_INTEGER).
  { intros k r Hr Hk.
    change (k ∈ [(1, @None Z); (2, None)]) in Hk.
    rewrite !elem_of_cons, elem_of_nil in Hk.
    destruct Hk as [->|[->|[]]]; vm_compute in Hr; injection Hr as <-;
      vm_compute; split; discriminate. }
  destruct (Hq Hnn Hsafe (1, None)
              {| quantity := 8; reserved_quantity := 0;
                 updated_by := Some 7 |})
    as (r2 & Hr2 & Hq2); [reflexivity|].
  exists r2. split; [exact Hr2|]. rewrite Hq2. reflexivity.
Defined.

(** ** Bulk adjustments *)

Lemma bulk_item_fails_ext db db' a :
  same_lookups db db' →
  bulk_item_fails db' a = bulk_item_fails db a ∧
  bulk_failure_of db' a = bulk_failure_of db a.
Proof.
  intros [Hp Hdom]. unfold bulk_item_fails, bulk_failure_of,
    get_active_product, get_stock. rewrite Hp.
  split; [|done]. repeat case_match; try done.
  - match goal with E : stock db' !! ?k = Some _ |- _ =>
      assert (is_Some (stock db !! k)) as [? ?] by (apply Hdom; eauto) end.
    congruence.
  - match goal with E : stock db !! ?k = Some _ |- _ =>
      assert (is_Some (stock db' !! k)) as [? ?] by (apply Hdom; eauto) end.
    congruence.
Qed.

Lemma same_lookups_update_stock db q u p v :
  same_lookups db (update_stock db q u p v).
Proof.
  split; [done|]. intros k. rewrite lookup_update_stock.
  case_decide; [subst k|done]. by rewrite fmap_is_Some.
Qed.

Lemma bulk_step_failure u nt st a :
  bulk_item_fails (bs_db st) a = true →
  bulk_step u nt st a =
  {| bs_db := bs_db st; results := results st;
     failed := failed st ++ [bulk_failure_of (bs_db st) a] |}.
Proof.
  unfold bulk_item_fails, bulk_step, bulk_failure_of.
  destruct (get_active_product _ _); [|done].
  by destruct (get_stock _ _ _).
Qed.

Lemma bulk_step_success u nt st a :
  bulk_item_fails (bs_db st) a = false →
  let st' := bulk_step u nt st a in
  failed st' = failed st ∧ same_lookups (bs_db st) (bs_db st') ∧
  ∃ r m, results st' = results st ++ [r] ∧
         stock_movements (bs_db st') = stock_movements (bs_db st) ++ [m] ∧
         result_matches r m ∧ br_product_id r = ba_product_id a.
Proof.
  unfold bulk_item_fails, bulk_step.
  destruct (get_active_product _ _) as [p|]; [|done].
  destruct (get_stock _ _ _) as [cs|]; [|done]. intros _. simpl.
  split; [done|]. split.
  - destruct (same_lookups_update_stock (bs_db st)
      (newQuantity_for (ba_adjustment_type a) (quantity cs) (ba_quantity a))
      u (ba_product_id a) (or_null (ba_variant_id a))) as [Hp Hdom].
    split.
    + unfold check_low_stock. by repeat case_match.
    + intros k. rewrite stock_check_low_stock. apply Hdom.
  - do 2 eexists. split; [reflexivity|].
    rewrite movements_check_low_stock. split; [reflexivity|].
    by repeat split.
Qed.

Lemma bulk_loop_spec u nt db adjs st :
  same_lookups db (bs_db st) →
  let st' := fold_left (bulk_step u nt) adjs st in
  failed st' = failed st
               ++ map (bulk_failure_of db) (List.filter (bulk_item_fails db) adjs) ∧
  ∃ rs ms,
    results st' = results st ++ rs ∧
    stock_movements (bs_db st') = stock_movements (bs_db st) ++ ms ∧
    Forall2 result_matches rs ms ∧
    map br_product_id rs =
    map ba_product_id (List.filter (λ a, negb (bulk_item_fails db a)) adjs).
Proof.
  revert st. induction adjs as [|a adjs IH]; intros st Hst.
  - simpl. rewrite app_nil_r. split; [done|].
    exists [], []. rewrite !app_nil_r. by repeat split.
  - cbn [fold_left List.filter].
    destruct (bulk_item_fails_ext db (bs_db st) a Hst) as [Hf Hfo].
    destruct (bulk_item_fails db a) eqn:Hfail; cbn [negb].
    + rewrite bulk_step_failure by congruence.
      destruct (IH {| bs_db := bs_db st; results := results st;
                      failed := failed st ++ [bulk_failure_of (bs_db st) a] |})
        as (Hfs & rs & ms & Hrs & Hms & Hall & Hids); [done|].
      split.
      * rewrite Hfs. simpl. by rewrite <- app_assoc, Hfo.
      * by exists rs, ms.
    + destruct (bulk_step_success u nt st a) as (Hfd & [Hp Hdom] & r & m & Hr & Hm & Hrm & Hid);
        [congruence|].
      destruct (IH (bulk_step u nt st a))
        as (Hfs & rs & ms & Hrs & Hms & Hall & Hids).
      { destruct Hst as [Hp0 Hdom0]. split; [congruence|].
        intros k. by rewrite Hdom, Hdom0. }
      split; [by rewrite Hfs, Hfd|].
      exists (r :: rs), (m :: ms). split; [|split; [|split]].
      * rewrite Hrs, Hr. by rewrite <- app_assoc.
      * rewrite Hms, Hm. by rewrite <- app_assoc.
      * by constructor.
      * simpl. by rewrite Hid, Hids.
Qed.

Lemma filter_split_length {A} (f : A → bool) (l : list A) :
  (length (List.filter (λ a, negb (f a)) l) + length (List.filter f l)
   = length l)%nat.
Proof.
  induction l as [|a l IH]; simpl; [done|].
  destruct (f a); simpl; lia.
Qed.

(** C9.  A bulk request that passes the request validation is answered
    with success, whatever its items: the [failed] list holds, in
    order, exactly the items whose product is not an active product or
    whose stock line is missing, each with its product id and reason;
    the [successful] list holds, in order, one entry with [success:
    true] for each of the other items, and the ledger has grown by
    exactly one matching entry per successful entry; the summary counts
    are the length of the input and of the two lists, which add up. *)
Theorem C9_bulkAdjust_isolates_failures
    (db : DB) (user_id : Z) (body : bulk_body) :
  adjustments body ≠ [] →
  Forall (λ a, 0 ≤ ba_quantity a) (adjustments body) →
  ∃ rs fs ms db',
    bulkAdjust db user_id body =
    (bulk_200 rs fs
       {| total := Z.of_nat (length (adjustments body));
          successful_count := Z.of_nat (length rs);
          failed_count := Z.of_nat (length fs) |}, db') ∧
    fs = map (bulk_failure_of db)
             (List.filter (bulk_item_fails db) (adjustments body)) ∧
    map br_product_id rs =
    map ba_product_id
        (List.filter (λ a, negb (bulk_item_fails db a)) (adjustments body)) ∧
    stock_movements db' = stock_movements db ++ ms ∧
    Forall2 result_matches rs ms ∧
    (length rs + length fs = length (adjustments body))%nat.
Proof.
  intros Hne Hq. unfold bulkAdjust.
  rewrite bool_decide_eq_true_2 by done.
  replace (forallb _ _) with true.
  2:{ symmetry. apply forallb_forall. intros a Ha.
      apply Z.leb_le. rewrite Forall_forall in Hq. apply Hq.
      by apply list_elem_of_In. }
  cbn [andb negb]. unfold beginTransaction, commit.
  destruct (bulk_loop_spec user_id (bb_notes body) db (adjustments body)
              {| bs_db := db; results := []; failed := [] |})
    as (Hfs & rs & ms & Hrs & Hms & Hall & Hids); [by split|].
  simpl in Hfs, Hrs, Hms.
  eexists rs, _, ms, _. rewrite Hrs. split; [reflexivity|].
  split; [done|]. split; [done|]. split; [done|]. split; [done|].
  rewrite Hfs. apply (f_equal length) in Hids.
  rewrite !length_map in Hids. rewrite length_map, Hids.
  apply filter_split_length.
Qed.

Lemma C9_witness :
  ∃ rs db',
    bulkAdjust (shop 5) 7 batch =
    (bulk_200 rs [{| bf_product_id := 9999; bf_error := "Product not found" |}]
       {| total := 2; successful_count := 1; failed_count := 1 |}, db') ∧
    quantity <$> stock db' !! (1, None) = Some 9 ∧
    length (stock_movements db') = 2%nat.
Proof.
  destruct (C9_bulkAdjust_isolates_failures (shop 5) 7 batch)
    as (rs & fs & ms & db' & He & _).
  - discriminate.
  - unfold batch. simpl. repeat (apply Forall_cons; split; [simpl; lia|]).
    apply Forall_nil_2.
  - exists rs, db'.
    assert (H1 := f_equal fst He). assert (H2 := f_equal snd He).
    vm_compute in H1. simpl in H2. rewrite He. clear He.
    injection H1 as <- <-. subst db'. vm_compute. by repeat split.
Defined.

(** ** The ledger *)

Lemma replay_snoc ms m : replay (ms ++ [m]) = replay ms + quantity_change m.
Proof. unfold replay. by rewrite fold_left_app. Qed.

Lemma movements_of_snoc k ms m :
  movements_of k (ms ++ [m]) =
  movements_of k ms ++ (if decide (movement_key m = k) then [m] else []).
Proof.
  unfold movements_of. rewrite List.filter_app. simpl.
  rewrite bool_decide_decide. by destruct (decide _).
Qed.

Lemma ledger_replays_ext db db' :
  stock db' = stock db → stock_movements db' = stock_movements db →
  ledger_replays db → ledger_replays db'.
Proof. unfold ledger_replays. by intros -> ->. Qed.

(** A stock write paired with a ledger entry of the applied delta
    keeps the ledger replaying to the stock. *)
Lemma ledger_replays_write db p v r q u m :
  ledger_replays db →
  stock db !! (p, v) = Some r →
  movement_key m = (p, v) →
  quantity_change m = q - quantity r →
  ledger_replays (insert_stock_movement (update_stock db q u p v) m).
Proof.
  intros Hdb Hr Hk Hc k r'. simpl.
  rewrite lookup_alter, movements_of_snoc, Hk.
  destruct (decide ((p, v) = k)) as [<-|Hne].
  - rewrite Hr. intros [= <-]. simpl.
    rewrite replay_snoc, (Hdb _ _ Hr), Hc. lia.
  - rewrite app_nil_r. apply Hdb.
Qed.

(** The adjustment handlers and the refund loop read the stock line
    right before they write it: each of their writes keeps the ledger
    replaying to the stock, for small quantities (beyond, the recorded
    change is a rounded difference). *)
Lemma ledger_replays_adjust db u b :
  (∀ s, get_stock db (ab_product_id b) (or_null (ab_variant_id b)) = Some s →
        small (quantity s)) →
  small (ab_quantity b) →
  ledger_replays db → ledger_replays (adjust db u b).2.
Proof.
  intros Hs Hq Hdb. unfold adjust. repeat case_match; simpl; try done.
  unfold commit, beginTransaction.
  eapply ledger_replays_ext;
    [apply stock_check_low_stock | apply movements_check_low_stock |].
  eapply ledger_replays_write; [done..|]. simpl.
  apply applied_delta_small; [by apply Hs|done].
Qed.

Lemma ledger_replays_bulk_step u nt st a :
  (∀ s, get_stock (bs_db st) (ba_product_id a) (or_null (ba_variant_id a))
        = Some s → small (quantity s)) →
  small (ba_quantity a) →
  ledger_replays (bs_db st) → ledger_replays (bs_db (bulk_step u nt st a)).
Proof.
  intros Hs Hq Hdb. unfold bulk_step. repeat case_match; simpl; try done.
  eapply ledger_replays_ext;
    [apply stock_check_low_stock | apply movements_check_low_stock |].
  eapply ledger_replays_write; [done..|]. simpl.
  apply applied_delta_small; [by apply Hs|done].
Qed.

Lemma ledger_replays_refund_step u id s rsn db item :
  (∀ r, stock db !! item_key item = Some r → small (quantity r)) →
  small (si_quantity item) →
  ledger_replays db → ledger_replays (refund_step u id s rsn db item).
Proof.
  intros Hs Hq Hdb. unfold refund_step, get_stock.
  destruct (stock db !! (si_product_id item, si_variant_id item))
    as [r|] eqn:Hr; [|done].
  eapply ledger_replays_write; [done..|]. simpl.
  specialize (Hs r Hr). unfold small in *.
  rewrite js_add_exact by lia. lia.
Qed.

Lemma validate_items_snapshot db its vs :
  validate_items db its = inr vs →
  Forall (snapshot_current db) vs ∧
  map (λ v, (vi_product_id v, vi_variant_id v)) vs = map line_key its.
Proof.
  revert vs. induction its as [|item its IH]; intros vs H; simpl in H.
  - by simplify_eq.
  - destruct (validate_item db item) as [|v] eqn:Hv; [done|].
    destruct (validate_items db its) as [|vs']; [done|]. simplify_eq.
    destruct (IH vs' eq_refl) as [Hall Hkeys].
    unfold validate_item, get_stock in Hv.
    repeat case_match; simplify_eq. simpl. split.
    + constructor; [|done]. eexists. by split.
    + unfold line_key at 1. by rewrite Hkeys.
Qed.

(** So does the sale loop, as long as no stock line is named twice in
    the order: the quantity it debits is the one read at validation. *)
Lemma ledger_replays_sale_loop u sid n vs db :
  NoDup (map (λ v, (vi_product_id v, vi_variant_id v)) vs) →
  Forall (snapshot_current db) vs →
  Forall (λ v, 0 ≤ vi_quantity v ≤ vi_current_stock v
               ∧ safe (vi_current_stock v)) vs →
  ledger_replays db →
  ledger_replays (fold_left (sale_step u sid n) vs db).
Proof.
  revert db. induction vs as [|v vs IH]; intros db Hnd Hsnap Hcov Hdb; [done|].
  apply NoDup_cons in Hnd as [Hv Hnd].
  apply Forall_cons in Hsnap as [(r & Hr & Hq) Hsnap].
  apply Forall_cons in Hcov as [[Hqty Hsafe] Hcov].
  cbn [fold_left]. apply IH; [done| |done|].
  - rewrite Forall_forall in Hsnap. apply Forall_forall. intros v' Hv'.
    destruct (Hsnap v' Hv') as (r' & Hr' & Hq'). exists r'. split; [|done].
    unfold sale_step. rewrite stock_check_low_stock_sale. simpl.
    rewrite lookup_alter_ne; [done|]. intros Heq. apply Hv.
    rewrite Heq. apply list_elem_of_fmap. by exists v'.
  - unfold sale_step.
    eapply ledger_replays_ext;
      [apply stock_check_low_stock_sale
      | apply movements_check_low_stock_sale |].
    eapply ledger_replays_write with (r := r); [|done|done|].
    + by eapply ledger_replays_ext; [..|exact Hdb].
    + simpl. unfold safe, MAX_SAFE_INTEGER in Hsafe.
      rewrite js_sub_exact by lia. lia.
Qed.

Lemma shop_ledger_replays q : ledger_replays (shop q).
Proof.
  intros k r H. simpl in H. apply lookup_singleton_Some in H as [<- <-].
  unfold replay. simpl. lia.
Qed.

(** C1 fails on the sale handler.  The stock line of A holds 5 units,
    explained by its ledger; an order lists A twice, 3 units each.
    Both lines are validated against the 5 units and the order is
    accepted; both writes start from the 5 units read at validation:
    the stock line ends at 2 while its ledger replays to -1, and the
    second 'sale' entry records a [quantity_before] of 5 although the
    line held 2 when it was written.  Each entry on its own still
    satisfies after = before + change. *)
Theorem C1_sale_with_repeated_key_breaks_replay :
  let body := order [line_A 3; line_A 3] in
  let db' := (createSale (shop 5) 7 "SALE-1" body).2 in
  ledger_replays (shop 5) ∧
  ¬ distinct_lines (req_createSale 7 "SALE-1" body) ∧
  (∃ its, (createSale (shop 5) 7 "SALE-1" body).1 = sale_201 1 its) ∧
  quantity <$> stock db' !! (1, None) = Some 2 ∧
  replay (movements_of (1, None) (stock_movements db')) = -1 ∧
  map (λ m, (quantity_before m, quantity_change m, quantity_after m))
      (stock_movements db') = [(0, 5, 5); (5, -3, 2); (5, -3, 2)] ∧
  Forall balanced (stock_movements db') ∧
  ¬ ledger_replays db'.
Proof.
  intros body db'. split; [apply shop_ledger_replays|]. split.
  { simpl. intros [Hin _]%NoDup_cons. apply Hin. by left. }
  split; [by eexists|]. split; [reflexivity|]. split; [reflexivity|].
  split; [reflexivity|]. split.
  { subst db'. vm_compute stock_movements. by repeat constructor. }
  intros H.
  specialize (H (1, None) {| quantity := 2; reserved_quantity := 0;
                             updated_by := Some 7 |} eq_refl).
  vm_compute in H. discriminate.
Qed.

(** ** Alerts above the minimum level *)

(** The adjustment handlers' alert block leaves no active alert for
    the key once the quantity is above the minimum level. *)
Lemma check_low_stock_resolves db p v q m :
  m < q → active_alerts (check_low_stock db p v q m) p v = [].
Proof.
  intros Hq. unfold check_low_stock.
  replace (q <=? m) with false by (symmetry; apply Z.leb_gt; lia).
  unfold active_alerts. simpl.
  induction (low_stock_alerts db) as [|a l IH]; simpl; [done|].
  destruct (alert_matches_active p v a) eqn:Ha.
  - by rewrite alert_matches_active_resolved.
  - by rewrite Ha.
Qed.

Lemma adjust_resolves_above_minimum db u b p db' info :
  get_active_product db (ab_product_id b) = Some p →
  adjust db u b = (adjust_200 info, db') →
  min_stock_level p < adj_new_quantity info →
  active_alerts db' (ab_product_id b) (or_null (ab_variant_id b)) = [].
Proof.
  intros Hp. unfold adjust. rewrite Hp.
  repeat case_match; try done. intros [= <- <-] Hq. simpl in *.
  by apply check_low_stock_resolves.
Qed.

(** C5 fails on the refund and on the sale handler.  A (minimum level
    10) holds 20 units.  Selling 15 leaves 5 and raises an alert, as it
    should.  Refunding the sale brings the line back to 20, above the
    minimum, and the alert is still active; a further sale of one unit
    leaves 19, above the minimum, and the alert is still active.  An
    'in' adjustment of the same 15 units, in place of the refund,
    resolves the alert. *)
Theorem C5_refund_leaves_alert_active :
  let db1 := (createSale (shop 20) 7 "SALE-1" (order [line_A 15])).2 in
  let db2 := (refund db1 7 1 refund_all).2 in
  let db3 := (createSale db2 7 "SALE-2" (order [line_A 1])).2 in
  min_stock_level product_A = 10 ∧
  (quantity <$> stock db1 !! (1, None) = Some 5 ∧
   active_alerts db1 1 None = [alert_A]) ∧
  ((refund db1 7 1 refund_all).1 = refund_200 full 1 1 ∧
   quantity <$> stock db2 !! (1, None) = Some 20 ∧
   active_alerts db2 1 None = [alert_A]) ∧
  (quantity <$> stock db3 !! (1, None) = Some 19 ∧
   active_alerts db3 1 None = [alert_A]) ∧
  (quantity <$> stock (adjust db1 7 (in_A 15)).2 !! (1, None) = Some 20 ∧
   active_alerts (adjust db1 7 (in_A 15)).2 1 None = []).
Proof. vm_compute. by repeat split. Qed.

(** * Further properties of the four handlers *)

(** ** The ledger only grows *)

Lemma movements_grow_handle db r :
  stock_movements db `prefix_of` stock_movements (handle db r).
Proof.
  destruct r as [u b|u b|u n b|u i b]; simpl.
  - unfold adjust. repeat case_match; simpl; try done.
    unfold commit, beginTransaction. rewrite movements_check_low_stock.
    by apply prefix_app_r.
  - unfold bulkAdjust. case_match; [done|]. simpl.
    unfold commit, beginTransaction.
    apply (fold_left_preserves _
      (λ st, stock_movements db `prefix_of` stock_movements (bs_db st)));
      [|done].
    intros st a Hst. unfold bulk_step. repeat case_match; simpl; try done.
    rewrite movements_check_low_stock. by apply prefix_app_r.
  - unfold createSale. case_match; [done|].
    unfold createSale_tx, beginTransaction, rollback, commit.
    destruct (validate_items db (items b)) as [e|vs]; [done|].
    destruct (insert_sale db _) as [e|[sid db1]] eqn:Hins; [done|]. simpl.
    apply insert_sale_frame in Hins as (_ & Hms & _).
    apply (fold_left_preserves _
      (λ d, stock_movements db `prefix_of` stock_movements d));
      [|by rewrite Hms].
    intros d v Hd. unfold sale_step. rewrite movements_check_low_stock_sale.
    by apply prefix_app_r.
  - unfold refund. case_match; [|done]. cbv zeta. case_match; [|done].
    simpl. unfold commit, beginTransaction.
    apply (fold_left_preserves _
      (λ d, stock_movements db `prefix_of` stock_movements d)); [|done].
    intros d item Hd. unfold refund_step. case_match; [|done].
    by apply prefix_app_r.
Qed.

(** X1.  The ledger is append-only: whatever the requests, the ledger
    they leave starts with the ledger they found, entry for entry; no
    handler deletes, reorders or rewrites a ledger entry. *)
Theorem ledger_is_append_only (db : DB) (rs : list request) :
  stock_movements db `prefix_of` stock_movements (handle_all db rs) ∧
  ∀ i m, stock_movements db !! i = Some m →
         stock_movements (handle_all db rs) !! i = Some m.
Proof.
  assert (H : stock_movements db `prefix_of` stock_movements (handle_all db rs)).
  { revert db. induction rs as [|r rs IH]; intros db; simpl; [done|].
    etrans; [apply movements_grow_handle|apply IH]. }
  split; [done|]. intros i m Hi. by eapply prefix_lookup_Some.
Qed.

(** ** Stock lines and products *)

Lemma same_lines_refl db : same_lines db db.
Proof. intros k. by destruct (stock db !! k). Qed.

Lemma same_lines_trans db1 db2 db3 :
  same_lines db1 db2 → same_lines db2 db3 → same_lines db1 db3.
Proof.
  intros H12 H23 k. specialize (H12 k). specialize (H23 k).
  destruct (stock db1 !! k), (stock db2 !! k), (stock db3 !! k);
    try done. congruence.
Qed.

Lemma same_lines_ext db db1 db2 :
  stock db2 = stock db1 → same_lines db db1 → same_lines db db2.
Proof. unfold same_lines. by intros ->. Qed.

Lemma same_lines_update_stock db q u p v :
  same_lines db (update_stock db q u p v).
Proof.
  intros k. rewrite lookup_update_stock. case_decide; [subst k|].
  - by destruct (stock db !! (p, v)).
  - by destruct (stock db !! k).
Qed.

Lemma same_lines_step db0 db q u p v db' :
  stock db' = stock (update_stock db q u p v) →
  same_lines db0 db → same_lines db0 db'.
Proof.
  intros Hst H. eapply same_lines_ext; [exact Hst|].
  eapply same_lines_trans; [exact H|apply same_lines_update_stock].
Qed.

Lemma untouched_handle db r :
  same_lines db (handle db r) ∧ products (handle db r) = products db.
Proof.
  destruct r as [u b|u b|u n b|u i b]; simpl.
  - unfold adjust.
    repeat case_match; simpl; try (split; [apply same_lines_refl|done]).
    unfold commit, beginTransaction. split.
    + eapply same_lines_step; [|apply same_lines_refl].
      by rewrite stock_check_low_stock.
    + unfold check_low_stock. by repeat case_match.
  - unfold bulkAdjust. case_match; [split; [apply same_lines_refl|done]|].
    simpl. unfold commit, beginTransaction.
    apply (fold_left_preserves _
      (λ st, same_lines db (bs_db st) ∧ products (bs_db st) = products db));
      [|split; [apply same_lines_refl|done]].
    intros st a [Hl Hp]. unfold bulk_step. repeat case_match; simpl; try done.
    split.
    + eapply same_lines_step; [|exact Hl]. by rewrite stock_check_low_stock.
    + rewrite <- Hp. unfold check_low_stock. by repeat case_match.
  - unfold createSale. case_match; [split; [apply same_lines_refl|done]|].
    unfold createSale_tx, beginTransaction, rollback, commit.
    destruct (validate_items db (items b)) as [e|vs];
      [split; [apply same_lines_refl|done]|].
    destruct (insert_sale db _) as [e|[sid db1]] eqn:Hins;
      [split; [apply same_lines_refl|done]|]. simpl.
    apply insert_sale_frame in Hins as (Hst & _ & _ & _ & Hp).
    apply (fold_left_preserves _
      (λ d, same_lines db d ∧ products d = products db)).
    + intros d v [Hl Hp']. unfold sale_step. split.
      * eapply same_lines_step; [|exact Hl].
        by rewrite stock_check_low_stock_sale.
      * rewrite <- Hp'. unfold check_low_stock_sale. by repeat case_match.
    + split; [|done]. eapply same_lines_ext; [exact Hst|apply same_lines_refl].
  - unfold refund. case_match; [|split; [apply same_lines_refl|done]].
    cbv zeta. case_match; [|split; [apply same_lines_refl|done]].
    simpl. unfold commit, beginTransaction.
    apply (fold_left_preserves _
      (λ d, same_lines db d ∧ products d = products db));
      [|split; [apply same_lines_refl|done]].
    intros d item [Hl Hp]. unfold refund_step. case_match; [|done].
    split; [|done]. by eapply same_lines_step; [|exact Hl].
Qed.

(** X2.  No request creates or removes a stock line, changes a
    [reserved_quantity] or modifies a product: after any sequence of
    requests the stock table has the lines it had, each with its
    reserved quantity, and the products table is the same. *)
Theorem handlers_keep_lines_and_products (db : DB) (rs : list request) :
  dom (stock (handle_all db rs)) = dom (stock db) ∧
  (∀ k r, stock db !! k = Some r →
          ∃ r', stock (handle_all db rs) !! k = Some r' ∧
                reserved_quantity r' = reserved_quantity r) ∧
  products (handle_all db rs) = products db.
Proof.
  assert (H : same_lines db (handle_all db rs)
              ∧ products (handle_all db rs) = products db).
  { revert db. induction rs as [|r rs IH]; intros db; simpl.
    - split; [apply same_lines_refl|done].
    - destruct (untouched_handle db r) as [Hl Hp].
      destruct (IH (handle db r)) as [Hl' Hp'].
      split; [by eapply same_lines_trans|congruence]. }
  destruct H as [Hl Hp]. split; [|split; [|done]].
  - apply set_eq. intros k. rewrite !elem_of_dom. specialize (Hl k).
    destruct (stock db !! k), (stock (handle_all db rs) !! k);
      try done; split; intros [? ?]; eauto; done.
  - intros k r Hr. specialize (Hl k). rewrite Hr in Hl.
    destruct (stock (handle_all db rs) !! k) as [r'|]; [|done]. eauto.
Qed.

(** ** Requests that fail *)

(** X3.  A request that is not answered with success writes nothing:
    an adjustment answered 400 or 404, a bulk adjustment answered 400,
    a sale answered with any failure (request validation, a line that
    fails validation, a sale number already taken) and a refund
    answered 404 all leave the database exactly as it was. *)
Theorem failed_requests_write_nothing (db : DB) (user_id : Z) :
  (∀ body resp db', adjust db user_id body = (resp, db') →
                    ¬ is_adjust_200 resp → db' = db) ∧
  (∀ body db', bulkAdjust db user_id body = (bulk_400, db') → db' = db) ∧
  (∀ n body resp db', createSale db user_id n body = (resp, db') →
                      is_sale_failure resp → db' = db) ∧
  (∀ id body db', refund db user_id id body = (refund_404, db') → db' = db).
Proof.
  split; [|split; [|split]].
  - intros body resp db'. unfold adjust.
    repeat case_match; intros [= <- <-]; simpl; done.
  - intros body db'. unfold bulkAdjust. case_match; by intros [= <-].
  - intros n body resp db'. unfold createSale. case_match; [by intros [= <- <-]|].
    unfold rollback, beginTransaction.
    destruct (createSale_tx db user_id n body) as [[e|sid] tx];
      intros [= <- <-]; simpl; done.
  - intros id body db'. unfold refund. case_match; [|by intros [= <-]].
    cbv zeta. by case_match.
Qed.

Lemma failed_requests_witness :
  (adjust (shop 5) 7 (out_A 0)).2 = shop 5 ∧
  (createSale (shop 5) 7 "SALE-1" (order [line_A 9])).2 = shop 5 ∧
  (refund (shop 5) 7 1 refund_all).2 = shop 5.
Proof.
  destruct (failed_requests_write_nothing (shop 5) 7) as (Ha & _ & Hs & Hr).
  split; [|split].
  - apply (Ha (out_A 0) (adjust (shop 5) 7 (out_A 0)).1);
      [by destruct (adjust _ _ _)|]. vm_compute. tauto.
  - apply (Hs "SALE-1" (order [line_A 9])
              (createSale (shop 5) 7 "SALE-1" (order [line_A 9])).1);
      [by destruct (createSale _ _ _ _)|]. vm_compute. exact I.
  - apply (Hr 1 refund_all). reflexivity.
Defined.

(** ** Alerts after an adjustment *)

Lemma existingAlert_active_alerts db p v :
  existingAlert db p v = false ↔ active_alerts db p v = [].
Proof.
  unfold existingAlert, active_alerts. split.
  - apply existsb_false_filter.
  - induction (low_stock_alerts db) as [|a l IH]; simpl; [done|].
    destruct (alert_matches_active p v a); [done|]. exact IH.
Qed.

Lemma check_low_stock_tracks db p v q m :
  existingAlert (check_low_stock db p v q m) p v = (q <=? m).
Proof.
  destruct (q <=? m) eqn:Hq.
  - unfold check_low_stock. rewrite Hq.
    destruct (existingAlert db p v) eqn:He; [done|].
    apply existingAlert_insert.
  - apply existingAlert_active_alerts, check_low_stock_resolves.
    by apply Z.leb_gt.
Qed.

(** X4.  After a successful adjustment, single or as an item of a
    bulk request, the stock line has an active alert exactly when its
    new quantity is at or below the product's minimum level; when the
    database had at most one active alert per key, it then has exactly
    one, or none. *)
Theorem adjustment_alert_tracks_stock
    (db : DB) (user_id : Z) (body : adjust_body) (p : product) (s : stock_row) :
  get_active_product db (ab_product_id body) = Some p →
  get_stock db (ab_product_id body) (or_null (ab_variant_id body)) = Some s →
  let pid := ab_product_id body in
  let vid := or_null (ab_variant_id body) in
  let q := newQuantity_for (ab_adjustment_type body) (quantity s)
             (ab_quantity body) in
  let alerted (db' : DB) :=
    existingAlert db' pid vid = (q <=? min_stock_level p) ∧
    (single_active db →
     length (active_alerts db' pid vid)
     = if q <=? min_stock_level p then 1%nat else 0%nat) in
  (1 ≤ ab_quantity body → alerted (adjust db user_id body).2) ∧
  (∀ rs fs, alerted
     (bs_db (bulk_step user_id (ab_notes body)
               {| bs_db := db; results := rs; failed := fs |}
               {| ba_product_id := ab_product_id body;
                  ba_adjustment_type := ab_adjustment_type body;
                  ba_quantity := ab_quantity body;
                  ba_variant_id := ab_variant_id body |}))).
Proof.
  intros Hp Hs pid vid q alerted.
  assert (Hmain : ∀ db1, low_stock_alerts db1 = low_stock_alerts db →
            alerted (check_low_stock db1 pid vid q (min_stock_level p))).
  { intros db1 Hal. split; [apply check_low_stock_tracks|].
    intros Hone.
    assert (H1 : single_active (check_low_stock db1 pid vid q (min_stock_level p))).
    { apply single_active_check_low_stock. by eapply single_active_ext. }
    specialize (H1 pid vid).
    pose proof (check_low_stock_tracks db1 pid vid q (min_stock_level p)) as Ht.
    destruct (q <=? min_stock_level p).
    - destruct (active_alerts _ pid vid) as [|a [|a' l]] eqn:Ha; simpl in *;
        [|done|lia].
      apply existingAlert_active_alerts in Ha. congruence.
    - apply existingAlert_active_alerts in Ht. by rewrite Ht. }
  split.
  - intros Hq. unfold adjust.
    replace (1 <=? ab_quantity body) with true by (symmetry; by apply Z.leb_le).
    cbn [negb]. cbv zeta. rewrite Hp, Hs.
    cbn [snd]. unfold commit, beginTransaction. by apply Hmain.
  - intros rs fs. unfold bulk_step.
    cbn [ba_product_id ba_adjustment_type ba_quantity ba_variant_id bs_db].
    cbv zeta. rewrite Hp, Hs.
    cbn [bs_db]. by apply Hmain.
Qed.

Lemma adjustment_alert_witness :
  existingAlert (adjust (shop 12) 7 (out_A 2)).2 1 None = true ∧
  existingAlert (adjust (shop 12) 7 (out_A 1)).2 1 None = false.
Proof.
  split.
  - destruct (adjustment_alert_tracks_stock (shop 12) 7 (out_A 2)
                product_A (row 12) eq_refl eq_refl) as [H _].
    destruct H as [H _]; [simpl; lia|]. exact H.
  - destruct (adjustment_alert_tracks_stock (shop 12) 7 (out_A 1)
                product_A (row 12) eq_refl eq_refl) as [H _].
    destruct H as [H _]; [simpl; lia|]. exact H.
Defined.

(** ** Adjustments in sequence *)

Lemma alerts_check_low_stock_ext db1 db2 p v q m :
  low_stock_alerts db1 = low_stock_alerts db2 →
  low_stock_alerts (check_low_stock db1 p v q m)
  = low_stock_alerts (check_low_stock db2 p v q m).
Proof.
  intros H. unfold check_low_stock, existingAlert. rewrite H.
  repeat case_match; simpl; by rewrite ?H.
Qed.

(** What a successful single adjustment leaves behind. *)
Lemma adjust_effect db u b p s :
  1 ≤ ab_quantity b →
  get_active_product db (ab_product_id b) = Some p →
  get_stock db (ab_product_id b) (or_null (ab_variant_id b)) = Some s →
  let q := newQuantity_for (ab_adjustment_type b) (quantity s) (ab_quantity b) in
  ∃ db' m,
    adjust db u b =
    (adjust_200 {| adj_type := ab_adjustment_type b;
                   adj_quantity_change := js_sub q (quantity s);
                   adj_previous_quantity := quantity s;
                   adj_new_quantity := q |}, db') ∧
    products db' = products db ∧
    get_stock db' (ab_product_id b) (or_null (ab_variant_id b))
    = Some {| quantity := q; reserved_quantity := reserved_quantity s;
              updated_by := Some u |} ∧
    stock_movements db' = stock_movements db ++ [m] ∧
    movement_key m = (ab_product_id b, or_null (ab_variant_id b)) ∧
    sm_movement_type m = movement_of_adjustment (ab_adjustment_type b) ∧
    quantity_before m = quantity s ∧ quantity_after m = q ∧
    quantity_change m = js_sub q (quantity s) ∧
    low_stock_alerts db' =
    low_stock_alerts (check_low_stock db (ab_product_id b)
                        (or_null (ab_variant_id b)) q (min_stock_level p)).
Proof.
  intros Hq Hp Hs q. unfold adjust.
  replace (1 <=? ab_quantity b) with true by (symmetry; by apply Z.leb_le).
  cbn [negb]. cbv zeta. rewrite Hp, Hs. do 2 eexists.
  split; [reflexivity|]. unfold commit, beginTransaction.
  split; [unfold check_low_stock; by repeat case_match|]. split.
  { unfold get_stock in *. rewrite stock_check_low_stock.
    cbn [stock insert_stock_movement with_stock_movements].
    rewrite lookup_update_stock, decide_True by done. by rewrite Hs. }
  rewrite movements_check_low_stock.
  split; [reflexivity|]. do 5 (split; [reflexivity|]).
  by apply alerts_check_low_stock_ext.
Qed.

(** X5.  Setting a stock line to an absolute quantity is idempotent
    on the stock and on the alerts: the same 'adjustment' request sent
    a second time is answered with success again, leaves the line at
    the same quantity and the alert table as it was, and adds one
    ledger entry from that quantity to itself, with change 0. *)
Theorem absolute_adjustment_twice
    (db : DB) (user_id product_id d : Z) (variant_id : option Z)
    (nt : option string) (p : product) (s : stock_row) :
  1 ≤ d →
  get_active_product db product_id = Some p →
  get_stock db product_id (or_null variant_id) = Some s →
  let body := adjustment_of adj_adjustment product_id variant_id d nt in
  let db1 := (adjust db user_id body).2 in
  let db2 := (adjust db1 user_id body).2 in
  quantity <$> get_stock db1 product_id (or_null variant_id) = Some d ∧
  quantity <$> get_stock db2 product_id (or_null variant_id) = Some d ∧
  low_stock_alerts db2 = low_stock_alerts db1 ∧
  (adjust db1 user_id body).1 =
  adjust_200 {| adj_type := adj_adjustment; adj_quantity_change := 0;
                adj_previous_quantity := d; adj_new_quantity := d |} ∧
  ∃ m, stock_movements db2 = stock_movements db1 ++ [m] ∧
       quantity_before m = d ∧ quantity_after m = d ∧ quantity_change m = 0.
Proof.
  intros Hd Hp Hs body db1 db2.
  destruct (adjust_effect db user_id body p s Hd Hp Hs)
    as (d1 & m1 & He1 & Hp1 & Hs1 & _ & _ & _ & _ & _ & _ & Hal1).
  assert (Hdb1 : db1 = d1) by (subst db1; by rewrite He1). clearbody db1.
  subst d1. cbn in Hs1, Hal1.
  assert (Hp' : get_active_product db1 (ab_product_id body) = Some p).
  { unfold get_active_product in *. by rewrite Hp1. }
  destruct (adjust_effect db1 user_id body p _ Hd Hp' Hs1)
    as (d2 & m2 & He2 & _ & Hs2 & Hms2 & _ & _ & Hb2 & Ha2 & Hc2 & Hal2).
  assert (Hdb2 : db2 = d2) by (subst db2; by rewrite He2). clearbody db2.
  subst d2. cbn in Hs2, Hms2, Hb2, Ha2, Hc2, Hal2, He2.
  rewrite Hs1, Hs2. split; [done|]. split; [done|]. split.
  - rewrite Hal2, Hal1.
    rewrite (alerts_check_low_stock_ext db1
               (check_low_stock db product_id (or_null variant_id) d
                  (min_stock_level p))) by done.
    by rewrite check_low_stock_idem.
  - split.
    + rewrite He2. cbn. by rewrite js_sub_diag.
    + exists m2. rewrite Hc2. repeat split; try done. apply js_sub_diag.
Qed.

Lemma absolute_adjustment_witness :
  quantity <$> get_stock
    (adjust (adjust (shop 5) 7 (adjustment_of adj_adjustment 1 None 8 None)).2
            7 (adjustment_of adj_adjustment 1 None 8 None)).2 1 None = Some 8.
Proof.
  destruct (absolute_adjustment_twice (shop 5) 7 1 8 None None product_A (row 5))
    as (_ & H & _); [lia|reflexivity|reflexivity|exact H].
Defined.

(** X6.  Receiving [d] units and then withdrawing [d] units brings a
    non-negative stock line back to its quantity, as long as the
    quantity and [d] add up to a safe integer (beyond, the sum is
    rounded).  The other way round it does not: withdrawing [d] and
    then receiving [d] leaves the largest of the original quantity and
    [d], since the withdrawal is clamped at zero and the receipt is
    not.  The quantities are JSON numbers. *)
Theorem in_and_out_adjustments
    (db : DB) (user_id product_id d : Z) (variant_id : option Z)
    (nt : option string) (p : product) (s : stock_row) :
  1 ≤ d → 0 ≤ quantity s → quantity s + d ≤ MAX_SAFE_INTEGER →
  get_active_product db product_id = Some p →
  get_stock db product_id (or_null variant_id) = Some s →
  let receive := adjustment_of adj_in product_id variant_id d nt in
  let withdraw := adjustment_of adj_out product_id variant_id d nt in
  let then_ (b1 b2 : adjust_body) :=
    (adjust (adjust db user_id b1).2 user_id b2).2 in
  quantity <$> get_stock (then_ receive withdraw) product_id (or_null variant_id)
  = Some (quantity s) ∧
  quantity <$> get_stock (then_ withdraw receive) product_id (or_null variant_id)
  = Some (Z.max (quantity s) d).
Proof.
  intros Hd Hq Hsafe Hp Hs receive withdraw then_.
  unfold MAX_SAFE_INTEGER in Hsafe.
  assert (Hgo : ∀ b1 b2,
    ab_product_id b1 = product_id → ab_variant_id b1 = variant_id →
    ab_product_id b2 = product_id → ab_variant_id b2 = variant_id →
    ab_quantity b1 = d → ab_quantity b2 = d →
    quantity <$> get_stock (then_ b1 b2) product_id (or_null variant_id)
    = Some (newQuantity_for (ab_adjustment_type b2)
              (newQuantity_for (ab_adjustment_type b1) (quantity s) d) d)).
  { intros b1 b2 Hp1 Hv1 Hp2 Hv2 Hd1 Hd2. subst then_. cbv beta.
    destruct (adjust_effect db user_id b1 p s)
      as (d1 & m1 & He1 & Hpr1 & Hs1 & _); [lia|congruence|congruence|].
    rewrite He1. cbn [snd].
    assert (Hp' : get_active_product d1 (ab_product_id b2) = Some p).
    { unfold get_active_product. rewrite Hpr1, Hp2. exact Hp. }
    rewrite Hp1, Hv1, Hd1 in Hs1. rewrite <- Hp2, <- Hv2 in Hs1.
    destruct (adjust_effect d1 user_id b2 p _ ltac:(lia) Hp' Hs1)
      as (d2 & m2 & He2 & _ & Hs2 & _).
    rewrite He2. cbn [snd]. rewrite <- Hp2, <- Hv2, Hs2. cbn. by rewrite Hd2. }
  split.
  - rewrite (Hgo receive withdraw) by done.
    cbn [receive withdraw adjustment_of ab_adjustment_type newQuantity_for].
    f_equal. rewrite js_add_exact by lia. rewrite js_sub_exact by lia. lia.
  - rewrite (Hgo withdraw receive) by done.
    cbn [receive withdraw adjustment_of ab_adjustment_type newQuantity_for].
    f_equal. rewrite js_sub_exact by lia. rewrite js_add_exact by lia. lia.
Qed.

Lemma in_and_out_witness :
  quantity <$> get_stock
    (adjust (adjust (shop 3) 7 (adjustment_of adj_out 1 None 10 None)).2
            7 (adjustment_of adj_in 1 None 10 None)).2 1 None = Some 10.
Proof.
  destruct (in_and_out_adjustments (shop 3) 7 1 10 None None product_A (row 3))
    as (_ & H);
    [lia|simpl; lia|unfold MAX_SAFE_INTEGER; simpl; lia
    |reflexivity|reflexivity|exact H].
Defined.

(** ** Bulk and single adjustments *)

Lemma bulk_step_as_adjust u nt x st a :
  nt = Some x → x ≠ EmptyString → 1 ≤ ba_quantity a →
  bs_db (bulk_step u nt st a)
  = (adjust (bs_db st) u (adjust_body_of nt a)).2.
Proof.
  intros -> Hx Hq. unfold bulk_step, adjust, adjust_body_of.
  cbn [ab_product_id ab_adjustment_type ab_quantity ab_notes ab_variant_id].
  replace (1 <=? ba_quantity a) with true by (symmetry; by apply Z.leb_le).
  cbn [negb]. cbv zeta.
  destruct (get_active_product _ _) as [p|]; [|done].
  destruct (get_stock _ _ _) as [cs|]; [|done].
  cbn [bs_db snd]. unfold commit, beginTransaction.
  unfold or_default, or_null_s. by destruct x.
Qed.

Lemma bulk_loop_as_adjusts u x l st :
  x ≠ EmptyString → Forall (λ a, 1 ≤ ba_quantity a) l →
  bs_db (fold_left (bulk_step u (Some x)) l st)
  = handle_all (bs_db st)
      (map (λ a, req_adjust u (adjust_body_of (Some x) a)) l).
Proof.
  intros Hx Hq. revert st.
  induction Hq as [|a l Ha _ IH]; intros st; [done|].
  cbn [fold_left map handle_all]. cbn [handle].
  rewrite <- (bulk_step_as_adjust u (Some x) x st a) by done.
  apply IH.
Qed.

(** X7.  A bulk request whose note, once trimmed by the chain, is not
    empty, and whose quantities are all at least 1, leaves exactly the
    database that the same adjustments leave when they are sent one by
    one, in order, as single adjustments with that note. *)
Theorem bulk_is_the_sequence_of_single_adjustments
    (trim : string → string) (db : DB) (user_id : Z) (body : bulk_body)
    (x : string) :
  bb_notes body = Some x → trim x ≠ EmptyString →
  adjustments body ≠ [] →
  Forall (λ a, 1 ≤ ba_quantity a) (adjustments body) →
  (bulkAdjust db user_id (bulk_chain trim body)).2
  = handle_all db
      (map (λ a, req_adjust user_id
                   (adjust_chain trim (adjust_body_of (Some x) a)))
           (adjustments body)).
Proof.
  intros Hnt Hx Hne Hq. unfold bulkAdjust.
  cbn [bulk_chain adjustments bb_notes].
  rewrite bool_decide_eq_true_2 by done.
  replace (forallb _ _) with true.
  2:{ symmetry. apply forallb_forall. intros a Ha. apply Z.leb_le.
      rewrite Forall_forall in Hq. apply list_elem_of_In, Hq in Ha. lia. }
  cbn [andb negb snd]. unfold commit, beginTransaction. rewrite Hnt.
  exact (bulk_loop_as_adjusts user_id (trim x) (adjustments body) _ Hx Hq).
Qed.

Lemma bulk_sequence_witness :
  (bulkAdjust (shop 5) 7
     (bulk_chain trim_spaces
        {| adjustments := adjustments batch; bb_notes := Some " count " |})).2
  = handle_all (shop 5)
      (map (λ a, req_adjust 7
                   (adjust_chain trim_spaces
                      (adjust_body_of (Some " count ") a)))
           (adjustments batch)).
Proof.
  apply (bulk_is_the_sequence_of_single_adjustments trim_spaces (shop 5) 7
           {| adjustments := adjustments batch; bb_notes := Some " count " |}
           " count "); [reflexivity|vm_compute; discriminate|discriminate|].
  unfold batch. simpl. repeat (apply Forall_cons; split; [simpl; lia|]).
  apply Forall_nil_2.
Defined.

(** ** What a sale writes *)

Lemma validate_items_lines db its vs :
  validate_items db its = inr vs → Forall2 (validated_from db) its vs.
Proof.
  revert vs. induction its as [|item its IH]; intros vs H; simpl in H.
  - simplify_eq. constructor.
  - destruct (validate_item db item) as [|v] eqn:Hv; [done|].
    destruct (validate_items db its) as [|vs']; [done|]. simplify_eq.
    constructor; [|by apply IH].
    unfold validate_item, get_stock in Hv.
    repeat case_match; simplify_eq. repeat split.
    eexists. by split.
Qed.

Lemma createSale_201 db u n body sid its db' :
  createSale db u n body = (sale_201 sid its, db') →
  ∃ vs,
    validate_items db (items body) = inr vs ∧
    sid = new_sale_id db ∧
    db' = fold_left (sale_step u sid n) vs
            (with_sales db (<[sid := sale_of u n body]> (sales db)) sid) ∧
    its = List.filter (λ si, bool_decide (si_sale_id si = sid)) (sale_items db').
Proof.
  unfold createSale. case_match; [done|].
  unfold createSale_tx, beginTransaction, rollback, commit.
  destruct (validate_items db (items body)) as [e|vs]; [done|].
  unfold insert_sale. fold (sale_of u n body).
  destruct (bool_decide (map_Exists _ _)); [done|].
  intros [= ? ? ?]. subst. by exists vs.
Qed.

Lemma max_item_id_snoc its si :
  max_item_id (its ++ [si]) = Z.max (max_item_id its) (si_id si).
Proof.
  induction its as [|x its IH]; simpl; [lia|]. rewrite IH. lia.
Qed.

Lemma max_item_id_ge its si : si ∈ its → si_id si ≤ max_item_id its.
Proof.
  induction its as [|x its IH]; [by intros ?%elem_of_nil|].
  intros [->|Hin]%elem_of_cons; simpl; [lia|].
  specialize (IH Hin). lia.
Qed.

Lemma max_rowid_ge {A} (m : gmap Z A) k :
  is_Some (m !! k) → k ≤ max_rowid m.
Proof.
  unfold max_rowid. revert k.
  apply (map_fold_weak_ind
           (λ acc (m : gmap Z A), ∀ k, is_Some (m !! k) → k ≤ acc)).
  - intros k [? H]. by rewrite lookup_empty in H.
  - intros i x m' acc Hi IH k Hk.
    destruct (decide (i = k)) as [->|Hne]; [lia|].
    rewrite lookup_insert_ne in Hk by done. specialize (IH k Hk). lia.
Qed.

(** The id of a new sale is above every id of the table: the INSERT
    replaces no row. *)
Lemma new_sale_id_fresh db :
  sales db !! new_sale_id db = None ∧
  (∀ k, is_Some (sales db !! k) → k < new_sale_id db) ∧
  seq_sales db < new_sale_id db.
Proof.
  assert (H : ∀ k, is_Some (sales db !! k) → k < new_sale_id db).
  { intros k Hk%max_rowid_ge. unfold new_sale_id. lia. }
  split; [|split; [done|unfold new_sale_id; lia]].
  destruct (sales db !! new_sale_id db) eqn:Hs; [|done].
  assert (new_sale_id db < new_sale_id db) by (apply H; eauto). lia.
Qed.

Lemma new_sale_item_id_fresh db :
  (∀ si, si ∈ sale_items db → si_id si < new_sale_item_id db) ∧
  seq_sale_items db < new_sale_item_id db.
Proof.
  split; [|unfold new_sale_item_id; lia].
  intros si Hsi%max_item_id_ge. unfold new_sale_item_id. lia.
Qed.

Lemma sale_loop_writes u sid n vs db :
  let db' := fold_left (sale_step u sid n) vs db in
  sales db' = sales db ∧ seq_sales db' = seq_sales db ∧
  ∃ new ms,
    sale_items db' = sale_items db ++ new ∧
    stock_movements db' = stock_movements db ++ ms ∧
    Forall2 (λ v si, si_sale_id si = sid ∧
                     si_product_id si = vi_product_id v ∧
                     si_variant_id si = vi_variant_id v ∧
                     si_quantity si = vi_quantity v) vs new ∧
    Forall2 (λ v m, movement_key m = (vi_product_id v, vi_variant_id v) ∧
                    sm_movement_type m = mt_sale ∧
                    quantity_change m = - vi_quantity v ∧
                    quantity_after m
                    = js_sub (quantity_before m) (vi_quantity v) ∧
                    reference_id m = Some sid ∧
                    reference_type m = Some "sale" ∧
                    created_by m = u) vs ms ∧
    (∀ (i : nat) si, new !! i = Some si →
                     si_id si = new_sale_item_id db + Z.of_nat i).
Proof.
  revert db. induction vs as [|v vs IH]; intros db.
  - simpl. split; [done|]. split; [done|]. exists [], [].
    rewrite !app_nil_r. repeat split; try constructor. by intros i si.
  - cbn [fold_left].
    destruct (IH (sale_step u sid n db v))
      as (Hs & Hq & new & ms & Hnew & Hms & Hall1 & Hall2 & Hids).
    assert (Hstep :
      sales (sale_step u sid n db v) = sales db ∧
      seq_sales (sale_step u sid n db v) = seq_sales db ∧
      seq_sale_items (sale_step u sid n db v) = new_sale_item_id db ∧
      ∃ si m, sale_items (sale_step u sid n db v) = sale_items db ++ [si] ∧
              stock_movements (sale_step u sid n db v)
              = stock_movements db ++ [m] ∧
              si_id si = new_sale_item_id db ∧
              (si_sale_id si = sid ∧ si_product_id si = vi_product_id v ∧
               si_variant_id si = vi_variant_id v ∧
               si_quantity si = vi_quantity v) ∧
              (movement_key m = (vi_product_id v, vi_variant_id v) ∧
               sm_movement_type m = mt_sale ∧
               quantity_change m = - vi_quantity v ∧
               quantity_after m
               = js_sub (quantity_before m) (vi_quantity v) ∧
               reference_id m = Some sid ∧
               reference_type m = Some "sale" ∧ created_by m = u)).
    { unfold sale_step.
      rewrite movements_check_low_stock_sale.
      unfold check_low_stock_sale, insert_low_stock_alert.
      repeat case_match; simpl; (do 3 (split; [done|]));
        do 2 eexists; by repeat split. }
    destruct Hstep as (Hs1 & Hq1 & Hsq1 & si & m & Hsi & Hm & Hid & Hsi' & Hm').
    split; [congruence|]. split; [congruence|].
    exists (si :: new), (m :: ms).
    split; [by rewrite Hnew, Hsi, <- app_assoc|].
    split; [by rewrite Hms, Hm, <- app_assoc|].
    split; [by constructor|]. split; [by constructor|].
    assert (Hnext : new_sale_item_id (sale_step u sid n db v)
                    = new_sale_item_id db + 1).
    { unfold new_sale_item_id at 1. rewrite Hsq1, Hsi, max_item_id_snoc, Hid.
      unfold new_sale_item_id. lia. }
    intros [|i] si'; simpl.
    + intros [= <-]. lia.
    + intros Hi. rewrite (Hids _ _ Hi), Hnext. lia.
Qed.

Lemma Forall2_compose {A B C} (P : A → B → Prop) (Q : B → C → Prop)
    (R : A → C → Prop) l1 l2 l3 :
  (∀ a b c, P a b → Q b c → R a c) →
  Forall2 P l1 l2 → Forall2 Q l2 l3 → Forall2 R l1 l3.
Proof.
  intros HR H12. revert l3.
  induction H12 as [|a b l1 l2 Hab _ IH]; intros l3 H23.
  - apply Forall2_nil_inv_l in H23 as ->. constructor.
  - apply Forall2_cons_inv_l in H23 as (c & l3' & Hbc & H23 & ->).
    constructor; eauto.
Qed.

Lemma createSale_booked
    (db : DB) (user_id : Z) (saleNumber : string) (body : sale_body)
    (sid : Z) (its : list sale_item) (db' : DB) :
  createSale db user_id saleNumber body = (sale_201 sid its, db') →
  sid = new_sale_id db ∧
  sales db' = <[sid := sale_of user_id saleNumber body]> (sales db) ∧
  ∃ new ms,
    sale_items db' = sale_items db ++ new ∧
    Forall2 (item_of_line sid) (items body) new ∧
    (∀ (i : nat) si, new !! i = Some si →
                     si_id si = new_sale_item_id db + Z.of_nat i) ∧
    its = List.filter (λ si, bool_decide (si_sale_id si = sid))
                      (sale_items db) ++ new ∧
    stock_movements db' = stock_movements db ++ ms ∧
    Forall2 (sold_by user_id sid) (items body) ms.
Proof.
  intros (vs & Hvs & -> & -> & ->)%createSale_201.
  apply validate_items_lines in Hvs.
  destruct (sale_loop_writes user_id (new_sale_id db) saleNumber vs
              (with_sales db (<[new_sale_id db := sale_of user_id saleNumber body]>
                                (sales db)) (new_sale_id db)))
    as (Hs & _ & new & ms & Hnew & Hms & Hall1 & Hall2 & Hids).
  split; [done|]. split; [by rewrite Hs|]. exists new, ms.
  assert (Hitems : Forall2 (item_of_line (new_sale_id db)) (items body) new).
  { eapply Forall2_compose; [|exact Hvs|exact Hall1].
    intros l v si (Hp & Hv & Hq & _) (? & ? & ? & ?).
    unfold item_of_line. repeat split; congruence. }
  split; [done|]. split; [done|]. split; [done|]. split.
  - rewrite Hnew. cbn [sale_items with_sales]. rewrite List.filter_app.
    f_equal. apply forallb_filter_id, forallb_forall.
    intros si Hsi. apply list_elem_of_In in Hsi.
    apply list_elem_of_lookup in Hsi as [i Hi].
    destruct (Forall2_lookup_r _ _ _ _ _ Hitems Hi) as (l & _ & Hl & _).
    by apply bool_decide_eq_true.
  - split; [done|].
    eapply Forall2_compose; [|exact Hvs|exact Hall2].
    intros l v m (Hp & Hv & Hq & _) (? & ? & ? & ? & ? & ? & ?).
    unfold sold_by, line_key. repeat split; try congruence.
Qed.

(** X8.  An accepted sale is booked in full.  The sale row is new: its
    id is above every id of the table and above the table's sequence,
    so no row is replaced; it has status 'completed', the cashier who
    sent it, and the payment method, customer name and notes as the
    chain has trimmed them.  For each order line, in order, one sale
    item of that sale (with the line's product, variant and quantity,
    and consecutive ids above every id of the table) and one 'sale'
    ledger entry (on the line's stock key, with change minus the
    quantity, referring to the sale, attributed to the cashier) are
    appended; the response lists the items of the sale. *)
Theorem accepted_sale_is_booked_in_full
    (trim : string → string) (db : DB) (user_id : Z) (saleNumber : string)
    (body : sale_body) (sid : Z) (its : list sale_item) (db' : DB) :
  createSale db user_id saleNumber (sale_chain trim body)
  = (sale_201 sid its, db') →
  (sales db !! sid = None ∧
   (∀ k, is_Some (sales db !! k) → k < sid) ∧ seq_sales db < sid) ∧
  sales db'
  = <[sid := {| sale_number := saleNumber;
                payment_method :=
                  default "cash" (trim <$> sb_payment_method body);
                status := completed;
                cashier_id := user_id;
                customer_name := or_null_s (trim <$> sb_customer_name body);
                notes := or_null_s (trim <$> sb_notes body) |}]> (sales db) ∧
  ∃ new ms first,
    sale_items db' = sale_items db ++ new ∧
    Forall2 (item_of_line sid) (items body) new ∧
    (∀ si, si ∈ sale_items db → si_id si < first) ∧
    seq_sale_items db < first ∧
    (∀ (i : nat) si, new !! i = Some si → si_id si = first + Z.of_nat i) ∧
    its = List.filter (λ si, bool_decide (si_sale_id si = sid))
                      (sale_items db) ++ new ∧
    stock_movements db' = stock_movements db ++ ms ∧
    Forall2 (sold_by user_id sid) (items body) ms.
Proof.
  intros He.
  destruct (createSale_booked _ _ _ _ _ _ _ He)
    as (-> & Hsales & new & ms & Hnew & Hitems & Hids & Hits & Hms & Hsold).
  split; [apply new_sale_id_fresh|]. split; [exact Hsales|].
  exists new, ms, (new_sale_item_id db).
  destruct (new_sale_item_id_fresh db) as [Hold Hseq].
  by repeat split.
Qed.

Lemma accepted_sale_witness :
  ∃ its db', createSale shop2 7 "SALE-1"
               (sale_chain trim_spaces (order [line_A 2; line_B 3]))
             = (sale_201 1 its, db') ∧
             length (sale_items db') = 2%nat ∧
             length (stock_movements db') = 2%nat.
Proof.
  destruct (createSale shop2 7 "SALE-1"
              (sale_chain trim_spaces (order [line_A 2; line_B 3])))
    as [resp db'] eqn:He.
  assert (Hr : resp = (createSale shop2 7 "SALE-1"
                         (sale_chain trim_spaces
                            (order [line_A 2; line_B 3]))).1)
    by by rewrite He.
  vm_compute in Hr. subst resp.
  destruct (accepted_sale_is_booked_in_full _ _ _ _ _ _ _ _ He)
    as (_ & _ & new & ms & first & Hnew & Hall1 & _ & _ & _ & _ & Hms & Hall2).
  do 2 eexists. split; [reflexivity|].
  rewrite Hnew, Hms, !length_app.
  apply Forall2_length in Hall1, Hall2. simpl in *. lia.
Defined.

(** ** What a sale debits *)

Lemma ordered_cons k l ls :
  ordered k (l :: ls) =
  (if decide (line_key l = k) then sl_quantity l else 0) + ordered k ls.
Proof.
  unfold ordered. cbn [fold_right].
  rewrite bool_decide_decide. by destruct (decide _).
Qed.

Lemma ordered_absent k ls :
  k ∉ map line_key ls → ordered k ls = 0.
Proof.
  induction ls as [|l ls IH]; [done|].
  rewrite ordered_cons. cbn [map]. intros Hk.
  apply not_elem_of_cons in Hk as [Hne Hk].
  rewrite decide_False by done. rewrite IH by done. lia.
Qed.

Lemma ordered_distinct l ls :
  NoDup (map line_key ls) → l ∈ ls →
  ordered (line_key l) ls = sl_quantity l.
Proof.
  induction ls as [|l' ls IH]; [by intros _ ?%elem_of_nil|].
  cbn [map]. intros [Hl' Hnd]%NoDup_cons Hin. rewrite ordered_cons.
  apply elem_of_cons in Hin as [->|Hin].
  - rewrite decide_True by done. rewrite ordered_absent by done. lia.
  - rewrite decide_False.
    + rewrite IH by done. lia.
    + intros Heq. apply Hl'. rewrite Heq. apply list_elem_of_fmap. eauto.
Qed.

Lemma credited_ordered sid k ls (its : list sale_item) :
  Forall2 (item_of_line sid) ls its → credited k its = ordered k ls.
Proof.
  induction 1 as [|l si ls its (_ & Hp & Hv & Hq) _ IH]; [done|].
  rewrite credited_cons, ordered_cons, IH.
  unfold item_key, line_key. rewrite Hp, Hv, Hq. done.
Qed.

Lemma lookup_sale_step u sid n db v k :
  stock (sale_step u sid n db v) !! k =
  if decide ((vi_product_id v, vi_variant_id v) = k)
  then (λ r, {| quantity := js_sub (vi_current_stock v) (vi_quantity v);
                reserved_quantity := reserved_quantity r;
                updated_by := Some u |})
       <$> stock db !! (vi_product_id v, vi_variant_id v)
  else stock db !! k.
Proof.
  unfold sale_step. rewrite stock_check_low_stock_sale. simpl.
  apply lookup_alter.
Qed.

Lemma sale_loop_stock u sid n vs db :
  NoDup (map (λ v, (vi_product_id v, vi_variant_id v)) vs) →
  Forall (snapshot_current db) vs →
  Forall (λ v, 0 ≤ vi_quantity v ≤ vi_current_stock v
               ∧ safe (vi_current_stock v)) vs →
  let db' := fold_left (sale_step u sid n) vs db in
  (∀ v, v ∈ vs →
        ∃ r r', stock db !! (vi_product_id v, vi_variant_id v) = Some r ∧
                stock db' !! (vi_product_id v, vi_variant_id v) = Some r' ∧
                quantity r' = quantity r - vi_quantity v) ∧
  (∀ k, k ∉ map (λ v, (vi_product_id v, vi_variant_id v)) vs →
        stock db' !! k = stock db !! k).
Proof.
  revert db. induction vs as [|v vs IH]; intros db Hnd Hsnap Hcov.
  - split; [by intros v ?%elem_of_nil|done].
  - cbn [map] in Hnd. apply NoDup_cons in Hnd as [Hv Hnd].
    apply Forall_cons in Hsnap as [(r & Hr & Hq) Hsnap].
    apply Forall_cons in Hcov as [[Hqty Hsafe] Hcov].
    unfold safe, MAX_SAFE_INTEGER in Hsafe.
    cbn [fold_left].
    assert (Hsnap1 : Forall (snapshot_current (sale_step u sid n db v)) vs).
    { rewrite Forall_forall in Hsnap. apply Forall_forall. intros v' Hv'.
      destruct (Hsnap v' Hv') as (r' & Hr' & Hq'). exists r'. split; [|done].
      rewrite lookup_sale_step, decide_False; [done|].
      intros Heq. apply Hv. rewrite Heq. apply list_elem_of_fmap. eauto. }
    destruct (IH _ Hnd Hsnap1 Hcov) as [Ha Hb]. split.
    + intros v' [->|Hin]%elem_of_cons.
      * exists r. eexists. split; [done|].
        rewrite Hb by done. rewrite lookup_sale_step, decide_True by done.
        rewrite Hr. split; [reflexivity|]. simpl.
        rewrite js_sub_exact by lia. lia.
      * destruct (Ha v' Hin) as (r1 & r' & Hr1 & Hr' & Hq').
        rewrite lookup_sale_step, decide_False in Hr1.
        -- exists r1, r'. by repeat split.
        -- intros Heq. apply Hv. rewrite Heq. apply list_elem_of_fmap. eauto.
    + intros k Hk. cbn [map] in Hk. apply not_elem_of_cons in Hk as [Hne Hk].
      rewrite Hb by done. by rewrite lookup_sale_step, decide_False.
Qed.

Lemma createSale_201_quantities db u n body sid its db' :
  createSale db u n body = (sale_201 sid its, db') →
  Forall (λ l, 1 ≤ sl_quantity l) (items body).
Proof.
  unfold createSale.
  destruct (bool_decide (items body ≠ [])
            && forallb (λ i, 1 <=? sl_quantity i) (items body)) eqn:Hv;
    [|done].
  intros _. apply andb_prop in Hv as [_ Hq].
  apply Forall_forall. intros l Hl%list_elem_of_In.
  rewrite forallb_forall in Hq. apply Z.leb_le. by apply Hq.
Qed.

(** The debits of an accepted sale are exact when the stock lines it
    names hold safe integers. *)
Lemma createSale_exact db u n body sid its db' vs :
  createSale db u n body = (sale_201 sid its, db') →
  validate_items db (items body) = inr vs →
  (∀ k r, stock db !! k = Some r → k ∈ map line_key (items body) →
          quantity r ≤ MAX_SAFE_INTEGER) →
  Forall (λ v, 0 ≤ vi_quantity v ≤ vi_current_stock v
               ∧ safe (vi_current_stock v)) vs.
Proof.
  intros He Hvs Hsafe.
  pose proof (createSale_201_quantities _ _ _ _ _ _ _ He) as Hq.
  pose proof (validate_items_covered _ _ _ Hvs) as Hcov.
  pose proof (validate_items_lines _ _ _ Hvs) as Hlines.
  apply Forall_forall. intros v Hv.
  apply list_elem_of_lookup in Hv as [i Hi].
  destruct (Forall2_lookup_r _ _ _ _ _ Hlines Hi)
    as (l & Hl & Hp & Hvar & Hqv & (r & Hr & Hcur)).
  assert (Hlin : l ∈ items body) by (apply list_elem_of_lookup; eauto).
  rewrite Forall_forall in Hq. rewrite Forall_forall in Hcov.
  specialize (Hq l Hlin).
  specialize (Hcov v ltac:(apply list_elem_of_lookup; eauto)).
  rewrite Hp, Hvar in Hr. fold (line_key l) in Hr.
  assert (quantity r ≤ MAX_SAFE_INTEGER).
  { apply (Hsafe (line_key l)); [done|]. apply list_elem_of_fmap. eauto. }
  unfold safe, MAX_SAFE_INTEGER in *. lia.
Qed.

Lemma createSale_debits db u n body sid its db' :
  createSale db u n body = (sale_201 sid its, db') →
  NoDup (map line_key (items body)) →
  (∀ k r, stock db !! k = Some r → k ∈ map line_key (items body) →
          quantity r ≤ MAX_SAFE_INTEGER) →
  ∀ k r, stock db !! k = Some r →
         ∃ r', stock db' !! k = Some r' ∧
               quantity r' = quantity r - ordered k (items body) ∧
               (k ∈ map line_key (items body) → 0 ≤ quantity r').
Proof.
  intros He Hnd Hsafe k r Hr.
  pose proof He as (vs & Hvs & -> & -> & _)%createSale_201.
  pose proof (createSale_exact _ _ _ _ _ _ _ _ He Hvs Hsafe) as Hex.
  pose proof (validate_items_covered _ _ _ Hvs) as Hcov.
  pose proof (validate_items_lines _ _ _ Hvs) as Hlines.
  apply validate_items_snapshot in Hvs as [Hsnap Hkeys].
  set (db0 := with_sales db _ _) in *.
  destruct (sale_loop_stock u (new_sale_id db) n vs db0) as [Ha Hb].
  { by rewrite Hkeys. }
  { done. }
  { done. }
  destruct (decide (k ∈ map line_key (items body))) as [Hin|Hout].
  - apply list_elem_of_fmap in Hin as (l & -> & Hl).
    apply list_elem_of_lookup in Hl as [i Hi].
    destruct (Forall2_lookup_l _ _ _ _ _ Hlines Hi)
      as (v & Hv & Hp & Hvar & Hq & _).
    assert (Hvin : v ∈ vs) by (apply list_elem_of_lookup; eauto).
    destruct (Ha v Hvin) as (r0 & r' & Hr0 & Hr' & Hq').
    rewrite Hp, Hvar in Hr0, Hr'. fold (line_key l) in Hr0, Hr'.
    change (stock db0) with (stock db) in Hr0. simplify_eq.
    rewrite ordered_distinct by (done || (apply list_elem_of_lookup; eauto)).
    exists r'. split; [done|]. split; [lia|]. intros _.
    rewrite Forall_forall in Hcov. specialize (Hcov v Hvin).
    rewrite Forall_forall in Hsnap.
    destruct (Hsnap v Hvin) as (r1 & Hr1 & Hq1).
    rewrite Hp, Hvar in Hr1. fold (line_key l) in Hr1. simplify_eq. lia.
  - rewrite ordered_absent by done. exists r.
    rewrite Hb by (by rewrite Hkeys). split; [done|]. split; [lia|done].
Qed.

(** X9.  An accepted sale whose lines name distinct stock lines, each
    holding a safe integer, debits every stock line by exactly what
    the order asks of it (nothing for a line the order does not name),
    and leaves no line it names below zero.  The quantities are JSON
    numbers. *)
Theorem accepted_sale_debits_what_is_ordered
    (db : DB) (user_id : Z) (saleNumber : string) (body : sale_body)
    (sid : Z) (its : list sale_item) (db' : DB) :
  createSale db user_id saleNumber body = (sale_201 sid its, db') →
  NoDup (map line_key (items body)) →
  (∀ k r, stock db !! k = Some r → k ∈ map line_key (items body) →
          quantity r ≤ MAX_SAFE_INTEGER) →
  ∀ k r, stock db !! k = Some r →
         ∃ r', stock db' !! k = Some r' ∧
               quantity r' = quantity r - ordered k (items body) ∧
               (k ∈ map line_key (items body) → 0 ≤ quantity r').
Proof. apply createSale_debits. Qed.

Lemma shop2_safe k r :
  stock shop2 !! k = Some r → quantity r ≤ MAX_SAFE_INTEGER.
Proof.
  intros Hr. assert (quantity r = 10); [|unfold MAX_SAFE_INTEGER; lia].
  simpl in Hr. apply lookup_insert_Some in Hr as [[_ <-]|[_ Hr]]; [done|].
  by apply lookup_singleton_Some in Hr as [_ <-].
Qed.

Lemma accepted_sale_debits_witness :
  quantity <$> stock sold !! (1, None) = Some 8 ∧
  quantity <$> stock sold !! (2, None) = Some 7.
Proof.
  destruct (createSale shop2 7 "SALE-1" (order [line_A 2; line_B 3]))
    as [resp db'] eqn:He.
  assert (Hr : resp = (createSale shop2 7 "SALE-1"
                         (order [line_A 2; line_B 3])).1) by by rewrite He.
  assert (Hd : db' = sold) by (unfold sold; by rewrite He).
  vm_compute in Hr. subst resp.
  assert (Hnd : NoDup (map line_key (items (order [line_A 2; line_B 3])))).
  { apply (bool_decide_unpack _). vm_compute. exact I. }
  pose proof (accepted_sale_debits_what_is_ordered _ _ _ _ _ _ _ He Hnd
                (λ k r Hk _, shop2_safe k r Hk)) as H.
  rewrite Hd in H. split.
  - destruct (H (1, None) (row 10) eq_refl) as (r' & Hr' & Hq & _).
    rewrite Hr'. simpl. rewrite Hq. reflexivity.
  - destruct (H (2, None) (row 10) eq_refl) as (r' & Hr' & Hq & _).
    rewrite Hr'. simpl. rewrite Hq. reflexivity.
Defined.

(** ** A sale and its refund *)

Lemma stock_update_sale db id st nt :
  stock (update_sale db id st nt) = stock db.
Proof. reflexivity. Qed.

Lemma movements_update_sale db id st nt :
  stock_movements (update_sale db id st nt) = stock_movements db.
Proof. reflexivity. Qed.

Lemma item_keys_of_lines sid ls (its : list sale_item) :
  Forall2 (item_of_line sid) ls its → map item_key its = map line_key ls.
Proof.
  induction 1 as [|l si ls its (_ & Hp & Hv & _) _ IH]; [done|].
  cbn [map]. rewrite IH. unfold item_key, line_key. by rewrite Hp, Hv.
Qed.

(** X10.  Selling and refunding is a round trip on the stock.  When an
    order whose lines name distinct stock lines, each holding a safe
    integer, is accepted, with a sale id that no older sale item
    carries, the full refund of that sale is answered with success,
    marks the sale 'refunded', adds one 'return' ledger entry per order
    line after the 'sale' entries, and brings every stock line back to
    the quantity it held before the sale.  The quantities are JSON
    numbers. *)
Theorem sale_then_full_refund_restores_stock
    (db : DB) (user_id : Z) (saleNumber : string) (body : sale_body)
    (sid : Z) (its : list sale_item) (db1 : DB)
    (admin_id : Z) (why : option string) :
  createSale db user_id saleNumber body = (sale_201 sid its, db1) →
  NoDup (map line_key (items body)) →
  (∀ si, si ∈ sale_items db → si_sale_id si ≠ sid) →
  (∀ k r, stock db !! k = Some r → k ∈ map line_key (items body) →
          quantity r ≤ MAX_SAFE_INTEGER) →
  let n := Z.of_nat (length (items body)) in
  ∃ db2,
    refund db1 admin_id sid {| reason := why; partial_items := pi_absent |}
    = (refund_200 full n n, db2) ∧
    (∀ k, quantity <$> stock db2 !! k = quantity <$> stock db !! k) ∧
    status <$> sales db2 !! sid = Some refunded ∧
    length (stock_movements db2)
    = (length (stock_movements db) + 2 * length (items body))%nat.
Proof.
  intros He Hnd Hfresh Hsafe n.
  destruct (createSale_booked _ _ _ _ _ _ _ He)
    as (Hsid & Hsales & new & ms & Hnew & Hitems & _ & Hits & Hms & Hsold).
  pose proof (createSale_201_quantities _ _ _ _ _ _ _ He) as Hqty.
  pose proof (item_keys_of_lines _ _ _ Hitems) as Hkeys.
  assert (Hget : get_sale_items db1 sid = new).
  { unfold get_sale_items. rewrite Hnew, List.filter_app.
    replace (List.filter _ (sale_items db)) with (@nil sale_item).
    - simpl. apply forallb_filter_id, forallb_forall.
      intros si Hsi. apply list_elem_of_In in Hsi.
      apply list_elem_of_lookup in Hsi as [i Hi].
      destruct (Forall2_lookup_r _ _ _ _ _ Hitems Hi) as (l & _ & Hl & _).
      by apply bool_decide_eq_true.
    - symmetry. apply existsb_false_filter.
      apply not_true_iff_false. intros (si & Hsi & Heq)%existsb_exists.
      apply bool_decide_eq_true in Heq. apply list_elem_of_In in Hsi.
      by apply (Hfresh si). }
  assert (Hsale : get_completed_sale db1 sid
                  = Some (sale_of user_id saleNumber body)).
  { apply get_completed_sale_Some. split; [|done].
    rewrite Hsales. apply lookup_insert_eq. }
  pose proof (refund_completed db1 admin_id sid
                {| reason := why; partial_items := pi_absent |} _ new
                Hsale) as Hr.
  cbv zeta in Hr. rewrite Hget in Hr. specialize (Hr eq_refl).
  cbn [reason] in Hr.
  rewrite bool_decide_eq_true_2 in Hr by done.
  rewrite <- (Forall2_length _ _ _ Hitems) in Hr. fold n in Hr.
  eexists. split; [exact Hr|].
  destruct (refund_loop_spec admin_id sid (sale_of user_id saleNumber body)
              why new db1)
    as ((_ & _ & Hsales2 & _) & Hdom & Hout & new2 & Hms2 & Hret).
  assert (Hnonneg : Forall (λ item, 0 ≤ si_quantity item) new).
  { apply Forall_forall. intros si Hsi.
    apply list_elem_of_lookup in Hsi as [i Hi].
    destruct (Forall2_lookup_r _ _ _ _ _ Hitems Hi)
      as (l & Hl & _ & _ & _ & Hq).
    rewrite Forall_forall in Hqty.
    specialize (Hqty l ltac:(apply list_elem_of_lookup; eauto)). lia. }
  assert (Hdebit : ∀ k r, stock db !! k = Some r →
            ∃ r1, stock db1 !! k = Some r1 ∧
                  quantity r1 = quantity r - credited k new ∧
                  (k ∈ map item_key new → 0 ≤ quantity r1)).
  { intros k r Hk.
    destruct (createSale_debits _ _ _ _ _ _ _ He Hnd Hsafe k r Hk)
      as (r1 & Hr1 & Hq1 & H0).
    exists r1. rewrite (credited_ordered sid k (items body) new Hitems).
    rewrite Hkeys. done. }
  destruct (untouched_handle db (req_createSale user_id saleNumber body))
    as [Hlines _].
  cbn [handle] in Hlines. rewrite He in Hlines. cbn [snd] in Hlines.
  assert (Hcredit := refund_loop_credit admin_id sid
            (sale_of user_id saleNumber body) why new db1 Hnonneg).
  assert (Hback : ∀ k r1, stock db1 !! k = Some r1 →
            k ∈ map item_key new →
            0 ≤ quantity r1
            ∧ quantity r1 + credited k new ≤ MAX_SAFE_INTEGER).
  { intros k r1 Hr1 Hk. specialize (Hlines k). rewrite Hr1 in Hlines.
    destruct (stock db !! k) as [r|] eqn:Hr0; [|done].
    destruct (Hdebit k r Hr0) as (r1' & Hr1' & Hq1 & H0).
    simplify_eq. split; [by apply H0|].
    assert (quantity r ≤ MAX_SAFE_INTEGER)
      by (apply (Hsafe k); [done|by rewrite <- Hkeys]).
    lia. }
  specialize (Hcredit Hback).
  split; [|split].
  - intros k. rewrite stock_update_sale.
    specialize (Hlines k).
    destruct (stock db !! k) as [r|] eqn:Hk.
    + destruct (Hdebit k r Hk) as (r1 & Hr1 & Hq1 & _).
      destruct (Hcredit k r1 Hr1) as (r2 & Hr2 & Hq2).
      rewrite Hr2. cbn. f_equal. lia.
    + destruct (stock db1 !! k) eqn:Hk1; [done|].
      destruct (stock (fold_left _ new db1) !! k) as [r2|] eqn:Hk2; [|done].
      assert (is_Some (stock db1 !! k)) as [? ?] by (apply Hdom; eauto).
      congruence.
  - rewrite lookup_update_sale, decide_True by done.
    rewrite Hsales2, Hsales, lookup_insert_eq. done.
  - rewrite movements_update_sale, Hms2, Hms.
    rewrite !length_app.
    assert (Hall : List.filter (has_stock db1) new = new).
    { apply forallb_filter_id, forallb_forall.
      intros si Hsi. apply list_elem_of_In in Hsi.
      apply list_elem_of_lookup in Hsi as [i Hi].
      destruct (Forall2_lookup_r _ _ _ _ _ Hitems Hi)
        as (l & Hl & _ & Hp & Hv & _).
      unfold has_stock, item_key. rewrite Hp, Hv. fold (line_key l).
      apply bool_decide_eq_true.
      pose proof He as (vs & Hvs & _)%createSale_201.
      apply validate_items_lines in Hvs.
      destruct (Forall2_lookup_l _ _ _ _ _ Hvs Hl)
        as (v & _ & Hvp & Hvv & _ & (r & Hrv & _)).
      rewrite Hvp, Hvv in Hrv. fold (line_key l) in Hrv.
      destruct (createSale_debits _ _ _ _ _ _ _ He Hnd Hsafe _ r Hrv)
        as (r1 & Hr1 & _). eauto. }
    rewrite Hall in Hret.
    apply Forall2_length in Hsold, Hret, Hitems. lia.
Qed.

Lemma sale_then_full_refund_witness :
  ∃ db2, refund sold 9 1 {| reason := None; partial_items := pi_absent |}
         = (refund_200 full 2 2, db2) ∧
         quantity <$> stock db2 !! (1, None) = Some 10 ∧
         quantity <$> stock db2 !! (2, None) = Some 10.
Proof.
  destruct (createSale shop2 7 "SALE-1" (order [line_A 2; line_B 3]))
    as [resp db'] eqn:He.
  assert (Hr : resp = (createSale shop2 7 "SALE-1"
                         (order [line_A 2; line_B 3])).1) by by rewrite He.
  assert (Hd : db' = sold) by (unfold sold; by rewrite He).
  vm_compute in Hr. subst resp.
  assert (Hnd : NoDup (map line_key (items (order [line_A 2; line_B 3])))).
  { apply (bool_decide_unpack _). vm_compute. exact I. }
  destruct (sale_then_full_refund_restores_stock _ _ _ _ _ _ _ 9 None He Hnd)
    as (db2 & Hr2 & Hq & _).
  { intros si Hsi. simpl in Hsi. by apply elem_of_nil in Hsi. }
  { intros k r Hk _. by apply (shop2_safe k). }
  exists db2. rewrite <- Hd. split; [exact Hr2|].
  split; rewrite Hq; reflexivity.
Defined.

(** X11.  A full refund is final: once a refund has targeted every
    item of a completed sale, every further refund request for that
    sale, whoever sends it and whatever it targets, is answered 404
    and writes nothing. *)
Theorem refunded_sale_is_not_refunded_again
    (db : DB) (user_id id : Z) (body : refund_body) (s : sale) :
  get_completed_sale db id = Some s →
  Forall (targeted body (get_sale_items db id)) (get_sale_items db id) →
  let db1 := (refund db user_id id body).2 in
  ∀ user_id' body',
    refund db1 user_id' id body' = (refund_404, db1).
Proof.
  intros Hs Hfull db1 u' body'. subst db1.
  pose proof (itemsToRefund_of_spec body (get_sale_items db id)) as Hspec.
  destruct (itemsToRefund_of (partial_items body) (get_sale_items db id))
    as [targets|] eqn:Ht; [|by apply targeted_readable in Hfull].
  destruct Hspec as (_ & _ & _ & Hiff).
  rewrite (refund_completed _ _ _ _ _ _ Hs Ht). cbn [snd].
  rewrite bool_decide_eq_true_2 by (by apply Hiff).
  unfold refund at 1.
  replace (get_completed_sale _ id) with (@None sale); [done|].
  symmetry. unfold get_completed_sale.
  rewrite lookup_update_sale, decide_True by done.
  destruct (refund_loop_spec user_id id s (reason body) targets db)
    as ((_ & _ & -> & _) & _).
  apply get_completed_sale_Some in Hs as [-> _]. done.
Qed.

Lemma refunded_sale_witness :
  refund (refund sold 7 1 refund_all).2 7 1 refund_item_1
  = (refund_404, (refund sold 7 1 refund_all).2).
Proof.
  apply (refunded_sale_is_not_refunded_again sold 7 1 refund_all sale_1);
    [reflexivity|].
  unfold targeted. apply (bool_decide_unpack _). vm_compute. exact I.
Defined.

(** * Alerts and their acknowledgement *)

(** ** The alert table over time *)

Lemma alert_step_trans a a' a'' :
  alert_step a a' → alert_step a' a'' → alert_step a a''.
Proof.
  intros [->|[Ha H]]; [done|]. intros [->|[Ha' _]]; [by right|].
  destruct H as [->|[u ->]]; simpl in Ha'; done.
Qed.

Lemma alerts_evolve_refl l : alerts_evolve l l.
Proof.
  exists l, []. rewrite app_nil_r. split; [done|].
  apply Forall2_same_length_lookup. split; [done|].
  intros i a a' H1 H2. left. congruence.
Qed.

Lemma alerts_evolve_trans l l' l'' :
  alerts_evolve l l' → alerts_evolve l' l'' → alerts_evolve l l''.
Proof.
  intros (l1 & n1 & -> & H1) (l2 & n2 & -> & H2).
  apply Forall2_app_inv_l in H2 as (l2a & l2b & Ha & Hb & ->).
  exists l2a, (l2b ++ n2). rewrite app_assoc. split; [done|].
  eapply Forall2_compose; [|exact H1|exact Ha].
  intros. by eapply alert_step_trans.
Qed.

Lemma alerts_evolve_snoc l x : alerts_evolve l (l ++ [x]).
Proof.
  exists l, [x]. split; [done|].
  apply Forall2_same_length_lookup. split; [done|].
  intros i a a' H1 H2. left. congruence.
Qed.

Lemma alerts_evolve_resolve p v l :
  alerts_evolve l
    (map (λ a, if alert_matches_active p v a then set_resolved a else a) l).
Proof.
  exists (map (λ a, if alert_matches_active p v a then set_resolved a else a) l),
    [].
  rewrite app_nil_r. split; [done|].
  induction l as [|a l IH]; simpl; constructor; [|done].
  destruct (alert_matches_active p v a) eqn:Hm; [|by left].
  right. split; [|by left]. unfold alert_matches_active in Hm.
  apply andb_true_iff in Hm as [_ Hm]. by apply bool_decide_eq_true in Hm.
Qed.

Lemma alerts_evolve_check_low_stock db p v q m :
  alerts_evolve (low_stock_alerts db)
                (low_stock_alerts (check_low_stock db p v q m)).
Proof.
  unfold check_low_stock. repeat case_match; simpl.
  - apply alerts_evolve_refl.
  - apply alerts_evolve_snoc.
  - apply alerts_evolve_resolve.
Qed.

Lemma alerts_evolve_check_low_stock_sale db p v q m :
  alerts_evolve (low_stock_alerts db)
                (low_stock_alerts (check_low_stock_sale db p v q m)).
Proof.
  unfold check_low_stock_sale. repeat case_match; simpl.
  - apply alerts_evolve_refl.
  - apply alerts_evolve_snoc.
  - apply alerts_evolve_refl.
Qed.

Lemma alerts_evolve_handle db r :
  alerts_evolve (low_stock_alerts db) (low_stock_alerts (handle db r)).
Proof.
  destruct r as [u b|u b|u n b|u i b]; simpl.
  - unfold adjust. repeat case_match; simpl; try apply alerts_evolve_refl.
    unfold commit, beginTransaction.
    apply (alerts_evolve_check_low_stock
             (insert_stock_movement (update_stock db _ _ _ _) _)).
  - unfold bulkAdjust. case_match; [apply alerts_evolve_refl|]. simpl.
    unfold commit, beginTransaction.
    apply (fold_left_preserves _
      (λ st, alerts_evolve (low_stock_alerts db) (low_stock_alerts (bs_db st))));
      [|apply alerts_evolve_refl].
    intros st a Hst. unfold bulk_step. repeat case_match; simpl; try done.
    eapply alerts_evolve_trans; [exact Hst|].
    apply (alerts_evolve_check_low_stock
             (insert_stock_movement (update_stock (bs_db st) _ _ _ _) _)).
  - unfold createSale. case_match; [apply alerts_evolve_refl|].
    unfold createSale_tx, beginTransaction, rollback, commit.
    destruct (validate_items db (items b)) as [e|vs];
      [apply alerts_evolve_refl|].
    destruct (insert_sale db _) as [e|[sid db1]] eqn:Hins;
      [apply alerts_evolve_refl|]. simpl.
    apply insert_sale_frame in Hins as (_ & _ & Hal & _).
    apply (fold_left_preserves _
      (λ d, alerts_evolve (low_stock_alerts db) (low_stock_alerts d)));
      [|rewrite Hal; apply alerts_evolve_refl].
    intros d v Hd. unfold sale_step.
    eapply alerts_evolve_trans; [exact Hd|].
    apply (alerts_evolve_check_low_stock_sale
             (insert_stock_movement
                (update_stock (insert_sale_item d _ _) _ _ _ _) _)).
  - unfold refund. case_match; [|apply alerts_evolve_refl].
    cbv zeta. case_match; [|apply alerts_evolve_refl]. simpl.
    unfold commit, beginTransaction.
    replace (low_stock_alerts (fold_left _ _ db)) with (low_stock_alerts db);
      [apply alerts_evolve_refl|].
    symmetry.
    apply (fold_left_preserves _
             (λ d, low_stock_alerts d = low_stock_alerts db)); [|done].
    intros d a <-. apply alerts_refund_step.
Qed.

Lemma lookup_acknowledge_alert db u id i a :
  alert_index id = Some i →
  low_stock_alerts db !! i = Some a →
  low_stock_alerts (acknowledge_alert db u id)
  = <[i := set_acknowledged u a]> (low_stock_alerts db).
Proof.
  intros Hi Ha. unfold acknowledge_alert. rewrite Hi. simpl.
  rewrite list_insert_alter. apply list_alter_ext; [|done..].
  intros x Hx. congruence.
Qed.

Lemma get_active_alert_Some db id a :
  get_active_alert db id = Some a ↔
  ∃ i, alert_index id = Some i ∧ low_stock_alerts db !! i = Some a
       ∧ alert_status_of a = active.
Proof.
  unfold get_active_alert. split.
  - destruct (alert_index id) as [i|]; [|done].
    destruct (low_stock_alerts db !! i) as [a'|] eqn:Hi; [|done].
    case_bool_decide; [|done]. intros [= <-]. by exists i.
  - intros (i & -> & -> & Ha). by rewrite bool_decide_eq_true_2.
Qed.

Lemma alerts_evolve_acknowledge db u id :
  alerts_evolve (low_stock_alerts db)
                (low_stock_alerts (acknowledge db u id).2).
Proof.
  unfold acknowledge.
  destruct (get_active_alert db id) as [a|] eqn:Hg;
    [|apply alerts_evolve_refl].
  apply get_active_alert_Some in Hg as (i & Hi & Ha & Hact). simpl.
  rewrite (lookup_acknowledge_alert db u id i a Hi Ha).
  exists (<[i := set_acknowledged u a]> (low_stock_alerts db)), [].
  rewrite app_nil_r. split; [done|].
  apply Forall2_same_length_lookup. split; [by rewrite length_insert|].
  intros j x y Hx Hy. destruct (decide (i = j)) as [<-|Hne].
  - rewrite list_lookup_insert_eq in Hy by (by eapply lookup_lt_Some).
    simplify_eq. right. split; [done|]. right. by exists u.
  - rewrite list_lookup_insert_ne in Hy by done. left. congruence.
Qed.

Lemma alerts_evolve_perform_all db acts :
  alerts_evolve (low_stock_alerts db)
                (low_stock_alerts (perform_all db acts)).
Proof.
  revert db. induction acts as [|a acts IH]; intros db; simpl.
  - apply alerts_evolve_refl.
  - eapply alerts_evolve_trans; [|apply IH].
    destruct a as [r|u i]; simpl.
    + apply alerts_evolve_handle.
    + apply alerts_evolve_acknowledge.
Qed.

(** X12.  The alert table is a history.  Whatever requests and
    acknowledgements follow, a row stays at its place with its
    product, variant and the stock and minimum level recorded when it
    was raised; a row that is resolved or acknowledged never changes
    again, and a row that is still active afterwards is unchanged. *)
Theorem alert_rows_are_a_history (db : DB) (acts : list action)
    (i : nat) (a : low_stock_alert) :
  low_stock_alerts db !! i = Some a →
  ∃ a', low_stock_alerts (perform_all db acts) !! i = Some a' ∧
        lsa_product_id a' = lsa_product_id a ∧
        lsa_variant_id a' = lsa_variant_id a ∧
        current_stock a' = current_stock a ∧
        lsa_min_stock_level a' = lsa_min_stock_level a ∧
        (alert_status_of a ≠ active → a' = a) ∧
        (alert_status_of a' = active → a' = a).
Proof.
  intros Hi.
  destruct (alerts_evolve_perform_all db acts) as (l1 & new & Heq & Hall).
  destruct (Forall2_lookup_l _ _ _ _ _ Hall Hi) as (a' & Hi' & Hstep).
  exists a'. split.
  { rewrite Heq. by apply lookup_app_l_Some. }
  destruct Hstep as [->|[Hact [->|[u ->]]]]; simpl; by repeat split.
Qed.

Lemma alert_rows_witness :
  ∃ a', low_stock_alerts
          (perform_all low_shop
             [act_acknowledge 9 1; act_request (req_adjust 7 (out_A 1))])
        !! 0%nat = Some a' ∧
        current_stock a' = 10 ∧ alert_status_of a' = acknowledged.
Proof.
  destruct (alert_rows_are_a_history low_shop
              [act_acknowledge 9 1; act_request (req_adjust 7 (out_A 1))]
              0%nat
              {| lsa_product_id := 1; lsa_variant_id := None;
                 current_stock := 10; lsa_min_stock_level := 10;
                 alert_status_of := active; acknowledged_by := None |}
              eq_refl)
    as (a' & Ha' & _ & _ & Hc & _).
  exists a'. split; [exact Ha'|]. split; [exact Hc|].
  vm_compute in Ha'. by injection Ha' as <-.
Defined.

(** ** Acknowledging an alert *)

Lemma single_active_acknowledge db u id :
  single_active db → single_active (acknowledge db u id).2.
Proof.
  intros Hdb. unfold acknowledge.
  destruct (get_active_alert db id) as [a|] eqn:Hg; [|done].
  apply get_active_alert_Some in Hg as (i & Hi & Ha & Hact). simpl.
  intros p v. unfold active_alerts.
  rewrite (lookup_acknowledge_alert db u id i a Hi Ha).
  etrans; [|apply (Hdb p v)]. unfold active_alerts.
  clear Hi Hact. revert i Ha.
  induction (low_stock_alerts db) as [|x l IH]; intros i Ha; [done|].
  destruct i as [|i]; simpl in *.
  - simplify_eq.
    replace (alert_matches_active p v (set_acknowledged u a)) with false
      by (unfold alert_matches_active; simpl; by rewrite andb_false_r).
    case_match; simpl; lia.
  - specialize (IH i Ha). case_match; simpl; lia.
Qed.

Lemma acknowledge_active db user_id id a :
  get_active_alert db id = Some a →
  ∃ i db',
    acknowledge db user_id id = (acknowledge_200, db') ∧
    low_stock_alerts db !! i = Some a ∧
    low_stock_alerts db'
    = <[i := set_acknowledged user_id a]> (low_stock_alerts db) ∧
    stock db' = stock db ∧ stock_movements db' = stock_movements db ∧
    sales db' = sales db ∧ sale_items db' = sale_items db ∧
    products db' = products db ∧
    (single_active db → single_active db') ∧
    ∀ user_id', acknowledge db' user_id' id = (acknowledge_404, db').
Proof.
  intros Hg. pose proof Hg as (i & Hi & Ha & Hact)%get_active_alert_Some.
  exists i, (acknowledge_alert db user_id id).
  split; [unfold acknowledge; by rewrite Hg|]. split; [done|].
  pose proof (lookup_acknowledge_alert db user_id id i a Hi Ha) as Hal.
  split; [done|].
  assert (Hrest : ∀ {A} (f : DB → A),
            (∀ d l, f (with_low_stock_alerts d l) = f d) →
            f (acknowledge_alert db user_id id) = f db).
  { intros A f Hf. unfold acknowledge_alert. rewrite Hi. apply Hf. }
  do 5 (split; [by apply Hrest|]). split.
  - intros Hone.
    pose proof (single_active_acknowledge db user_id id Hone) as H.
    unfold acknowledge in H. by rewrite Hg in H.
  - intros u'. unfold acknowledge.
    replace (get_active_alert _ id) with (@None low_stock_alert); [done|].
    symmetry. unfold get_active_alert. rewrite Hi, Hal.
    rewrite list_lookup_insert_eq by (by eapply lookup_lt_Some). done.
Qed.

(** X13.  An alert is acknowledged at most once.  Acknowledging an id
    that is not the id of an active alert is answered 404 and changes
    nothing.  Acknowledging an active alert marks that one row
    'acknowledged' with the acting user, leaves every other row and
    every other table alone, keeps at most one active alert per key,
    and makes every later acknowledgement of the same id a 404. *)
Theorem alert_is_acknowledged_once (db : DB) (user_id id : Z) :
  (get_active_alert db id = None →
   acknowledge db user_id id = (acknowledge_404, db)) ∧
  (∀ a, get_active_alert db id = Some a →
     ∃ i db',
       acknowledge db user_id id = (acknowledge_200, db') ∧
       low_stock_alerts db !! i = Some a ∧
       low_stock_alerts db'
       = <[i := set_acknowledged user_id a]> (low_stock_alerts db) ∧
       stock db' = stock db ∧ stock_movements db' = stock_movements db ∧
       sales db' = sales db ∧ sale_items db' = sale_items db ∧
       products db' = products db ∧
       (single_active db → single_active db') ∧
       ∀ user_id', acknowledge db' user_id' id = (acknowledge_404, db')).
Proof.
  split.
  { intros H. unfold acknowledge. by rewrite H. }
  intros a Hg. by apply acknowledge_active.
Qed.

Lemma alert_is_acknowledged_once_witness :
  ∃ db', acknowledge low_shop 9 1 = (acknowledge_200, db') ∧
         acknowledge db' 9 1 = (acknowledge_404, db').
Proof.
  destruct (alert_is_acknowledged_once low_shop 9 1) as [_ H].
  destruct (H {| lsa_product_id := 1; lsa_variant_id := None;
                 current_stock := 10; lsa_min_stock_level := 10;
                 alert_status_of := active; acknowledged_by := None |}
              eq_refl)
    as (i & db' & He & _ & _ & _ & _ & _ & _ & _ & _ & Hagain).
  exists db'. split; [exact He|apply Hagain].
Defined.

(** X14.  Acknowledging does not silence a stock line.  Once the
    active alert of a key has been acknowledged (in a database with at
    most one active alert per key), the key has no active alert, and
    the next successful adjustment that leaves the line at or below
    the minimum level raises a new alert for it, recording the new
    quantity, while the acknowledged row stays acknowledged. *)
Theorem acknowledged_line_is_alerted_again
    (db : DB) (user_id id : Z) (a : low_stock_alert)
    (admin_id : Z) (body : adjust_body) (p : product) (s : stock_row) :
  single_active db →
  get_active_alert db id = Some a →
  ab_product_id body = lsa_product_id a →
  or_null (ab_variant_id body) = lsa_variant_id a →
  1 ≤ ab_quantity body →
  get_active_product db (ab_product_id body) = Some p →
  get_stock db (ab_product_id body) (or_null (ab_variant_id body)) = Some s →
  let q := newQuantity_for (ab_adjustment_type body) (quantity s)
             (ab_quantity body) in
  q ≤ min_stock_level p →
  let db1 := (acknowledge db user_id id).2 in
  let db2 := (adjust db1 admin_id body).2 in
  existingAlert db1 (lsa_product_id a) (lsa_variant_id a) = false ∧
  low_stock_alerts db2
  = low_stock_alerts db1 ++
    [{| lsa_product_id := lsa_product_id a;
        lsa_variant_id := lsa_variant_id a;
        current_stock := q; lsa_min_stock_level := min_stock_level p;
        alert_status_of := active; acknowledged_by := None |}].
Proof.
  intros Hone Hg Hpid Hvid Hqty Hp Hs q Hlow db1 db2.
  destruct (acknowledge_active db user_id id a Hg)
    as (i & d1 & He & Ha & Hal & Hst & _ & _ & _ & Hpr & _ & _).
  assert (Hdb1 : db1 = d1) by (subst db1; by rewrite He).
  clearbody db1. subst d1.
  pose proof Hg as (i' & Hi' & Ha' & Hact)%get_active_alert_Some.
  assert (Hnone : existingAlert db1 (lsa_product_id a) (lsa_variant_id a)
                  = false).
  { apply existingAlert_active_alerts. unfold active_alerts. rewrite Hal.
    specialize (Hone (lsa_product_id a) (lsa_variant_id a)).
    unfold active_alerts in Hone.
    assert (Hm : alert_matches_active (lsa_product_id a) (lsa_variant_id a) a
                 = true).
    { unfold alert_matches_active. by rewrite !bool_decide_eq_true_2. }
    clear Hal Hi' Ha' He Hg. revert i Ha Hone.
    induction (low_stock_alerts db) as [|x l IH]; intros i Ha Hone; [done|].
    destruct i as [|i]; simpl in *.
    - simplify_eq. rewrite Hm in Hone.
      replace (alert_matches_active _ _ (set_acknowledged user_id a))
        with false
        by (unfold alert_matches_active; simpl; by rewrite andb_false_r).
      destruct (List.filter _ l); [done|simpl in Hone; lia].
    - destruct (alert_matches_active _ _ x) eqn:Hx.
      + assert (Hl : List.filter
                       (alert_matches_active (lsa_product_id a)
                          (lsa_variant_id a)) l = []).
        { destruct (List.filter _ l); [done|simpl in Hone; lia]. }
        exfalso.
        assert (Hin : a ∈ List.filter
                  (alert_matches_active (lsa_product_id a) (lsa_variant_id a)) l).
        { apply elem_of_filter_bool. split; [|done].
          apply list_elem_of_lookup. eauto. }
        rewrite Hl in Hin. by apply elem_of_nil in Hin.
      + apply IH; [done|]. simpl in Hone. lia. }
  split; [done|].
  assert (Hp1 : get_active_product db1 (ab_product_id body) = Some p).
  { unfold get_active_product in *. by rewrite Hpr. }
  assert (Hs1 : get_stock db1 (ab_product_id body)
                  (or_null (ab_variant_id body)) = Some s).
  { unfold get_stock in *. by rewrite Hst. }
  destruct (adjust_effect db1 admin_id body p s Hqty Hp1 Hs1)
    as (d2 & m & He2 & _ & _ & _ & _ & _ & _ & _ & _ & Hal2).
  assert (Hdb2 : db2 = d2) by (subst db2; by rewrite He2).
  rewrite Hdb2, Hal2. fold q. unfold check_low_stock.
  replace (q <=? min_stock_level p) with true
    by (symmetry; by apply Z.leb_le).
  rewrite Hpid, Hvid, Hnone. reflexivity.
Qed.

Lemma acknowledged_line_witness :
  length (low_stock_alerts
            (adjust (acknowledge low_shop 9 1).2 7 (out_A 1)).2) = 2%nat.
Proof.
  assert (Hone : single_active low_shop).
  { apply (single_active_adjust (shop 12) 7 (out_A 2)), shop_single_active. }
  assert (Hq : 1 ≤ ab_quantity (out_A 1)) by (simpl; lia).
  assert (Hlow : newQuantity_for (ab_adjustment_type (out_A 1)) 10
                   (ab_quantity (out_A 1)) ≤ min_stock_level product_A)
    by (vm_compute; discriminate).
  destruct (acknowledged_line_is_alerted_again low_shop 9 1
              {| lsa_product_id := 1; lsa_variant_id := None;
                 current_stock := 10; lsa_min_stock_level := 10;
                 alert_status_of := active; acknowledged_by := None |}
              7 (out_A 1) product_A
              {| quantity := 10; reserved_quantity := 0;
                 updated_by := Some 7 |}
              Hone eq_refl eq_refl eq_refl Hq eq_refl eq_refl Hlow)
    as [_ H].
  rewrite H. reflexivity.
Defined.

(** * Authentication, roles and attribution *)

Lemma requireRole_inr roles users id u :
  requireRole roles users id = inr u ↔
  ∃ x, users !! id = Some x ∧ user_is_active x = true ∧
       user_role x ∈ roles ∧
       u = {| ru_id := id; ru_username := username x; ru_email := email x;
              ru_role := user_role x; ru_first_name := first_name x;
              ru_last_name := last_name x |}.
Proof.
  unfold requireRole. split.
  - destruct (users !! id) as [x|]; [|done].
    destruct (user_is_active x) eqn:Hact; [|done].
    case_bool_decide; [|done]. intros [= <-]. by exists x.
  - intros (x & -> & -> & Hr & ->). by rewrite bool_decide_eq_true_2.
Qed.

Lemma guarded_inv {S A} jwt roles users auth (h : Z → A * S) st resp st' :
  guarded jwt roles users auth h st = (resp, st') →
  match resp with
  | inl e => st' = st
  | inr r => ∃ id x, verifyToken jwt auth = inr id ∧
                     users !! id = Some x ∧ user_is_active x = true ∧
                     user_role x ∈ roles ∧ h id = (r, st')
  end.
Proof.
  unfold guarded.
  destruct (verifyToken jwt auth) as [e|id]; [by intros [= <- <-]|].
  destruct (requireRole roles users id) as [e|u] eqn:Hu; [by intros [= <- <-]|].
  apply requireRole_inr in Hu as (x & Hx & Hact & Hr & ->). cbn [ru_id].
  destruct (h id) as [r s1] eqn:Hh. intros [= <- <-]. by exists id, x.
Qed.

(** X15.  The role gate.  A routed request that is refused (no token,
    invalid token, unknown or inactive user, role not allowed) leaves
    the database untouched; a request that is let through was sent
    with a token of a user who is, at that moment, active and has one
    of the roles of the route, and the handler ran with that user's
    id.  In particular an active cashier is refused with 403 on the
    adjustment, bulk adjustment and refund routes, and is let through
    on the sale and acknowledgement routes. *)
Theorem routes_enforce_roles
    (jwt_verify : string → option Z) (users : gmap Z user)
    (authorization : option string) (r : route) (db : DB) :
  (∀ e db', serve jwt_verify users authorization r db = (inl e, db') →
            db' = db) ∧
  (∀ db', serve jwt_verify users authorization r db = (inr tt, db') →
     ∃ id u, verifyToken jwt_verify authorization = inr id ∧
             users !! id = Some u ∧ user_is_active u = true ∧
             user_role u ∈ route_roles r ∧
             db' = perform db (route_action r id)) ∧
  (∀ id u, verifyToken jwt_verify authorization = inr id →
     users !! id = Some u → user_is_active u = true →
     user_role u = role_cashier →
     serve jwt_verify users authorization r db =
     match r with
     | POST_adjust _ | POST_bulk_adjust _ | POST_refund _ _ =>
         (inl insufficient_permissions, db)
     | POST_sale _ _ | PUT_acknowledge _ =>
         (inr tt, perform db (route_action r id))
     end).
Proof.
  split; [|split].
  - intros e db' H. by apply guarded_inv in H.
  - intros db' H. apply guarded_inv in H as (id & x & Hv & Hx & Ha & Hr & Hh).
    exists id, x. repeat split; try done. by injection Hh as <-.
  - intros id u Hv Hu Ha Hrole. unfold serve, guarded, requireRole.
    rewrite Hv, Hu, Ha, Hrole. by destruct r.
Qed.

Lemma routes_enforce_roles_witness :
  serve tokens staff (Some "Bearer t8") (POST_adjust (out_A 2)) (shop 12)
  = (inl insufficient_permissions, shop 12) ∧
  (serve tokens staff (Some "Bearer t8")
     (POST_sale "SALE-1" (order [line_A 2])) (shop 12)).1 = inr tt.
Proof.
  destruct (routes_enforce_roles tokens staff (Some "Bearer t8")
              (POST_adjust (out_A 2)) (shop 12)) as (_ & _ & H1).
  destruct (routes_enforce_roles tokens staff (Some "Bearer t8")
              (POST_sale "SALE-1" (order [line_A 2])) (shop 12))
    as (_ & _ & H2).
  split.
  - eapply (H1 8); reflexivity.
  - erewrite (H2 8); reflexivity.
Defined.

(** ** Attribution *)

Lemma written_by_refl id db : written_by id db db.
Proof.
  split; [|by left]. exists []. by rewrite app_nil_r.
Qed.

Lemma written_by_trans id db1 db2 db3 :
  written_by id db1 db2 → written_by id db2 db3 → written_by id db1 db3.
Proof.
  intros [(n1 & Hm1 & Hf1) Hs1] [(n2 & Hm2 & Hf2) Hs2]. split.
  - exists (n1 ++ n2). rewrite Hm2, Hm1, <- app_assoc. split; [done|].
    by apply Forall_app.
  - intros k. destruct (Hs2 k) as [->|H2]; [apply Hs1|by right].
Qed.

Lemma written_by_write id db q p v m db' :
  created_by m = id →
  stock db' = stock (update_stock db q id p v) →
  stock_movements db' = stock_movements db ++ [m] →
  written_by id db db'.
Proof.
  intros Hm Hst Hms. split.
  - exists [m]. split; [done|]. by constructor.
  - intros k. rewrite Hst, lookup_update_stock. case_decide; [subst k|by left].
    destruct (stock db !! (p, v)); [by right|by left].
Qed.

Lemma written_by_ext id db db1 db2 :
  stock db2 = stock db1 → stock_movements db2 = stock_movements db1 →
  written_by id db db1 → written_by id db db2.
Proof. unfold written_by. by intros -> ->. Qed.

Lemma written_by_perform r id db :
  written_by id db (perform db (route_action r id)).
Proof.
  destruct r as [b|b|n b|i b|i]; simpl.
  - unfold adjust. repeat case_match; simpl; try apply written_by_refl.
    unfold commit, beginTransaction.
    eapply written_by_write;
      [|by rewrite stock_check_low_stock
       |by rewrite movements_check_low_stock]. done.
  - unfold bulkAdjust. case_match; [apply written_by_refl|]. simpl.
    unfold commit, beginTransaction.
    apply (fold_left_preserves _ (λ st, written_by id db (bs_db st)));
      [|apply written_by_refl].
    intros st a Hst. unfold bulk_step. repeat case_match; simpl; try done.
    eapply written_by_trans; [exact Hst|].
    eapply written_by_write;
      [|by rewrite stock_check_low_stock
       |by rewrite movements_check_low_stock]. done.
  - unfold createSale. case_match; [apply written_by_refl|].
    unfold createSale_tx, beginTransaction, rollback, commit.
    destruct (validate_items db (items b)) as [e|vs];
      [apply written_by_refl|].
    destruct (insert_sale db _) as [e|[sid db1]] eqn:Hins;
      [apply written_by_refl|]. simpl.
    apply insert_sale_frame in Hins as (Hst & Hms & _).
    apply (fold_left_preserves _ (λ d, written_by id db d)).
    + intros d v Hd. eapply written_by_trans; [exact Hd|].
      unfold sale_step.
      eapply written_by_write;
        [|rewrite stock_check_low_stock_sale; reflexivity
         |rewrite movements_check_low_stock_sale; reflexivity]. done.
    + eapply written_by_ext; [done..|apply written_by_refl].
  - unfold refund. case_match; [|apply written_by_refl].
    cbv zeta. case_match; [|apply written_by_refl]. simpl.
    unfold commit, beginTransaction.
    eapply written_by_ext; [reflexivity..|].
    apply (fold_left_preserves _ (λ d, written_by id db d));
      [|apply written_by_refl].
    intros d item Hd. unfold refund_step. case_match; [|done].
    eapply written_by_trans; [exact Hd|].
    eapply written_by_write; [|reflexivity..]. done.
  - unfold acknowledge, acknowledge_alert.
    repeat case_match; simpl;
      (apply (written_by_ext _ _ db); [reflexivity..|apply written_by_refl]).
Qed.

(** X16.  Attribution.  Whatever a routed request writes is signed by
    the user who sent it: every ledger entry it appends has that
    user's id as [created_by], every stock row it changes has it as
    [updated_by], and that user is active with a role the route
    allows. *)
Theorem routed_writes_are_attributed
    (jwt_verify : string → option Z) (users : gmap Z user)
    (authorization : option string) (r : route) (db db' : DB) :
  serve jwt_verify users authorization r db = (inr tt, db') →
  ∃ id u,
    verifyToken jwt_verify authorization = inr id ∧
    users !! id = Some u ∧ user_is_active u = true ∧
    user_role u ∈ route_roles r ∧
    (∃ new, stock_movements db' = stock_movements db ++ new ∧
            Forall (λ m, created_by m = id) new) ∧
    (∀ k, stock db' !! k = stock db !! k ∨
          updated_by <$> stock db' !! k = Some (Some id)).
Proof.
  intros H. apply guarded_inv in H as (id & x & Hv & Hx & Ha & Hr & Hh).
  injection Hh as <-. exists id, x.
  destruct (written_by_perform r id db) as [Hm Hs]. by repeat split.
Qed.

Lemma routed_writes_witness :
  ∃ db', serve tokens staff (Some "Bearer t7") (POST_adjust (out_A 2)) (shop 12)
         = (inr tt, db') ∧
         updated_by <$> stock db' !! (1, None) = Some (Some 7).
Proof.
  destruct (serve tokens staff (Some "Bearer t7") (POST_adjust (out_A 2))
              (shop 12)) as [resp db'] eqn:He.
  assert (Hr : resp = (serve tokens staff (Some "Bearer t7")
                         (POST_adjust (out_A 2)) (shop 12)).1)
    by by rewrite He.
  assert (Hd : db' = (serve tokens staff (Some "Bearer t7")
                        (POST_adjust (out_A 2)) (shop 12)).2)
    by by rewrite He.
  vm_compute in Hr. subst resp.
  destruct (routed_writes_are_attributed _ _ _ _ _ _ He)
    as (id & u & _ & _ & _ & _ & _ & _).
  exists db'. split; [reflexivity|]. rewrite Hd. reflexivity.
Defined.

(** ** The Authorization header *)

Lemma substring_all s : String.substring 0 (String.length s) s = s.
Proof. induction s as [|c s IH]; simpl; [done|]. by rewrite IH. Qed.

Lemma prefix_spaceless p s :
  String.prefix p s = true → spaceless s = true → spaceless p = true.
Proof.
  revert s. induction p as [|a p IH]; intros s; [done|].
  destruct s as [|b s]; [done|]. cbn [String.prefix spaceless].
  destruct (Ascii.ascii_dec a b) as [->|]; [|done].
  intros Hp [Hb Hs]%andb_true_iff. rewrite Hb. simpl. by eapply IH.
Qed.

Lemma remove_first_spaceless s :
  spaceless s = true → remove_first "Bearer " s = s.
Proof.
  induction s as [|c s IH]; [done|]. intros Hs.
  cbn [remove_first].
  replace (String.prefix "Bearer " (String c s)) with false.
  - cbn [spaceless] in Hs. apply andb_true_iff in Hs as [_ Hs].
    by rewrite IH.
  - symmetry. apply not_true_iff_false. intros Hp.
    by pose proof (prefix_spaceless _ _ Hp Hs).
Qed.

(** X17.  The token in the Authorization header.  A request without
    the header, or whose header is just the word "Bearer " with
    nothing after it, is refused with "no token".  For a token without
    spaces, the header may carry it with or without the "Bearer "
    prefix: both are verified alike. *)
Theorem bearer_prefix_is_optional
    (jwt_verify : string → option Z) (token : string) :
  verifyToken jwt_verify None = inl no_token ∧
  verifyToken jwt_verify (Some "Bearer ") = inl no_token ∧
  verifyToken jwt_verify (Some EmptyString) = inl no_token ∧
  (spaceless token = true → token ≠ EmptyString →
   verifyToken jwt_verify (Some ("Bearer " +:+ token))
   = verifyToken jwt_verify (Some token) ∧
   verifyToken jwt_verify (Some token)
   = match jwt_verify token with
     | Some id => inr id
     | None => inl invalid_token
     end).
Proof.
  split; [done|]. split; [done|]. split; [done|].
  intros Hs Hne. unfold verifyToken.
  rewrite (remove_first_spaceless token Hs).
  replace (remove_first "Bearer " ("Bearer " +:+ token)) with token.
  - split; [done|]. by destruct token.
  - simpl. change (EmptyString +:+ token) with token.
    replace (String.prefix EmptyString token) with true
      by (by destruct token).
    rewrite Nat.sub_0_r. symmetry. apply substring_all.
Qed.

Lemma bearer_prefix_witness :
  verifyToken tokens (Some "Bearer t7") = inr 7 ∧
  verifyToken tokens (Some "t7") = inr 7.
Proof.
  destruct (bearer_prefix_is_optional tokens "t7") as (_ & _ & _ & H).
  destruct H as [H1 H2]; [reflexivity|discriminate|].
  split; [exact (eq_trans H1 H2)|exact H2].
Defined.

(** ** Deleting a user *)



(** * Categories *)

(** ** The children of a category and [getDescendants] *)

Lemma elem_of_children_of t p x : x ∈ children_of t p ↔ is_child t p x.
Proof.
  unfold children_of, is_child. rewrite list_elem_of_fmap. split.
  - intros ([k c] & -> & Hkc).
    apply elem_of_map_to_list, map_lookup_filter_Some in Hkc as [Hk [Ha Hp]].
    by exists c.
  - intros (c & Hc & Ha & Hp). exists (x, c). split; [done|].
    by apply elem_of_map_to_list, map_lookup_filter_Some.
Qed.

Lemma length_children_of t p :
  (length (children_of t p) ≤ size (categories t))%nat.
Proof.
  unfold children_of. rewrite length_fmap, length_map_to_list.
  apply map_subseteq_size, map_filter_subseteq.
Qed.

Lemma descends_snoc t a y x :
  descends t a y → is_child t y x → descends t a x.
Proof.
  intros Hd. revert x. induction Hd as [a y Hy|a c y Hc _ IH]; intros x Hx.
  - eapply descends_step; [exact Hy|]. by apply descends_child.
  - eapply descends_step; [exact Hc|]. by apply IH.
Qed.

Lemma getDescendants_loop_spec fuel t queue acc r :
  getDescendants_loop fuel t queue acc = Some r →
  ∀ x, x ∈ r ↔ x ∈ acc ∨ ∃ q, q ∈ queue ∧ descends t q x.
Proof.
  revert queue acc. induction fuel as [|fuel IH]; intros queue acc.
  - destruct queue as [|cur rest]; [|done]. intros [= <-] x. split; [by left|].
    intros [?|(q & Hq & _)]; [done|]. by apply elem_of_nil in Hq.
  - destruct queue as [|cur rest].
    + intros [= <-] x. split; [by left|].
      intros [?|(q & Hq & _)]; [done|]. by apply elem_of_nil in Hq.
    + cbn [getDescendants_loop]. intros Hr x.
      rewrite (IH _ _ Hr x). rewrite elem_of_app. split.
      * intros [[Hx|Hx]|(q & Hq & Hd)].
        -- by left.
        -- right. exists cur. split; [by left|].
           by apply descends_child, elem_of_children_of.
        -- apply elem_of_app in Hq as [Hq|Hq].
           ++ right. exists q. split; [by right|done].
           ++ right. exists cur. split; [by left|].
              eapply descends_step; [|exact Hd].
              by apply elem_of_children_of.
      * intros [Hx|(q & Hq & Hd)]; [by left; left|].
        apply elem_of_cons in Hq as [->|Hq].
        -- destruct Hd as [x Hx|c x Hc Hd].
           ++ left. right. by apply elem_of_children_of.
           ++ right. exists c. split; [|done].
              apply elem_of_app. right. by apply elem_of_children_of.
        -- right. exists q. split; [|done]. apply elem_of_app. by left.
Qed.

(** The weight of a queue: with [B] more than the number of rows and
    [M] a bound on the ranks, a category weighs [B ^ (M - rank)], which
    is more than its children together. *)
Lemma sum_list_bound {A} (w : A → nat) (K : nat) (l : list A) :
  (∀ x, x ∈ l → (w x ≤ K)%nat) →
  (sum_list_with w l ≤ length l * K)%nat.
Proof.
  induction l as [|a l IH]; intros Hw; simpl; [lia|].
  pose proof (Hw a ltac:(by left)).
  assert (sum_list_with w l ≤ length l * K)%nat
    by (apply IH; intros x Hx; apply Hw; by right).
  lia.
Qed.

Lemma rank_bound (m : gmap Z category) (rank : Z → nat) :
  ∃ M : nat, ∀ x, is_Some (m !! x) → (rank x ≤ M)%nat.
Proof.
  induction m as [|k c m Hk IH] using map_ind.
  - exists 0%nat. intros x [? Hx]. by rewrite lookup_empty in Hx.
  - destruct IH as [M HM]. exists (Nat.max M (rank k)). intros x Hx.
    destruct (decide (k = x)) as [->|Hne]; [lia|].
    rewrite lookup_insert_ne in Hx by done. specialize (HM x Hx). lia.
Qed.

Lemma children_weigh_less t (rank : Z → nat) (M : nat) cur :
  (∀ x p, parent_of t x = Some p → (rank p < rank x)%nat) →
  (∀ x, is_Some (categories t !! x) → (rank x ≤ M)%nat) →
  let B := S (size (categories t)) in
  (sum_list_with (λ x, B ^ (M - rank x)) (children_of t cur)
   < B ^ (M - rank cur))%nat.
Proof.
  intros Hrank HM B.
  destruct (children_of t cur) as [|c0 l0] eqn:Hch.
  { simpl. apply Nat.neq_0_lt_0, Nat.pow_nonzero. done. }
  rewrite <- Hch.
  assert (Hc : ∀ c, c ∈ children_of t cur →
                    (rank cur < rank c ∧ rank c ≤ M)%nat).
  { intros c (x & Hx & _ & Hp)%elem_of_children_of. split.
    - apply Hrank. unfold parent_of. by rewrite Hx.
    - apply HM. eauto. }
  destruct (Hc c0) as [H0 H0']; [rewrite Hch; by left|].
  assert (HM' : (M - rank cur = S (M - rank cur - 1))%nat) by lia.
  eapply Nat.le_lt_trans;
    [apply (sum_list_bound _ (B ^ (M - rank cur - 1)))|].
  { intros c Hin. destruct (Hc c Hin).
    apply Nat.pow_le_mono_r; [done|lia]. }
  rewrite HM' at 2. rewrite Nat.pow_succ_r'.
  pose proof (length_children_of t cur).
  assert (1 ≤ B ^ (M - rank cur - 1))%nat
    by (apply Nat.neq_0_lt_0, Nat.pow_nonzero; done).
  subst B. nia.
Qed.

Lemma getDescendants_loop_ends t (rank : Z → nat) (M : nat) :
  (∀ x p, parent_of t x = Some p → (rank p < rank x)%nat) →
  (∀ x, is_Some (categories t !! x) → (rank x ≤ M)%nat) →
  let B := S (size (categories t)) in
  ∀ fuel queue acc,
    (sum_list_with (λ x, B ^ (M - rank x)) queue < fuel)%nat →
    is_Some (getDescendants_loop fuel t queue acc).
Proof.
  intros Hrank HM B fuel.
  induction fuel as [|fuel IH]; intros queue acc Hlt; [lia|].
  destruct queue as [|cur rest]; [by eexists|].
  cbn [getDescendants_loop]. apply IH.
  rewrite sum_list_with_app. cbn [sum_list_with] in Hlt.
  pose proof (children_weigh_less t rank M cur Hrank HM). simpl in H.
  fold B in H. lia.
Qed.

Lemma getDescendants_loop_mono t f1 f2 queue acc r :
  getDescendants_loop f1 t queue acc = Some r → (f1 ≤ f2)%nat →
  getDescendants_loop f2 t queue acc = Some r.
Proof.
  revert f2 queue acc. induction f1 as [|f1 IH]; intros f2 queue acc H1 Hle.
  - destruct queue; [|done]. by destruct f2.
  - destruct queue as [|cur rest]; [by destruct f2|].
    destruct f2 as [|f2]; [lia|]. cbn [getDescendants_loop] in *.
    apply (IH f2); [done|lia].
Qed.

Lemma getDescendants_spec fuel t categoryId r :
  getDescendants fuel t categoryId = Some r →
  ∀ x, x ∈ r ↔ descends t categoryId x.
Proof.
  intros Hr x. unfold getDescendants in Hr.
  rewrite (getDescendants_loop_spec _ _ _ _ _ Hr x). split.
  - intros [Hx|(q & Hq & Hd)]; [by apply elem_of_nil in Hx|].
    by apply list_elem_of_singleton in Hq as ->.
  - intros Hd. right. exists categoryId. split; [by left|done].
Qed.

Lemma getDescendants_ends t categoryId :
  forest t →
  ∃ (bound : nat) (descendants : list Z),
    ∀ fuel, (bound ≤ fuel)%nat →
            getDescendants fuel t categoryId = Some descendants.
Proof.
  intros [[rank Hrank] _ _ _ _].
  destruct (rank_bound (categories t) rank) as [M HM].
  set (B := S (size (categories t))).
  set (bound := S (B ^ (M - rank categoryId))).
  destruct (getDescendants_loop_ends t rank M Hrank HM bound [categoryId] [])
    as [ds Hds].
  { simpl. fold B. subst bound. lia. }
  exists bound, ds. intros fuel Hf.
  by apply (getDescendants_loop_mono t bound).
Qed.

(** X19.  [getDescendants] on a forest.  On a category table that is a
    forest the loop ends: there is a number of iterations within which
    it returns, for every larger fuel, the same list; and that list
    holds exactly the categories below [categoryId], that is its
    active children, their active children, and so on. *)
Theorem getDescendants_on_a_forest (t : category_table) (categoryId : Z) :
  forest t →
  ∃ (bound : nat) (descendants : list Z),
    (∀ fuel, (bound ≤ fuel)%nat →
             getDescendants fuel t categoryId = Some descendants) ∧
    (∀ x, x ∈ descendants ↔ descends t categoryId x).
Proof.
  intros Hf. destruct (getDescendants_ends t categoryId Hf) as (b & ds & H).
  exists b, ds. split; [done|].
  by apply (getDescendants_spec b), H.
Qed.

(** ** The forest invariant *)

Lemma forest_acyclic t : forest t → ∀ x, ¬ ancestor t x x.
Proof.
  intros [[rank Hrank] _ _ _ _] x Hx.
  assert (H : ∀ y a, ancestor t y a → (rank a < rank y)%nat).
  { intros y a Ha. induction Ha as [y p Hp|y p a Hp _ IH].
    - by apply Hrank.
    - apply Hrank in Hp. lia. }
  apply H in Hx. lia.
Qed.

Lemma existing_sibling_false t name_ parent except k c :
  existing_sibling t name_ parent except = false →
  categories t !! k = Some c → cat_is_active c = true →
  cat_name c = name_ → parent_id c = parent → except = Some k.
Proof.
  intros He Hk Ha Hn Hp. apply bool_decide_eq_false in He.
  destruct (decide (except = Some k)) as [|Hne]; [done|].
  exfalso. apply He. by exists k, c.
Qed.

Lemma get_active_category_Some t id c :
  get_active_category t id = Some c ↔
  categories t !! id = Some c ∧ cat_is_active c = true.
Proof.
  unfold get_active_category. destruct (categories t !! id) as [d|].
  - destruct (cat_is_active d) eqn:Hd; split.
    + by intros [= <-].
    + by intros [[= <-] _].
    + done.
    + intros [[= <-] ?]. congruence.
  - split; [done|]. by intros [? _].
Qed.

Lemma forest_empty : forest {| categories := ∅; seq_categories := 0 |}.
Proof.
  split.
  - exists (λ _, 0%nat). intros x p. unfold parent_of. simpl.
    by rewrite lookup_empty.
  - intros x p. unfold parent_of. simpl. by rewrite lookup_empty.
  - intros x c p. simpl. by rewrite lookup_empty.
  - intros x [? H]. simpl in H. by rewrite lookup_empty in H.
  - intros x y c d. simpl. by rewrite lookup_empty.
Qed.

Lemma forest_create trim t body :
  forest t → forest (create_category trim t body).2.
Proof.
  intros Hf. unfold create_category.
  destruct (bool_decide (cb_name body = EmptyString)); [done|].
  set (name_ := trim (cb_name body)).
  set (description := or_null_s (trim <$> cb_description body)).
  set (parent := or_null (cb_parent_id body)).
  cbv zeta.
  destruct (match parent with
            | Some p => bool_decide (get_active_category t p = None)
            | None => false
            end) eqn:Hparent; [done|].
  destruct (existing_sibling t name_ parent None) eqn:Hex; [done|].
  cbn [snd]. set (n := seq_categories t + 1).
  set (new := {| cat_name := name_; cat_description := description;
                 parent_id := parent; cat_is_active := true |}).
  destruct Hf as [[rank Hrank] Hpar Hact Hids Hnames].
  assert (Hfresh : categories t !! n = None).
  { destruct (categories t !! n) eqn:Hn; [|done].
    assert (n ≤ seq_categories t) by (apply Hids; eauto). lia. }
  assert (Hp : ∀ p, parent = Some p → ∃ c, categories t !! p = Some c
                                           ∧ cat_is_active c = true).
  { intros p Hp. rewrite Hp in Hparent.
    apply bool_decide_eq_false in Hparent.
    destruct (get_active_category t p) as [c|] eqn:Hc; [|done].
    exists c. by apply get_active_category_Some. }
  assert (Hpo : ∀ x, x ≠ n →
            parent_of {| categories := <[n:=new]> (categories t);
                         seq_categories := n |} x = parent_of t x).
  { intros x Hx. unfold parent_of. simpl. by rewrite lookup_insert_ne. }
  assert (Hpn : parent_of {| categories := <[n:=new]> (categories t);
                             seq_categories := n |} n = parent).
  { unfold parent_of. simpl. by rewrite lookup_insert_eq. }
  assert (Hga : ∀ q, q ≠ n → is_Some (get_active_category t q) →
            is_Some (get_active_category
                       {| categories := <[n:=new]> (categories t);
                          seq_categories := n |} q)).
  { intros q Hq. unfold get_active_category. simpl.
    by rewrite lookup_insert_ne. }
  split.
  - exists (λ x, if decide (x = n)
                 then match parent with Some p => S (rank p) | None => 0%nat end
                 else rank x).
    intros x p Hx. destruct (decide (x = n)) as [->|Hne].
    + rewrite Hpn in Hx. rewrite Hx.
      destruct (Hp p Hx) as (c & Hc & _).
      destruct (decide (p = n)) as [->|_]; [congruence|]. lia.
    + rewrite Hpo in Hx by done.
      destruct (Hpar x p Hx) as [c Hc].
      destruct (decide (p = n)) as [->|_]; [congruence|]. by apply Hrank.
  - intros x p Hx. simpl. destruct (decide (x = n)) as [->|Hne].
    + rewrite Hpn in Hx. destruct (Hp p Hx) as (c & Hc & _).
      rewrite lookup_insert_ne by congruence. eauto.
    + rewrite Hpo in Hx by done. destruct (Hpar x p Hx) as [c Hc].
      rewrite lookup_insert_ne by congruence. eauto.
  - intros x c p Hx Ha Hpc. simpl in Hx.
    destruct (decide (x = n)) as [->|Hne].
    + rewrite lookup_insert_eq in Hx. injection Hx as <-. simpl in Hpc.
      destruct (Hp p Hpc) as (d & Hd & Hda).
      apply Hga; [congruence|]. exists d. by apply get_active_category_Some.
    + rewrite lookup_insert_ne in Hx by done.
      pose proof (Hact x c p Hx Ha Hpc) as [d Hd].
      apply Hga; [|by eexists].
      apply get_active_category_Some in Hd as [Hd _]. congruence.
  - intros x [c Hx]. simpl in *. destruct (decide (x = n)) as [->|Hne]; [lia|].
    rewrite lookup_insert_ne in Hx by done.
    assert (x ≤ seq_categories t) by (apply Hids; eauto). lia.
  - intros x y c d Hx Hy Hc Hd Hn Hpp. simpl in Hx, Hy.
    destruct (decide (x = n)) as [->|Hxn], (decide (y = n)) as [->|Hyn];
      [done|..].
    + rewrite lookup_insert_eq in Hx. injection Hx as <-.
      rewrite lookup_insert_ne in Hy by done.
      by pose proof (existing_sibling_false _ _ _ _ _ _ Hex Hy Hd
                       (eq_sym Hn) (eq_sym Hpp)).
    + rewrite lookup_insert_eq in Hy. injection Hy as <-.
      rewrite lookup_insert_ne in Hx by done.
      by pose proof (existing_sibling_false _ _ _ _ _ _ Hex Hx Hc Hn Hpp).
    + rewrite lookup_insert_ne in Hx, Hy by done. by eapply Hnames.
Qed.

Lemma catalogue_forest : forest catalogue.
Proof.
  assert (catalogue =
          (create_category (λ s, s)
             (create_category (λ s, s)
                {| categories := ∅; seq_categories := 0 |}
                {| cb_name := "Tools"; cb_description := None;
                   cb_parent_id := None |}).2
             {| cb_name := "Hammers"; cb_description := None;
                cb_parent_id := Some 1 |}).2) as ->
    by (vm_compute; reflexivity).
  apply forest_create, forest_create, forest_empty.
Qed.

Lemma getDescendants_witness :
  ∃ (bound : nat) (descendants : list Z),
    (∀ fuel, (bound ≤ fuel)%nat →
             getDescendants fuel catalogue 1 = Some descendants) ∧
    (∀ x, x ∈ descendants ↔ descends catalogue 1 x).
Proof.
  exact (getDescendants_on_a_forest catalogue 1 catalogue_forest).
Defined.

(** A row of the table after an UPDATE of the row [id]. *)
Lemma lookup_alter_category (f : category → category) id
    (m : gmap Z category) x c' :
  alter f id m !! x = Some c' ↔
  ∃ c, m !! x = Some c ∧ c' = if decide (x = id) then f c else c.
Proof.
  rewrite lookup_alter_Some. split.
  - intros [(-> & c & Hc & ->)|(Hne & Hc)].
    + exists c. by rewrite decide_True.
    + exists c'. by rewrite decide_False.
  - intros (c & Hc & ->). destruct (decide (x = id)) as [->|Hne].
    + left. eauto.
    + right. eauto.
Qed.

Lemma forest_delete db category_of t id :
  forest t → forest (delete_category db category_of t id).2.
Proof.
  intros Hf. unfold delete_category.
  destruct (get_active_category t id) as [cid|] eqn:Hid; [|done].
  cbv zeta. destruct (bool_decide (0 < productCount_of _ _ _)%nat); [done|].
  destruct (bool_decide (0 < length (children_of t id))%nat) eqn:Hch; [done|].
  apply bool_decide_eq_false in Hch. cbn [snd].
  assert (Hnone : ∀ x, ¬ is_child t id x).
  { intros x Hx%elem_of_children_of.
    destruct (children_of t id); [by apply elem_of_nil in Hx|simpl in Hch; lia]. }
  set (f := λ c, {| cat_name := cat_name c;
                    cat_description := cat_description c;
                    parent_id := parent_id c; cat_is_active := false |}).
  destruct Hf as [[rank Hrank] Hpar Hact Hids Hnames].
  assert (Hpo : ∀ x, parent_of {| categories := alter f id (categories t);
                                  seq_categories := seq_categories t |} x
                     = parent_of t x).
  { intros x. unfold parent_of. simpl.
    destruct (alter f id (categories t) !! x) as [c'|] eqn:Hx.
    - apply lookup_alter_category in Hx as (c & -> & ->).
      by destruct (decide (x = id)).
    - apply lookup_alter_None in Hx. by rewrite Hx. }
  split.
  - exists rank. intros x p. rewrite Hpo. apply Hrank.
  - intros x p. rewrite Hpo. intros Hx. simpl.
    destruct (Hpar x p Hx) as [c Hc].
    destruct (decide (p = id)) as [->|Hne].
    + exists (f c). apply lookup_alter_category. exists c.
      by rewrite decide_True.
    + exists c. apply lookup_alter_category. exists c.
      by rewrite decide_False.
  - intros x c' p Hx Ha Hp. simpl in Hx.
    apply lookup_alter_category in Hx as (c & Hx & ->).
    destruct (decide (x = id)) as [->|Hne]; [done|].
    destruct (Hact x c p Hx Ha Hp) as [d Hd].
    apply get_active_category_Some in Hd as [Hd Hda].
    destruct (decide (p = id)) as [->|Hpid].
    + exfalso. apply (Hnone x). by exists c.
    + exists d. apply get_active_category_Some. split; [|done]. simpl.
      apply lookup_alter_category. exists d. by rewrite decide_False.
  - intros x [c' Hx]. simpl in *.
    apply lookup_alter_category in Hx as (c & Hx & _). apply Hids. eauto.
  - intros x y c' d' Hx Hy Hc Hd Hn Hpp. simpl in Hx, Hy.
    apply lookup_alter_category in Hx as (c & Hx & ->).
    apply lookup_alter_category in Hy as (d & Hy & ->).
    destruct (decide (x = id)); [done|]. destruct (decide (y = id)); [done|].
    by eapply Hnames.
Qed.

Lemma climbs_stable t (rank : Z → nat) a :
  (∀ x p, parent_of t x = Some p → (rank p < rank x)%nat) →
  ∀ n x, (rank x ≤ n)%nat → climbs t a n x = climbs t a (rank x) x.
Proof.
  intros Hrank n. induction n as [n IH] using lt_wf_ind. intros x Hle.
  destruct (rank x) as [|k] eqn:Hk.
  - destruct n as [|n']; [done|]. simpl.
    destruct (parent_of t x) as [p|] eqn:Hp; [|done].
    apply Hrank in Hp. lia.
  - destruct n as [|n']; [lia|]. simpl.
    destruct (parent_of t x) as [p|] eqn:Hp; [|done].
    pose proof (Hrank _ _ Hp). f_equal.
    rewrite (IH n') by lia. rewrite (IH k) by lia. done.
Qed.

Lemma climbs_parent t (rank : Z → nat) a x y :
  (∀ x p, parent_of t x = Some p → (rank p < rank x)%nat) →
  x ≠ a → parent_of t x = Some y →
  climbs t a (rank x) x = climbs t a (rank y) y.
Proof.
  intros Hrank Hne Hp. pose proof (Hrank _ _ Hp).
  destruct (rank x) as [|k] eqn:Hk; [lia|]. simpl.
  rewrite bool_decide_eq_false_2 by done. rewrite Hp. simpl.
  apply (climbs_stable t rank a Hrank). lia.
Qed.

Lemma climbs_descends t a :
  (∀ x c p, categories t !! x = Some c → cat_is_active c = true →
            parent_id c = Some p → is_Some (get_active_category t p)) →
  ∀ n x c, climbs t a n x = true → x ≠ a →
           categories t !! x = Some c → cat_is_active c = true →
           descends t a x.
Proof.
  intros Hact n. induction n as [|n IH]; intros x c Hcl Hne Hx Ha;
    simpl in Hcl; rewrite bool_decide_eq_false_2 in Hcl by done;
    simpl in Hcl; [done|].
  destruct (parent_of t x) as [y|] eqn:Hp; [|done].
  assert (Hpc : parent_id c = Some y).
  { unfold parent_of in Hp. by rewrite Hx in Hp. }
  destruct (decide (y = a)) as [->|Hya].
  - apply descends_child. by exists c.
  - destruct (Hact x c y Hx Ha Hpc) as [d Hd].
    apply get_active_category_Some in Hd as [Hd Hda].
    eapply descends_snoc; [by apply (IH y d)|]. by exists c.
Qed.

(** What an accepted PUT has checked. *)
Lemma update_category_inv fuel trim t id body resp t' :
  update_category fuel trim t id body = Some (resp, t') →
  (t' = t ∧ resp ≠ cat_200) ∨
  (resp = cat_200 ∧
   let name_ := trim (cb_name body) in
   let parent := or_null (cb_parent_id body) in
   is_Some (get_active_category t id) ∧
   existing_sibling t name_ parent (Some id) = false ∧
   (∀ p, parent = Some p →
         p ≠ id ∧ is_Some (get_active_category t p) ∧ ¬ descends t id p) ∧
   t' = {| categories :=
             alter (λ c, {| cat_name := name_;
                            cat_description :=
                              or_null_s (trim <$> cb_description body);
                            parent_id := parent;
                            cat_is_active := cat_is_active c |})
                   id (categories t);
           seq_categories := seq_categories t |}).
Proof.
  unfold update_category.
  destruct (bool_decide (cb_name body = EmptyString));
    [intros [= <- <-]; by left|].
  cbv zeta.
  destruct (get_active_category t id) as [cid|] eqn:Hid;
    [|intros [= <- <-]; by left].
  destruct (or_null (cb_parent_id body)) as [p|] eqn:Hparent.
  - destruct (bool_decide (p = id)) eqn:Hpid; [intros [= <- <-]; by left|].
    apply bool_decide_eq_false in Hpid.
    destruct (bool_decide (get_active_category t p = None)) eqn:Hp;
      [intros [= <- <-]; by left|].
    apply bool_decide_eq_false in Hp.
    destruct (getDescendants fuel t id) as [ds|] eqn:Hds; [|done].
    destruct (bool_decide (p ∈ ds)) eqn:Hin; [intros [= <- <-]; by left|].
    apply bool_decide_eq_false in Hin.
    destruct (existing_sibling t _ (Some p) (Some id)) eqn:Hex;
      [intros [= <- <-]; by left|].
    intros [= <- <-]. right. split; [done|]. cbv zeta.
    split; [by eexists|]. split; [done|]. split; [|done].
    intros q [= <-]. split; [done|]. split.
    + by destruct (get_active_category t p).
    + by rewrite <- (getDescendants_spec _ _ _ _ Hds).
  - destruct (existing_sibling t _ None (Some id)) eqn:Hex;
      [intros [= <- <-]; by left|].
    intros [= <- <-]. right. split; [done|]. cbv zeta.
    split; [by eexists|]. split; [done|]. by split.
Qed.

Lemma forest_update fuel trim t id body resp t' :
  update_category fuel trim t id body = Some (resp, t') →
  forest t → forest t'.
Proof.
  intros [[-> _]|(_ & H)]%update_category_inv Hf; [done|].
  cbv zeta in H. destruct H as ([cid Hid] & Hex & Hparent & ->).
  set (name_ := trim (cb_name body)) in *.
  set (parent := or_null (cb_parent_id body)) in *.
  set (f := λ c, {| cat_name := name_;
                    cat_description := or_null_s (trim <$> cb_description body);
                    parent_id := parent; cat_is_active := cat_is_active c |}).
  apply get_active_category_Some in Hid as [Hid Hida].
  destruct Hf as [[rank Hrank] Hpar Hact Hids Hnames].
  set (t' := {| categories := alter f id (categories t);
                seq_categories := seq_categories t |}).
  assert (Hpo : ∀ x, x ≠ id → parent_of t' x = parent_of t x).
  { intros x Hne. unfold parent_of. simpl.
    destruct (alter f id (categories t) !! x) as [c'|] eqn:Hx.
    - apply lookup_alter_category in Hx as (c & -> & ->).
      by rewrite decide_False.
    - apply lookup_alter_None in Hx. by rewrite Hx. }
  assert (Hpi : parent_of t' id = parent).
  { unfold parent_of. simpl. rewrite lookup_alter_eq, Hid. done. }
  assert (Hdom : ∀ x, is_Some (categories t !! x) →
                      is_Some (categories t' !! x)).
  { intros x [c Hc]. exists (if decide (x = id) then f c else c).
    apply lookup_alter_category. eauto. }
  assert (Hga : ∀ x, is_Some (get_active_category t x) →
                     is_Some (get_active_category t' x)).
  { intros x [c [Hc Ha]%get_active_category_Some].
    exists (if decide (x = id) then f c else c).
    apply get_active_category_Some. split.
    - apply lookup_alter_category. eauto.
    - by destruct (decide (x = id)). }
  split.
  - exists (λ x, if climbs t id (rank x) x
                 then (rank x + match parent with
                                | Some p => S (rank p)
                                | None => 0
                                end)%nat
                 else rank x).
    intros x p Hx. destruct (decide (x = id)) as [->|Hne].
    + rewrite Hpi in Hx. destruct (Hparent p Hx) as (Hpid & [d Hd] & Hnd).
      apply get_active_category_Some in Hd as [Hd Hda].
      assert (climbs t id (rank p) p = false) as ->.
      { destruct (climbs t id (rank p) p) eqn:Hcl; [|done].
        exfalso. apply Hnd. by eapply climbs_descends. }
      assert (climbs t id (rank id) id = true) as ->.
      { destruct (rank id); simpl; by rewrite bool_decide_eq_true_2. }
      rewrite Hx. lia.
    + rewrite Hpo in Hx by done.
      rewrite (climbs_parent t rank id x p Hrank Hne Hx).
      pose proof (Hrank _ _ Hx). destruct (climbs t id (rank p) p); lia.
  - intros x p Hx. apply Hdom. destruct (decide (x = id)) as [->|Hne].
    + rewrite Hpi in Hx. destruct (Hparent p Hx) as (_ & [d Hd] & _).
      apply get_active_category_Some in Hd as [Hd _]. eauto.
    + rewrite Hpo in Hx by done. by eapply Hpar.
  - intros x c' p Hx Ha Hp. apply Hga.
    apply lookup_alter_category in Hx as (c & Hx & ->).
    destruct (decide (x = id)) as [->|Hne].
    + simpl in Hp. by destruct (Hparent p Hp) as (_ & ? & _).
    + by eapply Hact.
  - intros x [c' Hx]. simpl in *.
    apply lookup_alter_category in Hx as (c & Hx & _). apply Hids. eauto.
  - intros x y c' d' Hx Hy Hc Hd Hn Hpp.
    apply lookup_alter_category in Hx as (c & Hx & ->).
    apply lookup_alter_category in Hy as (d & Hy & ->).
    destruct (decide (x = id)) as [->|Hxn], (decide (y = id)) as [->|Hyn];
      [done|..].
    + pose proof (existing_sibling_false _ _ _ _ _ _ Hex Hy Hd
                    (eq_sym Hn) (eq_sym Hpp)). congruence.
    + pose proof (existing_sibling_false _ _ _ _ _ _ Hex Hx Hc Hn Hpp).
      congruence.
    + by eapply Hnames.
Qed.

Lemma update_category_ends trim t id body :
  forest t →
  ∃ bound : nat, ∀ fuel, (bound ≤ fuel)%nat →
    is_Some (update_category fuel trim t id body).
Proof.
  intros Hf. destruct (getDescendants_ends t id Hf) as (bound & ds & Hds).
  exists bound. intros fuel Hfuel. unfold update_category.
  rewrite (Hds fuel Hfuel). cbv zeta.
  repeat match goal with
         | |- is_Some (Some _) => by eexists
         | |- is_Some (if ?b then _ else _) => destruct b
         | |- is_Some (match ?o with Some _ => _ | None => _ end) =>
             destruct o
         end.
Qed.

(** X20.  The categories stay a forest.  On a forest every writing
    request of the categories router is answered (the descendants loop
    of PUT ends within some number of iterations), and the table it
    leaves is a forest again: parent pointers lead to rows, the parent
    of an active category is active, active categories under one parent
    have different names, and no category is its own ancestor.  The
    [parent_id] of a body is a JSON number. *)
Theorem categories_stay_a_forest (trim : string → string) (db : DB)
    (category_of : gmap Z Z) (t : category_table) (req : category_request) :
  forest t →
  ∃ bound : nat, ∀ fuel, (bound ≤ fuel)%nat →
    ∃ resp t',
      category_handle fuel trim db category_of t req = Some (resp, t') ∧
      forest t' ∧ ∀ x, ¬ ancestor t' x x.
Proof.
  intros Hf. destruct req as [body|id body|id]; cbn [category_handle].
  - exists 0%nat. intros fuel _.
    destruct (create_category trim t body) as [resp t'] eqn:He.
    exists resp, t'. split; [done|].
    assert (forest t') by (change t' with (resp, t').2; rewrite <- He;
                           by apply forest_create).
    split; [done|]. by apply forest_acyclic.
  - destruct (update_category_ends trim t id body Hf) as [bound Hb].
    exists bound. intros fuel Hfuel.
    destruct (Hb fuel Hfuel) as [[resp t'] He].
    exists resp, t'. split; [done|].
    assert (forest t') by (by eapply forest_update).
    split; [done|]. by apply forest_acyclic.
  - exists 0%nat. intros fuel _.
    destruct (delete_category db category_of t id) as [resp t'] eqn:He.
    exists resp, t'. split; [done|].
    assert (forest t') by (change t' with (resp, t').2; rewrite <- He;
                           by apply forest_delete).
    split; [done|]. by apply forest_acyclic.
Qed.

Lemma categories_stay_a_forest_witness :
  ∃ bound : nat, ∀ fuel, (bound ≤ fuel)%nat →
    ∃ resp t',
      category_handle fuel (λ s, s) (shop 10) ∅ catalogue
        (cat_update 1 tools_under_hammers) = Some (resp, t') ∧
      forest t' ∧ ∀ x, ¬ ancestor t' x x.
Proof.
  exact (categories_stay_a_forest (λ s, s) (shop 10) ∅ catalogue
           (cat_update 1 tools_under_hammers) catalogue_forest).
Defined.

(** X21.  A category is not moved below itself.  When the body of a PUT
    names as parent the category itself or a category below it (a
    non-zero JSON number), the request is not answered with 200 and the
    table is left as it was. *)
Theorem category_is_not_moved_below_itself (fuel : nat)
    (trim : string → string) (t : category_table) (id : Z)
    (body : category_body) (p : Z) resp t' :
  update_category fuel trim t id body = Some (resp, t') →
  cb_parent_id body = Some p → p ≠ 0 →
  p = id ∨ descends t id p →
  resp ≠ cat_200 ∧ t' = t.
Proof.
  intros [[-> ?]|(_ & H)]%update_category_inv Hp Hp0 Hbelow; [done|].
  cbv zeta in H. destruct H as (_ & _ & Hparent & _).
  destruct (Hparent p) as (Hne & _ & Hnd).
  { rewrite Hp. by destruct p. }
  by destruct Hbelow.
Qed.

Lemma category_is_not_moved_witness :
  cat_400 "Cannot create circular reference" ≠ cat_200 ∧
  catalogue = catalogue.
Proof.
  apply (category_is_not_moved_below_itself 5 (λ s, s) catalogue 1
           tools_under_hammers 2).
  - vm_compute. reflexivity.
  - reflexivity.
  - lia.
  - right. apply descends_child. exists hammers. repeat split.
Defined.

(** X22.  A category in use is not deleted.  DELETE answers 200 exactly
    when the category is active, no active product is assigned to it
    and it has no active subcategory; the row is then deactivated, not
    removed, and every other row is left as it was.  With any other
    answer the table is left as it was. *)
Theorem category_in_use_is_not_deleted (db : DB) (category_of : gmap Z Z)
    (t : category_table) (id : Z) :
  let resp := (delete_category db category_of t id).1 in
  let t' := (delete_category db category_of t id).2 in
  (resp = cat_200 ↔
   is_Some (get_active_category t id) ∧
   (∀ k pr, products db !! k = Some pr → is_active pr = true →
            category_of !! k ≠ Some id) ∧
   (∀ x, ¬ is_child t id x)) ∧
  (resp ≠ cat_200 → t' = t) ∧
  (resp = cat_200 →
   get_active_category t' id = None ∧
   is_Some (categories t' !! id) ∧
   ∀ x, x ≠ id → categories t' !! x = categories t !! x).
Proof.
  cbv zeta. unfold delete_category.
  destruct (get_active_category t id) as [cid|] eqn:Hid.
  2:{ cbn [fst snd]. split; [|done]. split; [done|].
      by intros [[? ?] _]. }
  cbv zeta.
  assert (Hprod : (0 < productCount_of db category_of id)%nat ↔
            ∃ k pr, products db !! k = Some pr ∧ is_active pr = true
                    ∧ category_of !! k = Some id).
  { unfold productCount_of. split.
    - intros Hlt.
      destruct (map_size_ne_0_lookup_1
                  (filter (λ kv, is_active kv.2 = true
                                 ∧ category_of !! kv.1 = Some id)
                          (products db))) as (k & pr & Hk); [lia|].
      apply map_lookup_filter_Some in Hk as (Hk & Ha & Hc).
      by exists k, pr.
    - intros (k & pr & Hk & Ha & Hc).
      assert (size (filter (λ kv, is_active kv.2 = true
                                  ∧ category_of !! kv.1 = Some id)
                           (products db)) ≠ 0)%nat; [|lia].
      apply (map_size_ne_0_lookup_2 _ k). exists pr.
      by apply map_lookup_filter_Some. }
  assert (Hsub : (0 < length (children_of t id))%nat ↔
            ∃ x, is_child t id x).
  { split.
    - destruct (children_of t id) as [|x l] eqn:Hl; [simpl; lia|].
      intros _. exists x. apply elem_of_children_of. rewrite Hl. by left.
    - intros [x Hx%elem_of_children_of].
      destruct (children_of t id); [by apply elem_of_nil in Hx|simpl; lia]. }
  destruct (bool_decide (0 < productCount_of db category_of id)%nat)
    eqn:Hpc.
  { apply bool_decide_eq_true in Hpc. apply Hprod in Hpc
      as (k & pr & Hk & Ha & Hc). cbn [fst snd].
    split; [|done]. split; [done|]. intros (_ & Hno & _).
    by destruct (Hno k pr). }
  apply bool_decide_eq_false in Hpc.
  destruct (bool_decide (0 < length (children_of t id))%nat) eqn:Hcc.
  { apply bool_decide_eq_true in Hcc. apply Hsub in Hcc as [x Hx].
    cbn [fst snd]. split; [|done]. split; [done|]. intros (_ & _ & Hno).
    by destruct (Hno x). }
  apply bool_decide_eq_false in Hcc. cbn [fst snd].
  split; [|split; [done|]].
  - split; [|done]. intros _. split; [by eexists|]. split.
    + intros k pr Hk Ha Hc. apply Hpc, Hprod. by exists k, pr.
    + intros x Hx. apply Hcc, Hsub. by exists x.
  - intros _. apply get_active_category_Some in Hid as [Hid Ha].
    split; [|split].
    + unfold get_active_category. simpl. by rewrite lookup_alter_eq, Hid.
    + simpl. rewrite lookup_alter_eq, Hid. by eexists.
    + intros x Hne. simpl. by rewrite lookup_alter_ne.
Qed.

Lemma category_in_use_witness :
  (delete_category (shop 10) ∅ catalogue 1).1
  = cat_400 "Cannot delete category. It has 1 subcategories." ∧
  (delete_category (shop 10) ∅ catalogue 1).2 = catalogue.
Proof.
  split; [vm_compute; reflexivity|].
  destruct (category_in_use_is_not_deleted (shop 10) ∅ catalogue 1)
    as (_ & H & _).
  apply H. vm_compute. discriminate.
Defined.

(** * Products *)

Lemma sale_items_grow_handle db r :
  sale_items db `prefix_of` sale_items (handle db r).
Proof.
  destruct r as [u b|u b|u n b|u i b]; simpl.
  - unfold adjust. repeat case_match; simpl; try done.
    unfold commit, beginTransaction.
    assert (∀ d p v q m, sale_items (check_low_stock d p v q m)
                         = sale_items d) as -> by frame.
    done.
  - unfold bulkAdjust. case_match; [done|]. simpl.
    unfold commit, beginTransaction.
    apply (fold_left_preserves _
      (λ st, sale_items db `prefix_of` sale_items (bs_db st))); [|done].
    intros st a Hst. unfold bulk_step. repeat case_match; simpl; try done.
    assert (∀ d p v q m, sale_items (check_low_stock d p v q m)
                         = sale_items d) as -> by frame.
    done.
  - unfold createSale. case_match; [done|].
    unfold createSale_tx, beginTransaction, rollback, commit.
    destruct (validate_items db (items b)) as [e|vs]; [done|].
    destruct (insert_sale db _) as [e|[sid db1]] eqn:Hins; [done|]. simpl.
    apply insert_sale_frame in Hins as (_ & _ & _ & His & _).
    apply (fold_left_preserves _
      (λ d, sale_items db `prefix_of` sale_items d)); [|by rewrite His].
    intros d v Hd. unfold sale_step.
    assert (∀ d p v q m, sale_items (check_low_stock_sale d p v q m)
                         = sale_items d) as -> by frame.
    simpl. etrans; [exact Hd|]. by apply prefix_app_r.
  - unfold refund. case_match; [|done]. cbv zeta. case_match; [|done].
    simpl. unfold commit, beginTransaction.
    apply (fold_left_preserves _
      (λ d, sale_items db `prefix_of` sale_items d)); [|done].
    intros d item Hd. unfold refund_step. by case_match.
Qed.

Lemma sale_items_grow_perform db a :
  sale_items db `prefix_of` sale_items (perform db a).
Proof.
  destruct a as [r|u i]; simpl; [apply sale_items_grow_handle|].
  unfold acknowledge, acknowledge_alert. by repeat case_match.
Qed.

Lemma products_perform db a : products (perform db a) = products db.
Proof.
  destruct a as [r|u i]; simpl; [apply untouched_handle|].
  unfold acknowledge, acknowledge_alert. by repeat case_match.
Qed.

Lemma saleItems_count_pos db id :
  (0 < saleItems_count db id)%nat ↔
  ∃ si, si ∈ sale_items db ∧ si_product_id si = id.
Proof.
  unfold saleItems_count. split.
  - destruct (List.filter _ _) as [|si l] eqn:Hf; [simpl; lia|]. intros _.
    assert (Hin : In si (List.filter
              (λ si, bool_decide (si_product_id si = id)) (sale_items db)))
      by (rewrite Hf; by left).
    apply List.filter_In in Hin as [Hin Hb].
    exists si. split; [by apply list_elem_of_In|by apply bool_decide_eq_true in Hb].
  - intros (si & Hin & Hid).
    assert (Hf : In si (List.filter
              (λ si, bool_decide (si_product_id si = id)) (sale_items db))).
    { apply List.filter_In. split; [by apply list_elem_of_In|].
      by apply bool_decide_eq_true. }
    destruct (List.filter _ _); [done|simpl; lia].
Qed.

Lemma validate_items_active db its vs l :
  validate_items db its = inr vs → l ∈ its →
  is_Some (get_active_product db (sl_product_id l)).
Proof.
  revert vs. induction its as [|item its IH]; intros vs H Hl.
  - by apply elem_of_nil in Hl.
  - simpl in H. destruct (validate_item db item) as [|v] eqn:Hv; [done|].
    destruct (validate_items db its) as [|vs']; [done|].
    apply elem_of_cons in Hl as [->|Hl]; [|by eapply IH].
    unfold validate_item in Hv.
    destruct (get_active_product db (sl_product_id item)); [by eexists|done].
Qed.

(** X23.  A sold product is kept.  Once a sale is accepted, each
    product on its order cannot be deleted: whatever adjustments,
    sales, refunds, acknowledgements and product deletions follow,
    DELETE of that product answers 400 and leaves the database as it
    is. *)
Theorem sold_product_is_kept (db : DB) (user_id : Z) (saleNumber : string)
    (body : sale_body) (sid : Z) (its : list sale_item) (db' : DB)
    (l : sale_line) (ops : list operation) :
  createSale db user_id saleNumber body = (sale_201 sid its, db') →
  l ∈ items body →
  let db'' := run_all db' ops in
  delete_product db'' (sl_product_id l)
  = (product_400 "Cannot delete product that has been sold. You can only deactivate it.",
     db'').
Proof.
  intros Hsale Hl. cbv zeta.
  set (p := sl_product_id l).
  set (J := λ d : DB, is_Some (get_active_product d p) ∧
                      ∃ si, si ∈ sale_items d ∧ si_product_id si = p).
  assert (Hend : ∀ d, J d →
            delete_product d p
            = (product_400 "Cannot delete product that has been sold. You can only deactivate it.",
               d)).
  { intros d [[pr Hpr] Hsi]. unfold delete_product. rewrite Hpr.
    apply saleItems_count_pos in Hsi. by rewrite bool_decide_eq_true_2. }
  apply Hend.
  assert (Hrun : ∀ d op, J d → J (run d op)).
  { intros d [a|q] [Hp (si & Hsi & Hid)]; simpl.
    - split.
      + unfold get_active_product. by rewrite products_perform.
      + exists si. split; [|done].
        destruct (sale_items_grow_perform d a) as [k ->].
        apply elem_of_app. by left.
    - destruct (decide (q = p)) as [->|Hne].
      + rewrite (Hend d); [by split; [|exists si]|]. by split; [|exists si].
      + unfold delete_product. repeat case_match; simpl;
          try (by split; [|exists si]).
        split; [|by exists si].
        unfold get_active_product, commit, beginTransaction. simpl.
        by rewrite lookup_alter_ne. }
  assert (J db') as Hdb'.
  { pose proof Hsale as (vs & Hvs & _)%createSale_201.
    pose proof Hsale as (_ & _ & new & ms & Hitems & Hnew & _)%createSale_booked.
    split.
    - unfold get_active_product.
      replace (products db') with (products db).
      + by eapply validate_items_active.
      + symmetry.
        replace db' with (handle db (req_createSale user_id saleNumber body))
          by (simpl; by rewrite Hsale).
        apply untouched_handle.
    - apply list_elem_of_lookup in Hl as [i Hi].
      destruct (Forall2_lookup_l _ _ _ _ _ Hnew Hi) as (si & Hsi & Hil).
      exists si. split.
      + rewrite Hitems. apply elem_of_app. right.
        by eapply list_elem_of_lookup_2.
      + apply Hil. }
  clear Hsale. revert db' Hdb'.
  induction ops as [|op ops IH]; intros d Hd; simpl; [done|].
  apply IH, Hrun, Hd.
Qed.

Lemma sold_product_witness :
  ∃ its db',
    createSale shop2 7 "SALE-1" (order [line_A 2; line_B 3])
    = (sale_201 1 its, db') ∧
    delete_product (run_all db' [op_delete_product 1]) 1
    = (product_400 "Cannot delete product that has been sold. You can only deactivate it.",
       run_all db' [op_delete_product 1]).
Proof.
  destruct (createSale shop2 7 "SALE-1" (order [line_A 2; line_B 3]))
    as [resp db'] eqn:He.
  assert (Hr : resp = (createSale shop2 7 "SALE-1"
                         (order [line_A 2; line_B 3])).1) by by rewrite He.
  vm_compute in Hr. subst resp.
  do 2 eexists. split; [reflexivity|].
  apply (sold_product_is_kept _ _ _ _ _ _ _ (line_A 2) [op_delete_product 1]
           He).
  by left.
Defined.

Lemma validate_items_inactive db its l :
  l ∈ its → get_active_product db (sl_product_id l) = None →
  ∃ e, validate_items db its = inl e.
Proof.
  intros Hl Hp. destruct (validate_items db its) as [e|vs] eqn:Hv; [by eexists|].
  destruct (validate_items_active _ _ _ _ Hv Hl) as [? ?]. congruence.
Qed.

(** X24.  A deleted product is out of sale.  After DELETE of a product
    has answered 200, and whatever adjustments, sales, refunds,
    acknowledgements and product deletions follow, an order with a line
    of that product is refused and an adjustment of that product is
    not made, each leaving the database as it is; the stock lines and
    the ledger of the product are what they were at the deletion. *)
Theorem deleted_product_is_out_of_sale (db : DB) (id : Z) (db' : DB)
    (ops : list operation) :
  delete_product db id = (product_200, db') →
  (stock db' = stock db ∧ stock_movements db' = stock_movements db ∧
   sale_items db' = sale_items db) ∧
  let db'' := run_all db' ops in
  (∀ user_id saleNumber body l,
      l ∈ items body → sl_product_id l = id →
      is_sale_failure (createSale db'' user_id saleNumber body).1 ∧
      (createSale db'' user_id saleNumber body).2 = db'') ∧
  (∀ user_id body,
      ab_product_id body = id →
      (adjust db'' user_id body = (adjust_400, db'') ∨
       adjust db'' user_id body = (adjust_404 "Product not found", db''))).
Proof.
  intros Hdel.
  assert (Hdb' : get_active_product db' id = None ∧
                 (stock db' = stock db ∧
                  stock_movements db' = stock_movements db ∧
                  sale_items db' = sale_items db)).
  { unfold delete_product in Hdel.
    destruct (get_active_product db id) as [pr|] eqn:Hpr; [|done].
    destruct (bool_decide _); [done|]. injection Hdel as <-.
    split; [|done]. unfold get_active_product, commit, beginTransaction.
    simpl. rewrite lookup_alter_eq.
    by destruct (products db !! id). }
  destruct Hdb' as [Hnone Hsame]. split; [done|]. cbv zeta.
  assert (Hgone : get_active_product (run_all db' ops) id = None).
  { clear Hdel Hsame. revert db' Hnone.
    induction ops as [|op ops IH]; intros d Hd; simpl; [done|].
    apply IH. destruct op as [a|q]; simpl.
    - unfold get_active_product. by rewrite products_perform.
    - unfold delete_product. repeat case_match; simpl; try done.
      unfold get_active_product, commit, beginTransaction in *. simpl.
      destruct (decide (q = id)) as [->|Hne].
      + rewrite lookup_alter_eq. by destruct (products d !! id).
      + by rewrite lookup_alter_ne. }
  split.
  - intros u n body l Hl Hid. unfold createSale.
    case_match; [done|].
    unfold createSale_tx, beginTransaction, rollback.
    destruct (validate_items_inactive (run_all db' ops) (items body) l Hl)
      as [e ->]; [by rewrite Hid|]. done.
  - intros u body Hid. unfold adjust. rewrite Hid, Hgone.
    destruct (negb _); [by left|by right].
Qed.

Lemma deleted_product_witness :
  ∃ db', delete_product (shop 10) 1 = (product_200, db') ∧
         (createSale db' 7 "SALE-1" (order [line_A 2])).2 = db'.
Proof.
  destruct (delete_product (shop 10) 1) as [resp db'] eqn:He.
  assert (Hr : resp = (delete_product (shop 10) 1).1) by by rewrite He.
  vm_compute in Hr. subst resp.
  destruct (deleted_product_is_out_of_sale _ _ _ [] He) as (_ & Hsale & _).
  exists db'. split; [reflexivity|].
  apply (Hsale 7 "SALE-1" (order [line_A 2]) (line_A 2)); [by left|done].
Defined.
